(** * go-d3d, package outputduplication: a shallow embedding

    The development follows [outputduplication/output_duplication.go].
    Go's [int] is the 64-bit integer of the windows/amd64 target and is
    written as [Z]; the 32-bit conversions of the source are written out
    with their wrap-around.  A byte is a [Z] below 256.  A run-time panic
    (index out of range, nil dereference, a write past a buffer) is [None].

    The Display Duplication Provider (packages d3d, d3d11 and dxgi) is
    outside the embedded file: every answer it gives is an input of the
    model, and every call made to it is recorded in a trace of events. *)

From Stdlib Require Import ZArith List Bool Lia.
From Stdlib Require Import Floats.SpecFloat.
Import ListNotations.
Open Scope Z_scope.

(* ================================================================== *)
(** ** Go values: integers, slices, loops *)

Module Go.

(** A byte is a [Z] in [0, 256). *)
Abbreviation byte := Z (only parsing).

Definition maxInt : Z := 2 ^ 63 - 1.

(** [uint32(x)] and [int32(x)]: conversion keeps the low 32 bits. *)
Definition uint32 (x : Z) : Z := x mod 2 ^ 32.
Definition int32 (x : Z) : Z := (x + 2 ^ 31) mod 2 ^ 32 - 2 ^ 31.
Definition uint8 (x : Z) : Z := x mod 2 ^ 8.

Definition len {A} (l : list A) : Z := Z.of_nat (length l).

(** [l[i]], which panics outside [0 <= i < len(l)]. *)
Definition index {A} (l : list A) (i : Z) : option A :=
  if i <? 0 then None else nth_error l (Z.to_nat i).

(** [l[lo:]] and [l[lo:hi]] on a slice whose capacity is its length. *)
Definition from {A} (l : list A) (lo : Z) : option (list A) :=
  if (0 <=? lo) && (lo <=? len l) then Some (skipn (Z.to_nat lo) l) else None.

Definition range {A} (l : list A) (lo hi : Z) : option (list A) :=
  if (0 <=? lo) && (lo <=? hi) && (hi <=? len l)
  then Some (firstn (Z.to_nat (hi - lo)) (skipn (Z.to_nat lo) l))
  else None.

(** [copy(dst, src)]: the first [min(len(dst), len(src))] elements of
    [dst] are replaced. *)
Definition copy {A} (dst src : list A) : list A :=
  firstn (length dst) src ++ skipn (length src) dst.

(** [copy(l[lo:], src)] seen from [l]. *)
Definition copy_at {A} (l : list A) (lo : Z) (src : list A) : option (list A) :=
  match from l lo with
  | None => None
  | Some tl => Some (firstn (Z.to_nat lo) l ++ copy tl src)
  end.

(** [for i := start; <k more rounds>; i++ { body }] over a state that
    a panic of the body destroys. *)
Fixpoint loop {S} (k : nat) (i : Z) (body : Z -> S -> option S) (s : S)
  : option S :=
  match k with
  | O => Some s
  | S k' =>
      match body i s with
      | None => None
      | Some s' => loop k' (i + 1) body s'
      end
  end.

(** [for i := 0; i < n; i++ { body }] *)
Definition for_lt {S} (n : Z) (body : Z -> S -> option S) (s : S) : option S :=
  loop (Z.to_nat n) 0 body s.

(** A slice with its backing array: [sarr] is the whole array (its
    length is the capacity), [slen] the length of the slice. *)
Record slice (A : Type) := mkSlice { sarr : list A; slen : nat }.
Arguments mkSlice {A} _ _.
Arguments sarr {A} _.
Arguments slen {A} _.

Definition nil_slice {A} : slice A := mkSlice [] 0.
Definition slice_len {A} (s : slice A) : Z := Z.of_nat (slen s).
Definition slice_cap {A} (s : slice A) : Z := len (sarr s).
Definition elems {A} (s : slice A) : list A := firstn (slen s) (sarr s).

(** [make([]T, n)] *)
Definition make {A} (zero : A) (n : Z) : slice A :=
  mkSlice (repeat zero (Z.to_nat n)) (Z.to_nat n).

(** [s[:n]], legal up to the capacity. *)
Definition upto {A} (s : slice A) (n : Z) : option (slice A) :=
  if (0 <=? n) && (n <=? slice_cap s)
  then Some (mkSlice (sarr s) (Z.to_nat n)) else None.

(** A callee that was handed [s] stores [written] at its start; it sees
    [len(s)] elements and no more. *)
Definition stored {A} (s : slice A) (written : list A) : slice A :=
  mkSlice (copy (elems s) written ++ skipn (slen s) (sarr s)) (slen s).

End Go.

(* ================================================================== *)
(** ** image.RGBA and color.RGBA of Go's standard library *)

Module color.

Record RGBA := mkRGBA { R : Z; G : Z; B : Z; A : Z }.

(** [func (c RGBA) RGBA() (r, g, b, a uint32)]: each channel is
    widened to 16 bits, [r |= r << 8]. *)
Definition widen (c : Z) : Z := Z.lor c (Z.shiftl c 8).

Definition RGBA16 (c : RGBA) : Z * Z * Z * Z :=
  (widen (R c), widen (G c), widen (B c), widen (A c)).

End color.

Module image.

Record Rectangle := mkRect { MinX : Z; MinY : Z; MaxX : Z; MaxY : Z }.

(** [image.Rect(x0, y0, x1, y1)] orders its corners. *)
Definition Rect (x0 y0 x1 y1 : Z) : Rectangle :=
  mkRect (Z.min x0 x1) (Z.min y0 y1) (Z.max x0 x1) (Z.max y0 y1).

Definition Dx (r : Rectangle) : Z := MaxX r - MinX r.
Definition Dy (r : Rectangle) : Z := MaxY r - MinY r.

(** [Point{x, y}.In(r)] *)
Definition PointIn (x y : Z) (r : Rectangle) : bool :=
  (MinX r <=? x) && (x <? MaxX r) && (MinY r <=? y) && (y <? MaxY r).

Record RGBA := mkRGBA { Pix : list Go.byte; Stride : Z; Bounds : Rectangle }.

Definition with_Pix (p : RGBA) (pix : list Go.byte) : RGBA :=
  mkRGBA pix (Stride p) (Bounds p).

(** [image.NewRGBA(r)]; it panics when [4 * Dx * Dy] is negative or
    does not fit an [int]. *)
Definition NewRGBA (r : Rectangle) : option RGBA :=
  if (Dx r <? 0) || (Dy r <? 0) || (Go.maxInt <? 4 * Dx r * Dy r) then None
  else Some (mkRGBA (repeat 0 (Z.to_nat (4 * Dx r * Dy r))) (4 * Dx r) r).

Definition PixOffset (p : RGBA) (x y : Z) : Z :=
  (y - MinY (Bounds p)) * Stride p + (x - MinX (Bounds p)) * 4.

(** [p.At(x, y)]: the zero colour outside the bounds, else the four
    bytes [Pix[i:i+4:i+4]]. *)
Definition At (p : RGBA) (x y : Z) : option color.RGBA :=
  if PointIn x y (Bounds p) then
    let i := PixOffset p x y in
    match Go.range (Pix p) i (i + 4) with
    | Some [r; g; b; a] => Some (color.mkRGBA r g b a)
    | _ => None
    end
  else Some (color.mkRGBA 0 0 0 0).

(** [p.Set(x, y, c)] for a [color.RGBA]: nothing outside the bounds. *)
Definition Set' (p : RGBA) (x y : Z) (c : color.RGBA) : option RGBA :=
  if PointIn x y (Bounds p) then
    let i := PixOffset p x y in
    match Go.range (Pix p) i (i + 4) with
    | Some _ =>
        Some (with_Pix p (firstn (Z.to_nat i) (Pix p)
                            ++ [color.R c; color.G c; color.B c; color.A c]
                            ++ skipn (Z.to_nat (i + 4)) (Pix p)))
    | None => None
    end
  else Some p.

End image.

(* ================================================================== *)
(** ** The provider's data and status codes *)

Module d3d.

(** Modelled from the spec: the provider's status codes (package d3d is
    not under src/).  A status is a 32-bit HRESULT; it has failed when
    its sign bit is set.  [DXGI_ERROR_WAIT_TIMEOUT] is the provider
    timeout and [DXGI_ERROR_MORE_DATA] the buffer-too-small retry
    signal of the spec, with the values of the platform headers. *)
Definition HRESULT (hr : Z) : Z := Go.uint32 hr.
Definition Failed (hr : Z) : bool := Go.int32 hr <? 0.
Definition DXGI_ERROR_WAIT_TIMEOUT : Z := 0x887A0027.
Definition DXGI_ERROR_MORE_DATA : Z := 0x887A0003.

End d3d.

Module dxgi.

(** Modelled from the spec: the provider's records (package dxgi is not
    under src/), with the fields that Snapshot, GetImage and
    updatePointer read.  Fields are 32-bit as the conversions of the
    source show: coordinates and the mapped pitch are signed, sizes and
    counts unsigned.  [PBits] stands for the bytes found at the mapped
    address. *)
Record POINT := mkPOINT { X : Z; Y : Z }.
Record RECT := mkRECT { Left : Z; Top : Z; Right : Z; Bottom : Z }.
Record DXGI_OUTDUPL_MOVE_RECT :=
  mkMOVE_RECT { SourcePoint : POINT; DestinationRect : RECT }.
Record DXGI_MAPPED_RECT := mkMAPPED_RECT { Pitch : Z; PBits : list Go.byte }.
Record DXGI_OUTDUPL_DESC :=
  mkDESC { ModeDesc_Width : Z; ModeDesc_Height : Z;
           DesktopImageInSystemMemory : Z }.
Record DXGI_OUTDUPL_FRAME_INFO :=
  mkFRAME_INFO { LastMouseUpdateTime : Z;
                 AccumulatedFrames : Z;
                 PointerPosition_Position : POINT;
                 PointerPosition_Visible : Z;
                 TotalMetadataBufferSize : Z;
                 PointerShapeBufferSize : Z }.
Record DXGI_OUTDUPL_POINTER_SHAPE_INFO :=
  mkSHAPE_INFO { Type_ : Z; Width : Z; Height : Z; ShapePitch : Z }.

(** Modelled from the spec: the three pointer shape encodings of the
    provider (constants of package dxgi, not under src/), with the
    values of the platform headers. *)
Definition DXGI_OUTDUPL_POINTER_SHAPE_TYPE_MONOCHROME : Z := 1.
Definition DXGI_OUTDUPL_POINTER_SHAPE_TYPE_COLOR : Z := 2.
Definition DXGI_OUTDUPL_POINTER_SHAPE_TYPE_MASKED_COLOR : Z := 4.

Definition zeroPOINT := mkPOINT 0 0.
Definition zeroRECT := mkRECT 0 0 0 0.
Definition zeroMOVE_RECT := mkMOVE_RECT zeroPOINT zeroRECT.

End dxgi.

Module d3d11.

Record D3D11_BOX :=
  mkBOX { Left : Z; Top : Z; Front : Z; Right : Z; Bottom : Z; Back : Z }.

End d3d11.

(** A COM interface pointer: [None] is nil. *)
Definition handle := nat.

(* ================================================================== *)
(** ** The duplicator *)

Module PointerInfo.

Record t := mk {
  pos : dxgi.POINT;
  size : dxgi.POINT;
  shapeInBuffer : Go.slice Go.byte;
  shapeOutBuffer : option image.RGBA;
  visible : bool
}.

Definition zero : t := mk dxgi.zeroPOINT dxgi.zeroPOINT Go.nil_slice None false.

End PointerInfo.

Record OutputDuplicator := mkDup {
  device : option handle;
  deviceCtx : option handle;
  outputDuplication : option handle;
  dxgiOutput : option handle;
  stagedTex : option handle;
  surface : option handle;
  mappedRect : dxgi.DXGI_MAPPED_RECT;
  size : dxgi.POINT;
  pointerInfo : PointerInfo.t;
  DrawPointer : bool;
  UpdatePointerInfo : bool;
  dirtyRects : Go.slice dxgi.RECT;
  movedRects : Go.slice dxgi.DXGI_OUTDUPL_MOVE_RECT;
  acquiredFrame : bool;
  needsSwizzle : bool
}.

(** Field assignments. *)
Definition set_outputDuplication v d :=
  mkDup (device d) (deviceCtx d) v (dxgiOutput d) (stagedTex d) (surface d)
    (mappedRect d) (size d) (pointerInfo d) (DrawPointer d) (UpdatePointerInfo d)
    (dirtyRects d) (movedRects d) (acquiredFrame d) (needsSwizzle d).
Definition set_dxgiOutput v d :=
  mkDup (device d) (deviceCtx d) (outputDuplication d) v (stagedTex d) (surface d)
    (mappedRect d) (size d) (pointerInfo d) (DrawPointer d) (UpdatePointerInfo d)
    (dirtyRects d) (movedRects d) (acquiredFrame d) (needsSwizzle d).
Definition set_stagedTex v d :=
  mkDup (device d) (deviceCtx d) (outputDuplication d) (dxgiOutput d) v (surface d)
    (mappedRect d) (size d) (pointerInfo d) (DrawPointer d) (UpdatePointerInfo d)
    (dirtyRects d) (movedRects d) (acquiredFrame d) (needsSwizzle d).
Definition set_surface v d :=
  mkDup (device d) (deviceCtx d) (outputDuplication d) (dxgiOutput d) (stagedTex d) v
    (mappedRect d) (size d) (pointerInfo d) (DrawPointer d) (UpdatePointerInfo d)
    (dirtyRects d) (movedRects d) (acquiredFrame d) (needsSwizzle d).
Definition set_mappedRect v d :=
  mkDup (device d) (deviceCtx d) (outputDuplication d) (dxgiOutput d) (stagedTex d)
    (surface d) v (size d) (pointerInfo d) (DrawPointer d) (UpdatePointerInfo d)
    (dirtyRects d) (movedRects d) (acquiredFrame d) (needsSwizzle d).
Definition set_size v d :=
  mkDup (device d) (deviceCtx d) (outputDuplication d) (dxgiOutput d) (stagedTex d)
    (surface d) (mappedRect d) v (pointerInfo d) (DrawPointer d) (UpdatePointerInfo d)
    (dirtyRects d) (movedRects d) (acquiredFrame d) (needsSwizzle d).
Definition set_pointerInfo v d :=
  mkDup (device d) (deviceCtx d) (outputDuplication d) (dxgiOutput d) (stagedTex d)
    (surface d) (mappedRect d) (size d) v (DrawPointer d) (UpdatePointerInfo d)
    (dirtyRects d) (movedRects d) (acquiredFrame d) (needsSwizzle d).
Definition set_dirtyRects v d :=
  mkDup (device d) (deviceCtx d) (outputDuplication d) (dxgiOutput d) (stagedTex d)
    (surface d) (mappedRect d) (size d) (pointerInfo d) (DrawPointer d)
    (UpdatePointerInfo d) v (movedRects d) (acquiredFrame d) (needsSwizzle d).
Definition set_movedRects v d :=
  mkDup (device d) (deviceCtx d) (outputDuplication d) (dxgiOutput d) (stagedTex d)
    (surface d) (mappedRect d) (size d) (pointerInfo d) (DrawPointer d)
    (UpdatePointerInfo d) (dirtyRects d) v (acquiredFrame d) (needsSwizzle d).
Definition set_acquiredFrame v d :=
  mkDup (device d) (deviceCtx d) (outputDuplication d) (dxgiOutput d) (stagedTex d)
    (surface d) (mappedRect d) (size d) (pointerInfo d) (DrawPointer d)
    (UpdatePointerInfo d) (dirtyRects d) (movedRects d) v (needsSwizzle d).
Definition set_needsSwizzle v d :=
  mkDup (device d) (deviceCtx d) (outputDuplication d) (dxgiOutput d) (stagedTex d)
    (surface d) (mappedRect d) (size d) (pointerInfo d) (DrawPointer d)
    (UpdatePointerInfo d) (dirtyRects d) (movedRects d) (acquiredFrame d) v.

Definition set_pos v (p : PointerInfo.t) :=
  PointerInfo.mk v (PointerInfo.size p) (PointerInfo.shapeInBuffer p)
    (PointerInfo.shapeOutBuffer p) (PointerInfo.visible p).
Definition set_ptrsize v (p : PointerInfo.t) :=
  PointerInfo.mk (PointerInfo.pos p) v (PointerInfo.shapeInBuffer p)
    (PointerInfo.shapeOutBuffer p) (PointerInfo.visible p).
Definition set_shapeInBuffer v (p : PointerInfo.t) :=
  PointerInfo.mk (PointerInfo.pos p) (PointerInfo.size p) v
    (PointerInfo.shapeOutBuffer p) (PointerInfo.visible p).
Definition set_shapeOutBuffer v (p : PointerInfo.t) :=
  PointerInfo.mk (PointerInfo.pos p) (PointerInfo.size p)
    (PointerInfo.shapeInBuffer p) v (PointerInfo.visible p).
Definition set_visible v (p : PointerInfo.t) :=
  PointerInfo.mk (PointerInfo.pos p) (PointerInfo.size p)
    (PointerInfo.shapeInBuffer p) (PointerInfo.shapeOutBuffer p) v.

(* ================================================================== *)
(** ** Calls to the provider, and its answers *)

(** What leaves the duplicator: the calls made to the provider, the
    buffers allocated, the line printed.  A trace lists them in order. *)
Inductive event :=
| EvGetDesc
| EvMapDesktopSurface
| EvUnMapDesktopSurface
| EvReleaseFrame
| EvAcquireNextFrame (timeoutMs : Z) (hr : Z)
| EvGetFramePointerShape (bufferSize : Z)
| EvGetFrameMoveRects (bufferLen : Z)
| EvGetFrameDirtyRects (bufferLen : Z)
| EvDesktopRelease
| EvDesktopQueryInterface
| EvDesktop2dRelease
| EvTextureGetDesc
| EvCreateTexture2D
| EvStagedTexQueryInterface
| EvCopySubresourceRegion2D (dstX dstY : Z) (box : d3d11.D3D11_BOX)
| EvCopyResource2D
| EvSurfaceMap
| EvSurfaceUnmap
| EvPrint
| EvStagedTexRelease
| EvSurfaceRelease
| EvOutputDuplicationRelease
| EvDxgiOutputRelease
| EvMakeMovedRects (n : Z)
| EvMakeDirtyRects (n : Z)
| EvMakeShapeInBuffer (n : Z)
| EvNewShapeOutBuffer (w h : Z).

(** The answers of the provider during one call of Snapshot: the status
    of each call and what it stored through its out-parameters.  The two
    rect queries sit in a loop, so they have one answer per round. *)
Record Provider := mkProvider {
  r_GetDesc : Z * dxgi.DXGI_OUTDUPL_DESC;
  r_MapDesktopSurface : Z * option dxgi.DXGI_MAPPED_RECT;
  r_AcquireNextFrame : Z * dxgi.DXGI_OUTDUPL_FRAME_INFO;
  r_GetFramePointerShape :
    Z * list Go.byte * dxgi.DXGI_OUTDUPL_POINTER_SHAPE_INFO;
  r_DesktopQueryInterface : Z;
  r_TextureGetDesc : Z * (Z * Z);
  r_CreateTexture2D : Z * option handle;
  r_StagedTexQueryInterface : Z * option handle;
  r_GetFrameMoveRects : list (Z * Z * list dxgi.DXGI_OUTDUPL_MOVE_RECT);
  r_GetFrameDirtyRects : list (Z * Z * list dxgi.RECT);
  r_SurfaceMap : Z * option dxgi.DXGI_MAPPED_RECT
}.

(** The errors Snapshot and updatePointer return. *)
Inductive error :=
| ErrNoImageYet
| ErrGetDesc (hr : Z)
| ErrAcquireNextFrame (hr : Z)
| ErrFramePointerShape
| ErrUnsupportedType (t : Z)
| ErrQueryInterface (hr : Z)
| ErrInitializeStage (hr : Z)
| ErrGetFrameMoveRects (hr : Z)
| ErrGetFrameDirtyRects (hr : Z)
| ErrSurfaceMap (hr : Z).

(** A method of the duplicator: it reads and assigns the fields, makes
    calls, and either panics ([None]), returns an error, or returns. *)
Inductive result (A : Type) :=
| Ok (a : A)
| Fail (e : error).
Arguments Ok {A} _.
Arguments Fail {A} _.

Definition M (A : Type) : Type :=
  OutputDuplicator -> option (result A * OutputDuplicator * list event).

Definition ret {A} (a : A) : M A := fun d => Some (Ok a, d, []).
Definition fail {A} (e : error) : M A := fun d => Some (Fail e, d, []).
Definition panic {A} : M A := fun _ => None.

Definition bind {A B} (m : M A) (f : A -> M B) : M B :=
  fun d =>
    match m d with
    | None => None
    | Some (Fail e, d1, t1) => Some (Fail e, d1, t1)
    | Some (Ok a, d1, t1) =>
        match f a d1 with
        | None => None
        | Some (r, d2, t2) => Some (r, d2, t1 ++ t2)
        end
    end.

Notation "x <- m ;; k" := (bind m (fun x => k))
  (at level 61, m at next level, right associativity).
Notation "m ;; k" := (bind m (fun _ => k))
  (at level 61, right associativity).

Definition get {A} (f : OutputDuplicator -> A) : M A := fun d => Some (Ok (f d), d, []).
Definition modify (f : OutputDuplicator -> OutputDuplicator) : M unit :=
  fun d => Some (Ok tt, f d, []).
Definition emit (e : event) : M unit := fun d => Some (Ok tt, d, [e]).

(** A method call through an interface pointer panics on nil. *)
Definition deref (f : OutputDuplicator -> option handle) : M handle :=
  fun d => match f d with Some h => Some (Ok h, d, []) | None => None end.

Definition lift {A} (o : option A) : M A :=
  fun d => match o with Some a => Some (Ok a, d, []) | None => None end.

(** [defer cleanup] followed by [body]: the cleanup runs when the body
    returns, with a value or with an error. *)
Definition defer {A} (cleanup : M unit) (body : M A) : M A :=
  fun d =>
    match body d with
    | None => None
    | Some (r, d1, t1) =>
        match cleanup d1 with
        | Some (_, d2, t2) => Some (r, d2, t1 ++ t2)
        | None => None
        end
    end.

(* ================================================================== *)
(** ** Release, ReleaseFrame, initializeStage *)

(** [func (dup *OutputDuplicator) ReleaseFrame()] *)
Definition ReleaseFrame : M unit :=
  acquired <- get acquiredFrame ;;
  if acquired then
    _ <- deref outputDuplication ;;
    emit EvReleaseFrame ;;
    modify (set_acquiredFrame false)
  else ret tt.

(** [if ptr != nil { ptr.Release(); ptr = nil }] *)
Definition release_field (f : OutputDuplicator -> option handle)
  (e : event) (clear : OutputDuplicator -> OutputDuplicator) : M unit :=
  p <- get f ;;
  match p with
  | Some _ => emit e ;; modify clear
  | None => ret tt
  end.

(** [func (dup *OutputDuplicator) Release()] *)
Definition Release : M unit :=
  ReleaseFrame ;;
  release_field stagedTex EvStagedTexRelease (set_stagedTex None) ;;
  release_field surface EvSurfaceRelease (set_surface None) ;;
  release_field outputDuplication EvOutputDuplicationRelease
    (set_outputDuplication None) ;;
  release_field dxgiOutput EvDxgiOutputRelease (set_dxgiOutput None).

(** [func (dup *OutputDuplicator) initializeStage(texture) int32]; the
    result is the status it returns. *)
Definition initializeStage (o : Provider) : M Z :=
  emit EvTextureGetDesc ;;
  let '(hr, (w, h)) := r_TextureGetDesc o in
  if d3d.Failed (d3d.HRESULT hr) then ret hr else
  _ <- deref device ;;
  emit EvCreateTexture2D ;;
  let '(hr, tex) := r_CreateTexture2D o in
  modify (set_stagedTex tex) ;;
  if d3d.Failed (d3d.HRESULT hr) then ret hr else
  _ <- deref stagedTex ;;
  emit EvStagedTexQueryInterface ;;
  let '(hr, srf) := r_StagedTexQueryInterface o in
  modify (set_surface srf) ;;
  if d3d.Failed (d3d.HRESULT hr) then ret hr else
  modify (set_size (dxgi.mkPOINT (Go.int32 w) (Go.int32 h))) ;;
  ret 0.

(* ================================================================== *)
(** ** updatePointer: the three shape decoders *)

(** [l[i] = v] *)
Definition store {A} (l : list A) (i : Z) (v : A) : option (list A) :=
  match Go.index l i with
  | None => None
  | Some _ => Some (firstn (Z.to_nat i) l ++ v :: skipn (Z.to_nat i + 1) l)
  end.

(** The 32-bit store through [unsafe.Pointer(&out[i])]: the index is
    checked, then the four bytes of the value are stored, lowest first; a
    store that would leave the buffer is a fault. *)
Definition bytes32 (v : Z) : list Go.byte :=
  [Z.land v 255; Z.land (Z.shiftr v 8) 255;
   Z.land (Z.shiftr v 16) 255; Z.land (Z.shiftr v 24) 255].

Definition store32 (out : list Go.byte) (i : Z) (v : Z) : option (list Go.byte) :=
  match Go.index out i with
  | None => None
  | Some _ =>
      if i + 4 <=? Go.len out then
        Some (firstn (Z.to_nat i) out ++ bytes32 v ++ skipn (Z.to_nat i + 4) out)
      else None
  end.

(** The [switch] on the two mask bits. *)
Definition monoPixel (andBit xorBit : bool) : Z :=
  match andBit, xorBit with
  | false, false => 0x00000000
  | false, true => 0xFFFFFFFF
  | true, false => 0x00000000
  | true, true => 0xFF000000
  end.

(** [bitMask := byte(0x80 >> (i % 8))] *)
Definition bitMask (i : Z) : Z := Go.uint8 (Z.shiftr 0x80 (Z.rem i 8)).

(** The body of the two loops of the monochrome case. *)
Definition monoBody (andMap xorMap : list Go.byte) (width widthBytes : Z)
  (j i : Z) (out : list Go.byte) : option (list Go.byte) :=
  let byteIndex := j * widthBytes + Z.quot i 8 in
  match Go.index andMap byteIndex, Go.index xorMap byteIndex with
  | Some a, Some x =>
      let andBit := negb (Z.land a (bitMask i) =? 0) in
      let xorBit := negb (Z.land x (bitMask i) =? 0) in
      let outIndex := (j * width + i) * 4 in
      store32 out outIndex (monoPixel andBit xorBit)
  | _, _ => None
  end.

(** [case DXGI_OUTDUPL_POINTER_SHAPE_TYPE_MONOCHROME], after the size is
    stored: [inb] is shapeInBuffer, [out] is shapeOutBuffer.Pix. *)
Definition decodeMonochrome (inb out : list Go.byte)
  (info : dxgi.DXGI_OUTDUPL_POINTER_SHAPE_INFO) : option (list Go.byte) :=
  let width := dxgi.Width info in
  let height := Z.quot (dxgi.Height info) 2 in
  let xor_offset := Go.uint32 (dxgi.ShapePitch info * Go.uint32 height) in
  match Go.from inb xor_offset with
  | None => None
  | Some xorMap =>
      let widthBytes := Z.quot (width + 7) 8 in
      Go.for_lt height
        (fun j => Go.for_lt width (monoBody inb xorMap width widthBytes j)) out
  end.

(** [for i := 0; i < len(out); i += 4 { out[i], out[i+2] = out[i+2], out[i] }] *)
Definition swapBR (out : list Go.byte) : option (list Go.byte) :=
  Go.for_lt (Z.quot (Go.len out + 3) 4)
    (fun k out =>
       let i := 4 * k in
       match Go.index out (i + 2), Go.index out i with
       | Some c, Some a =>
           match store out i c with
           | Some out1 => store out1 (i + 2) a
           | None => None
           end
       | _, _ => None
       end) out.

(** The row copy and channel swap, the same text in the colour and in the
    masked-colour case; [inb] is the backing array of shapeInBuffer, up
    to which a slice expression may reach. *)
Definition decodeColor (inb out : list Go.byte)
  (info : dxgi.DXGI_OUTDUPL_POINTER_SHAPE_INFO) : option (list Go.byte) :=
  let width := dxgi.Width info in
  let pitch := dxgi.ShapePitch info in
  match
    Go.for_lt (dxgi.Height info)
      (fun j out =>
         match Go.range out (j * width * 4) ((j + 1) * width * 4),
               Go.range inb (j * pitch) (j * pitch + width * 4) with
         | Some tout, Some tin =>
             Some (firstn (Z.to_nat (j * width * 4)) out
                     ++ Go.copy tout tin
                     ++ skipn (Z.to_nat ((j + 1) * width * 4)) out)
         | _, _ => None
         end) out
  with
  | Some out1 => swapBR out1
  | None => None
  end.

Definition modify_pointer (f : PointerInfo.t -> PointerInfo.t) : M unit :=
  modify (fun d => set_pointerInfo (f (pointerInfo d)) d).

(** [shapeOutBuffer.Pix = pix]; the buffer was created just before. *)
Definition set_outPix (pix : list Go.byte) : M unit :=
  modify_pointer (fun p =>
    set_shapeOutBuffer
      (match PointerInfo.shapeOutBuffer p with
       | Some img => Some (image.with_Pix img pix)
       | None => None
       end) p).

(** Lines 308 to 393: the [switch] on the type of the shape, with the
    raw bytes in shapeInBuffer and a fresh shapeOutBuffer. *)
Definition decodeShape (shape : dxgi.DXGI_OUTDUPL_POINTER_SHAPE_INFO) : M unit :=
  inb <- get (fun d => PointerInfo.shapeInBuffer (pointerInfo d)) ;;
  out <- get (fun d => match PointerInfo.shapeOutBuffer (pointerInfo d) with
                       | Some im => image.Pix im
                       | None => []
                       end) ;;
  if dxgi.Type_ shape =? dxgi.DXGI_OUTDUPL_POINTER_SHAPE_TYPE_MONOCHROME then
    modify_pointer (set_ptrsize
      (dxgi.mkPOINT (Go.int32 (dxgi.Width shape))
                    (Go.int32 (Z.quot (dxgi.Height shape) 2)))) ;;
    pix <- lift (decodeMonochrome (Go.elems inb) out shape) ;;
    set_outPix pix
  else if dxgi.Type_ shape =? dxgi.DXGI_OUTDUPL_POINTER_SHAPE_TYPE_COLOR then
    modify_pointer (set_ptrsize
      (dxgi.mkPOINT (Go.int32 (dxgi.Width shape)) (Go.int32 (dxgi.Height shape)))) ;;
    pix <- lift (decodeColor (Go.sarr inb) out shape) ;;
    set_outPix pix
  else if dxgi.Type_ shape =? dxgi.DXGI_OUTDUPL_POINTER_SHAPE_TYPE_MASKED_COLOR then
    modify_pointer (set_ptrsize
      (dxgi.mkPOINT (Go.int32 (dxgi.Width shape)) (Go.int32 (dxgi.Height shape)))) ;;
    pix <- lift (decodeColor (Go.sarr inb) out shape) ;;
    set_outPix pix
  else
    modify_pointer (set_ptrsize (dxgi.mkPOINT 0 0)) ;;
    fail (ErrUnsupportedType (dxgi.Type_ shape)).

(** [func (dup *OutputDuplicator) updatePointer(info) error] *)
Definition updatePointer (o : Provider) (info : dxgi.DXGI_OUTDUPL_FRAME_INFO)
  : M unit :=
  if dxgi.LastMouseUpdateTime info =? 0 then ret tt else
  modify_pointer (set_visible (negb (dxgi.PointerPosition_Visible info =? 0))) ;;
  modify_pointer (set_pos (dxgi.PointerPosition_Position info)) ;;
  if dxgi.PointerShapeBufferSize info =? 0 then ret tt else
  let bufferSize := dxgi.PointerShapeBufferSize info in
  inb0 <- get (fun d => PointerInfo.shapeInBuffer (pointerInfo d)) ;;
  (if Go.slice_len inb0 <? bufferSize then
     emit (EvMakeShapeInBuffer bufferSize) ;;
     modify_pointer (set_shapeInBuffer (Go.make 0 bufferSize))
   else ret tt) ;;
  _ <- deref outputDuplication ;;
  emit (EvGetFramePointerShape bufferSize) ;;
  let '(hr, written, shape) := r_GetFramePointerShape o in
  modify_pointer (fun p =>
    set_shapeInBuffer (Go.stored (PointerInfo.shapeInBuffer p) written) p) ;;
  if negb (hr =? 0) then fail ErrFramePointerShape else
  let neededSize := dxgi.Width shape * Z.quot (dxgi.Height shape) 2 * 4 in
  img <- lift (image.NewRGBA (image.Rect 0 0 (dxgi.Width shape) (dxgi.Height shape))) ;;
  emit (EvNewShapeOutBuffer (dxgi.Width shape) (dxgi.Height shape)) ;;
  modify_pointer (set_shapeOutBuffer
    (Some (if Go.len (image.Pix img) <? neededSize
           then image.with_Pix img (repeat 0 (Z.to_nat neededSize))
           else img))) ;;
  decodeShape shape.

(* ================================================================== *)
(** ** Snapshot *)

(** What a successful Snapshot hands back: which unmap function, and the
    mapped rect and size the returned pointers lead to. *)
Inductive unmapFn := UnMapDesktopSurface | SurfaceUnmap.

Record Snapshot_ok := mkSnap {
  unmap : unmapFn;
  mapped : dxgi.DXGI_MAPPED_RECT;
  snap_size : dxgi.POINT
}.

(** One of the two [for { ... }] loops that fetch rects, with [buf] the
    reusable buffer and [required] the count asked for; [answers] holds
    what the provider says round by round: status, count required, rects
    stored.  The result is the buffer as left behind and the failing
    status, if any.  A provider that stops answering leaves no result. *)
Fixpoint fetchRects {A} (zero : A) (evMake evCall : Z -> event)
  (answers : list (Z * Z * list A)) (buf : Go.slice A) (required : Z)
  : option (Go.slice A * option Z * list event) :=
  match answers with
  | [] => None
  | (hr, req, written) :: rest =>
      let grown := Go.slice_len buf <? required in
      let buf1 := if grown then Go.make zero required else buf in
      let t1 := (if grown then [evMake required] else [])
                  ++ [evCall (Go.slice_len buf1)] in
      let buf2 := Go.stored buf1 written in
      let required' := Go.uint32 req in
      if d3d.Failed (d3d.HRESULT hr) then
        if d3d.HRESULT hr =? d3d.DXGI_ERROR_MORE_DATA then
          match fetchRects zero evMake evCall rest buf2 required' with
          | Some (b, st, t2) => Some (b, st, t1 ++ t2)
          | None => None
          end
        else Some (buf2, Some hr, t1)
      else
        match Go.upto buf2 required' with
        | Some b => Some (b, None, t1)
        | None => None
        end
  end.

Definition fetchMoveRects (o : Provider) : M unit :=
  _ <- deref outputDuplication ;;
  buf <- get movedRects ;;
  fun d =>
    match fetchRects dxgi.zeroMOVE_RECT EvMakeMovedRects EvGetFrameMoveRects
            (r_GetFrameMoveRects o) buf 1 with
    | None => None
    | Some (b, None, t) => Some (Ok tt, set_movedRects b d, t)
    | Some (b, Some hr, t) => Some (Fail (ErrGetFrameMoveRects hr), set_movedRects b d, t)
    end.

Definition fetchDirtyRects (o : Provider) : M unit :=
  _ <- deref outputDuplication ;;
  buf <- get dirtyRects ;;
  fun d =>
    match fetchRects dxgi.zeroRECT EvMakeDirtyRects EvGetFrameDirtyRects
            (r_GetFrameDirtyRects o) buf 1 with
    | None => None
    | Some (b, None, t) => Some (Ok tt, set_dirtyRects b d, t)
    | Some (b, Some hr, t) => Some (Fail (ErrGetFrameDirtyRects hr), set_dirtyRects b d, t)
    end.

(** The box copy of one dirty rect. *)
Definition boxCopy (r : dxgi.RECT) : event :=
  let box := d3d11.mkBOX (Go.uint32 (dxgi.Left r)) (Go.uint32 (dxgi.Top r)) 0
                         (Go.uint32 (dxgi.Right r)) (Go.uint32 (dxgi.Bottom r)) 1 in
  EvCopySubresourceRegion2D (d3d11.Left box) (d3d11.Top box) box.

Fixpoint emit_all (l : list event) : M unit :=
  match l with
  | [] => ret tt
  | e :: l' => _ <- deref deviceCtx ;; emit e ;; emit_all l'
  end.

(** Lines 172 to 232: how the acquired frame reaches the staging
    texture. *)
Definition copyFrame (o : Provider) (frameInfo : dxgi.DXGI_OUTDUPL_FRAME_INFO)
  : M unit :=
  if 0 <? dxgi.TotalMetadataBufferSize frameInfo then
    fetchMoveRects o ;;
    fetchDirtyRects o ;;
    moved <- get movedRects ;;
    if Go.slice_len moved =? 0 then
      dirty <- get dirtyRects ;;
      emit_all (map boxCopy (Go.elems dirty))
    else
      emit_all [EvCopyResource2D]
  else
    emit_all [EvCopyResource2D] ;;
    swz <- get needsSwizzle ;;
    (if negb swz then modify (set_needsSwizzle true) else ret tt) ;;
    emit EvPrint.

(** Lines 149 to 238: what Snapshot does with the frame it holds, run
    under the two deferred releases. *)
Definition withFrame (o : Provider) (frameInfo : dxgi.DXGI_OUTDUPL_FRAME_INFO)
  : M Snapshot_ok :=
  upd <- get UpdatePointerInfo ;;
  (if upd then updatePointer o frameInfo else ret tt) ;;
  if dxgi.AccumulatedFrames frameInfo =? 0 then fail ErrNoImageYet else
  emit EvDesktopQueryInterface ;;
  let hr := r_DesktopQueryInterface o in
  if d3d.Failed (d3d.HRESULT hr) then fail (ErrQueryInterface hr) else
  defer (emit EvDesktop2dRelease)
    (staged <- get stagedTex ;;
     match staged with
     | None =>
         hr <- initializeStage o ;;
         if d3d.Failed (d3d.HRESULT hr) then fail (ErrInitializeStage hr) else ret tt
     | Some _ => ret tt
     end ;;
     copyFrame o frameInfo ;;
     _ <- deref surface ;;
     emit EvSurfaceMap ;;
     let '(hr, m) := r_SurfaceMap o in
     match m with
     | Some r => modify (set_mappedRect r)
     | None => ret tt
     end ;;
     if d3d.Failed (d3d.HRESULT hr) then fail (ErrSurfaceMap hr) else
     d <- get (fun d => d) ;;
     ret (mkSnap SurfaceUnmap (mappedRect d) (size d))).

(** Lines 124 to 131: the attempt to map the desktop surface when the
    desktop image is in system memory; the result tells whether Snapshot
    returns with it. *)
Definition mapDesktop (o : Provider) (desc : dxgi.DXGI_OUTDUPL_DESC) : M bool :=
  if negb (dxgi.DesktopImageInSystemMemory desc =? 0) then
    modify (set_size (dxgi.mkPOINT (Go.int32 (dxgi.ModeDesc_Width desc))
                                   (Go.int32 (dxgi.ModeDesc_Height desc)))) ;;
    emit EvMapDesktopSurface ;;
    let '(hr, m) := r_MapDesktopSurface o in
    match m with
    | Some r => modify (set_mappedRect r)
    | None => ret tt
    end ;;
    ret (negb (d3d.Failed (d3d.HRESULT hr)))
  else ret false.

(** Lines 133 to 238: release, acquire, and the work on the frame under
    the deferred releases. *)
Definition acquireFrame (o : Provider) (timeoutMs : Z) : M Snapshot_ok :=
  ReleaseFrame ;;
  _ <- deref outputDuplication ;;
  let '(hrF, frameInfo) := r_AcquireNextFrame o in
  emit (EvAcquireNextFrame (Go.uint32 timeoutMs) hrF) ;;
  modify (set_acquiredFrame true) ;;
  if d3d.Failed (d3d.HRESULT hrF) then
    if d3d.HRESULT hrF =? d3d.DXGI_ERROR_WAIT_TIMEOUT then fail ErrNoImageYet
    else fail (ErrAcquireNextFrame hrF)
  else
  defer ReleaseFrame
    (defer (emit EvDesktopRelease)
       (withFrame o frameInfo)).

(** [func (dup *OutputDuplicator) Snapshot(timeoutMs uint)
      (unmapFn, *dxgi.DXGI_MAPPED_RECT, *dxgi.POINT, error)] *)
Definition Snapshot (o : Provider) (timeoutMs : Z) : M Snapshot_ok :=
  _ <- deref outputDuplication ;;
  emit EvGetDesc ;;
  let '(hr, desc) := r_GetDesc o in
  if d3d.Failed (d3d.HRESULT hr) then fail (ErrGetDesc hr) else
  fast <- mapDesktop o desc ;;
  if fast then
    d <- get (fun d => d) ;;
    ret (mkSnap UnMapDesktopSurface (mappedRect d) (size d))
  else acquireFrame o timeoutMs.

(* ================================================================== *)
(** ** GetImage: row extraction and channel order *)

Module swizzle.

(** Modelled from the spec: the exchange that swizzle.BGRA performs
    (package swizzle is not under src/): byte 0 and byte 2 of every
    4-byte pixel change places, across the whole buffer. *)
Fixpoint swap02 (p : list Go.byte) : list Go.byte :=
  match p with
  | b0 :: b1 :: b2 :: b3 :: rest => b2 :: b1 :: b0 :: b3 :: swap02 rest
  | _ => p
  end.

(** Modelled from the spec: swizzle.BGRA, which takes a buffer of whole
    4-byte pixels and swaps byte 0 and byte 2 of every pixel in place; a
    buffer whose length is not a multiple of 4 holds no whole number of
    pixels, and the call panics on it. *)
Definition BGRA (p : list Go.byte) : option (list Go.byte) :=
  if Z.rem (Go.len p) 4 =? 0 then Some (swap02 p) else None.

End swizzle.

(** [unsafe.Slice] of a byte pointer and [n]: [n] bytes of the memory found at the
    pointer; a negative length panics and memory that is not there cannot
    be read. *)
Definition unsafe_Slice (mem : list Go.byte) (n : Z) : option (list Go.byte) :=
  if (n <? 0) || (Go.len mem <? n) then None else Some (firstn (Z.to_nat n) mem).

(** The state of the copy loop: img.Pix, imgStart, dataStart. *)
Definition rowStep (data : list Go.byte) (contentWidth dataWidth : Z)
  (_ : Z) (s : list Go.byte * Z * Z) : option (list Go.byte * Z * Z) :=
  let '(pix, imgStart, dataStart) := s in
  let dataEnd := dataStart + contentWidth in
  match Go.range data dataStart dataEnd with
  | None => None
  | Some row =>
      match Go.copy_at pix imgStart row with
      | None => None
      | Some pix' => Some (pix', imgStart + contentWidth, dataStart + dataWidth)
      end
  end.

(** Lines 252 to 266 of GetImage: the mapped rows go to img.Pix. *)
Definition extractRows (pix : list Go.byte) (mappedRect : dxgi.DXGI_MAPPED_RECT)
  (size : dxgi.POINT) : option (list Go.byte) :=
  let dataSize := dxgi.Pitch mappedRect * dxgi.Y size in
  match unsafe_Slice (dxgi.PBits mappedRect) dataSize with
  | None => None
  | Some data =>
      let contentWidth := dxgi.X size * 4 in
      let dataWidth := dxgi.Pitch mappedRect in
      match Go.for_lt (dxgi.Y size) (rowStep data contentWidth dataWidth) (pix, 0, 0) with
      | Some (pix', _, _) => Some pix'
      | None => None
      end
  end.

(** Lines 252 to 270: the row copy, then the swap when needsSwizzle is
    set. *)
Definition transferPixels (dup : OutputDuplicator) (pix : list Go.byte)
  (mappedRect : dxgi.DXGI_MAPPED_RECT) (size : dxgi.POINT) : option (list Go.byte) :=
  match extractRows pix mappedRect size with
  | None => None
  | Some pix1 => if needsSwizzle dup then swizzle.BGRA pix1 else Some pix1
  end.

(* ================================================================== *)
(** ** The cursor compositor *)

Module float64.

Definition prec : Z := 53.
Definition emax : Z := 1024.

(** [float64(n)] of an integer and the float64 nearest to a decimal
    constant [n / d]. *)
Definition of_Z (n : Z) : spec_float := binary_normalize prec emax n 0 false.
Definition const (n d : Z) : spec_float := SFdiv prec emax (of_Z n) (of_Z d).

Definition mul := SFmul prec emax.
Definition add := SFadd prec emax.

(** [uint64(f)]: the fraction is dropped.  The sums below are finite
    and not negative; other values are left at 0. *)
Definition to_uint64 (f : spec_float) : Z :=
  match f with
  | S754_finite false m e => Z.shiftl (Zpos m) e mod 2 ^ 64
  | _ => 0
  end.

End float64.

(** [uint64(0.299*float64(r>>8) + 0.587*float64(g>>8) + 0.114*float64(b>>8))]
    on the 16-bit channels that [RGBA()] returns; every product and sum
    is rounded to float64 on its own. *)
Definition brightness (r g b : Z) : Z :=
  float64.to_uint64
    (float64.add
       (float64.add
          (float64.mul (float64.const 299 1000) (float64.of_Z (Z.shiftr r 8)))
          (float64.mul (float64.const 587 1000) (float64.of_Z (Z.shiftr g 8))))
       (float64.mul (float64.const 114 1000) (float64.of_Z (Z.shiftr b 8)))).

Definition uint64 (x : Z) : Z := x mod 2 ^ 64.

(** The four clipped bounds of the sampled area: startX, startY, endX,
    endY. *)
Definition sampleArea (dup : OutputDuplicator) (img : image.RGBA) : Z * Z * Z * Z :=
  let p := pointerInfo dup in
  let sampleSize := 20 in
  let startX := dxgi.X (PointerInfo.pos p) - sampleSize in
  let startY := dxgi.Y (PointerInfo.pos p) - sampleSize in
  let endX := dxgi.X (PointerInfo.pos p) + dxgi.X (PointerInfo.size p) + sampleSize in
  let endY := dxgi.Y (PointerInfo.pos p) + dxgi.Y (PointerInfo.size p) + sampleSize in
  let startX := if startX <? 0 then 0 else startX in
  let startY := if startY <? 0 then 0 else startY in
  let endX := if endX >=? image.MaxX (image.Bounds img)
              then image.MaxX (image.Bounds img) - 1 else endX in
  let endY := if endY >=? image.MaxY (image.Bounds img)
              then image.MaxY (image.Bounds img) - 1 else endY in
  (startX, startY, endX, endY).

(** The test that skips the cursor's own area. *)
Definition inCursor (dup : OutputDuplicator) (x y : Z) : bool :=
  let p := pointerInfo dup in
  (x >=? dxgi.X (PointerInfo.pos p))
  && (x <? dxgi.X (PointerInfo.pos p) + dxgi.X (PointerInfo.size p))
  && (y >=? dxgi.Y (PointerInfo.pos p))
  && (y <? dxgi.Y (PointerInfo.pos p) + dxgi.Y (PointerInfo.size p)).

(** The body of the two sampling loops on totalBrightness and
    pixelCount. *)
Definition sampleStep (dup : OutputDuplicator) (img : image.RGBA) (y x : Z)
  (acc : Z * Z) : option (Z * Z) :=
  if inCursor dup x y then Some acc
  else
    match image.At img x y with
    | None => None
    | Some c =>
        let '(r, g, b, _) := color.RGBA16 c in
        Some (uint64 (fst acc + brightness r g b), uint64 (snd acc + 1))
    end.

(** [func (dup *OutputDuplicator) analyzeBackgroundBrightness(img) bool] *)
Definition analyzeBackgroundBrightness (dup : OutputDuplicator) (img : image.RGBA)
  : option bool :=
  let '(startX, startY, endX, endY) := sampleArea dup img in
  match
    Go.loop (Z.to_nat (endY - startY + 1)) startY
      (fun y => Go.loop (Z.to_nat (endX - startX + 1)) startX (sampleStep dup img y))
      (0, 0)
  with
  | None => None
  | Some (totalBrightness, pixelCount) =>
      if pixelCount =? 0 then Some false
      else Some (Z.quot totalBrightness pixelCount >? 80)
  end.

Definition black : color.RGBA := color.mkRGBA 0 0 0 255.
Definition white : color.RGBA := color.mkRGBA 255 255 255 255.

(** The body of the two loops of drawPointer. *)
Definition drawStep (dup : OutputDuplicator) (isLightBackground : bool)
  (j i : Z) (img : image.RGBA) : option image.RGBA :=
  match PointerInfo.shapeOutBuffer (pointerInfo dup) with
  | None => None
  | Some shape =>
      match image.At shape i j with
      | None => None
      | Some col =>
          let '(r, g, b, a) := color.RGBA16 col in
          if a =? 0 then Some img
          else
            let col :=
              if (r =? 0) && (g =? 0) && (b =? 0) && (a =? 0xFFFF)
              then (if isLightBackground then black else white)
              else col in
            image.Set' img (dxgi.X (PointerInfo.pos (pointerInfo dup)) + i)
                           (dxgi.Y (PointerInfo.pos (pointerInfo dup)) + j) col
      end
  end.

(** [func (dup *OutputDuplicator) drawPointer(img *image.RGBA) error];
    the error is always nil, the result is the image as drawn on. *)
Definition drawPointer (dup : OutputDuplicator) (img : image.RGBA)
  : option image.RGBA :=
  match analyzeBackgroundBrightness dup img with
  | None => None
  | Some isLightBackground =>
      Go.for_lt (dxgi.Y (PointerInfo.size (pointerInfo dup)))
        (fun j => Go.for_lt (dxgi.X (PointerInfo.size (pointerInfo dup)))
                    (drawStep dup isLightBackground j)) img
  end.

(** [func (dup *OutputDuplicator) GetImage(img *image.RGBA, timeoutMs uint) error];
    the result is the image as left behind. *)
Definition GetImage (o : Provider) (img : image.RGBA) (timeoutMs : Z) : M image.RGBA :=
  s <- Snapshot o timeoutMs ;;
  defer (emit (match unmap s with
               | UnMapDesktopSurface => EvUnMapDesktopSurface
               | SurfaceUnmap => EvSurfaceUnmap
               end))
    (dup <- get (fun d => d) ;;
     pix <- lift (transferPixels dup (image.Pix img) (mapped s) (snap_size s)) ;;
     let img1 := image.with_Pix img pix in
     if DrawPointer dup then lift (drawPointer dup img1) else ret img1).

(* ================================================================== *)
(** ** DrawCursor and GetBounds *)

(** [func (dup *OutputDuplicator) DrawCursor(img *image.RGBA) error];
    as for drawPointer, the error is always nil and the result is the
    image as drawn on. *)
Definition DrawCursor (dup : OutputDuplicator) (img : image.RGBA)
  : option image.RGBA :=
  drawPointer dup img.

(** What GetBounds returns: the rectangle, or the error that wraps the
    failing status of dxgiOutput.GetDesc. *)
Inductive boundsResult :=
| Bounds (r : image.Rectangle)
| ErrOutputGetDesc (hr : Z).

(** [func (ddup *OutputDuplicator) GetBounds() (image.Rectangle, error)];
    [answer] is what dxgiOutput.GetDesc returns and the
    DesktopCoordinates of the description it stores, whose 32-bit fields
    [int(...)] leaves as they are.  The duplicator is only read, and the
    one call is not put on a trace. *)
Definition GetBounds (answer : Z * dxgi.RECT) (ddup : OutputDuplicator)
  : option boundsResult :=
  match dxgiOutput ddup with
  | None => None
  | Some _ =>
      let '(hr, c) := answer in
      if d3d.Failed (d3d.HRESULT hr) then Some (ErrOutputGetDesc hr)
      else Some (Bounds (image.Rect (dxgi.Left c) (dxgi.Top c)
                                    (dxgi.Right c) (dxgi.Bottom c)))
  end.

(* ================================================================== *)
(** ** newIDXGIOutputDuplicationFormat *)

(** The interfaces the constructor goes through. *)
Inductive iface :=
| ID3D11Device
| ID3D11Debug
| ID3D11InfoQueue
| IDXGIDevice1
| IDXGIAdapter1
| IDXGIOutput
| IDXGIOutput5
| IDXGIOutput1
| IDXGIOutputDuplication.

(** Its calls, each with the status returned, and the Release calls:
    [obj.QueryInterface(iid, ...)], [dxgiDevice1.GetParent],
    [dxgiAdapter.EnumOutputs(output, ...)],
    [dxgiOutput5.DuplicateOutput1] with the format asked for,
    [dxgiOutput1.DuplicateOutput], [obj.Release()]. *)
Inductive setupEvent :=
| SvQueryInterface (obj iid : iface) (hr : Z)
| SvGetParent (hr : Z)
| SvEnumOutputs (output hr : Z)
| SvDuplicateOutput1 (format hr : Z)
| SvDuplicateOutput (hr : Z)
| SvRelease (obj : iface).

(** The answers of the provider while a duplicator is built: the status
    of each call and the interface pointer it stores. *)
Record Factory := mkFactory {
  f_QueryDebug : Z * option handle;
  f_QueryInfoQueue : Z * option handle;
  f_QueryDevice1 : Z * option handle;
  f_GetParent : Z * option handle;
  f_EnumOutputs : Z * option handle;
  f_QueryOutput5 : Z * option handle;
  f_DuplicateOutput1 : Z * option handle;
  f_QueryOutput1 : Z * option handle;
  f_DuplicateOutput : Z * option handle
}.

(** The errors of the constructor, by their text; the one text
    "failed at device.QueryInterface" serves the info queue and the DXGI
    device, and "failed at dxgiOutput.QueryInterface" both outputs. *)
Inductive setupError :=
| ErrDeviceQueryInterface (hr : Z)
| ErrGetAdapter (hr : Z)
| ErrEnumOutputs (hr : Z)
| ErrOutputQueryInterface (hr : Z)
| ErrDuplicateOutput (hr : Z).

Inductive setupResult :=
| Built (dup : OutputDuplicator)
| NotBuilt (e : setupError).

(** The constructor has no duplicator to work on: it makes calls, and
    panics ([None]) or returns. *)
Definition Setup (A : Type) : Type := option (A * list setupEvent).

Definition sret {A} (a : A) : Setup A := Some (a, []).

Definition sbind {A B} (m : Setup A) (f : A -> Setup B) : Setup B :=
  match m with
  | None => None
  | Some (a, t1) =>
      match f a with
      | None => None
      | Some (b, t2) => Some (b, t1 ++ t2)
      end
  end.

Notation "x <~ m ;; k" := (sbind m (fun x => k))
  (at level 61, m at next level, right associativity).

Definition call (e : setupEvent) : Setup unit := Some (tt, [e]).

(** A method call through an interface pointer panics on nil. *)
Definition through (p : option handle) : Setup unit :=
  match p with
  | Some _ => Some (tt, [])
  | None => None
  end.

(** [defer p.Release()] with the rest of the function as [body]. *)
Definition releasing {A} (obj : iface) (p : option handle) (body : Setup A)
  : Setup A :=
  a <~ body ;; _ <~ through p ;; _ <~ call (SvRelease obj) ;; sret a.

(** The composite literal the constructor returns: the four interfaces
    and the swizzle flag, every other field at its zero value. *)
Definition newOutputDuplicator (device deviceCtx dup dxgiOutput5 : option handle)
  (needsSwizzle : bool) : OutputDuplicator :=
  mkDup device deviceCtx dup dxgiOutput5 None None
    (dxgi.mkMAPPED_RECT 0 []) dxgi.zeroPOINT PointerInfo.zero false false
    Go.nil_slice Go.nil_slice false needsSwizzle.

(** Lines 536 to 565: the duplication is asked of IDXGIOutput5 and, when
    that fails, of IDXGIOutput1. *)
Definition duplicate (f : Factory) (device deviceCtx : option handle) (format : Z)
  (dxgiOutput : option handle) : Setup setupResult :=
  _ <~ through dxgiOutput ;;
  let '(hr, dxgiOutput5) := f_QueryOutput5 f in
  _ <~ call (SvQueryInterface IDXGIOutput IDXGIOutput5 hr) ;;
  if d3d.Failed (d3d.HRESULT hr) then sret (NotBuilt (ErrOutputQueryInterface hr)) else
  _ <~ through dxgiOutput5 ;;
  let '(hr, dup) := f_DuplicateOutput1 f in
  _ <~ call (SvDuplicateOutput1 format hr) ;;
  if d3d.Failed (d3d.HRESULT hr) then
    let '(hr, dxgiOutput1) := f_QueryOutput1 f in
    _ <~ call (SvQueryInterface IDXGIOutput IDXGIOutput1 hr) ;;
    if d3d.Failed (d3d.HRESULT hr) then
      _ <~ call (SvRelease IDXGIOutput5) ;;
      sret (NotBuilt (ErrOutputQueryInterface hr))
    else
      releasing IDXGIOutput1 dxgiOutput1
        (_ <~ through dxgiOutput1 ;;
         let '(hr, dup) := f_DuplicateOutput f in
         _ <~ call (SvDuplicateOutput hr) ;;
         if d3d.Failed (d3d.HRESULT hr) then
           _ <~ call (SvRelease IDXGIOutput5) ;;
           sret (NotBuilt (ErrDuplicateOutput hr))
         else
           sret (Built (newOutputDuplicator device deviceCtx dup dxgiOutput5 true)))
  else
    sret (Built (newOutputDuplicator device deviceCtx dup dxgiOutput5 false)).

(** Lines 513 to 565: from the device to the output, each interface
    released when the function returns. *)
Definition findOutput (f : Factory) (device deviceCtx : option handle)
  (output format : Z) : Setup setupResult :=
  _ <~ through device ;;
  let '(hr, dxgiDevice1) := f_QueryDevice1 f in
  _ <~ call (SvQueryInterface ID3D11Device IDXGIDevice1 hr) ;;
  if d3d.Failed (d3d.HRESULT hr) then sret (NotBuilt (ErrDeviceQueryInterface hr)) else
  releasing IDXGIDevice1 dxgiDevice1
    (_ <~ through dxgiDevice1 ;;
     let '(hr, dxgiAdapter) := f_GetParent f in
     _ <~ call (SvGetParent hr) ;;
     if d3d.Failed (d3d.HRESULT hr) then sret (NotBuilt (ErrGetAdapter hr)) else
     releasing IDXGIAdapter1 dxgiAdapter
       (_ <~ through dxgiAdapter ;;
        let '(hr, dxgiOutput) := f_EnumOutputs f in
        let hr := Go.int32 hr in
        _ <~ call (SvEnumOutputs (Go.uint32 output) hr) ;;
        if d3d.Failed (d3d.HRESULT hr) then sret (NotBuilt (ErrEnumOutputs hr)) else
        releasing IDXGIOutput dxgiOutput
          (duplicate f device deviceCtx format dxgiOutput))).

(** [func newIDXGIOutputDuplicationFormat(device, deviceCtx, output, format)],
    which returns a duplicator or an error. *)
Definition newIDXGIOutputDuplicationFormat (f : Factory)
  (device deviceCtx : option handle) (output format : Z) : Setup setupResult :=
  _ <~ through device ;;
  let '(hr, d3dDebug) := f_QueryDebug f in
  _ <~ call (SvQueryInterface ID3D11Device ID3D11Debug hr) ;;
  if negb (d3d.Failed (d3d.HRESULT hr)) then
    releasing ID3D11Debug d3dDebug
      (_ <~ through d3dDebug ;;
       let '(hr, d3dInfoQueue) := f_QueryInfoQueue f in
       _ <~ call (SvQueryInterface ID3D11Debug ID3D11InfoQueue hr) ;;
       if d3d.Failed (d3d.HRESULT hr) then
         sret (NotBuilt (ErrDeviceQueryInterface hr))
       else
         releasing ID3D11InfoQueue d3dInfoQueue
           (findOutput f device deviceCtx output format))
  else findOutput f device deviceCtx output format.

(** Modelled from the spec: the pixel format of the modern duplication
    path (a constant of package dxgi, not under src/), with the value of
    the platform headers. *)
Definition DXGI_FORMAT_R8G8B8A8_UNORM : Z := 28.

(** [func NewIDXGIOutputDuplication(device, deviceCtx, output)], which
    returns a duplicator or an error. *)
Definition NewIDXGIOutputDuplication (f : Factory)
  (device deviceCtx : option handle) (output : Z) : Setup setupResult :=
  newIDXGIOutputDuplicationFormat f device deviceCtx output
    DXGI_FORMAT_R8G8B8A8_UNORM.

(* ================================================================== *)
(** ** The frame held by the provider, read off a trace *)

(** Whether the provider holds a frame after the calls of [t], when
    [held] says whether it held one before: a successful
    AcquireNextFrame hands a frame out, ReleaseFrame takes it back. *)
Fixpoint held_after (held : bool) (t : list event) : bool :=
  match t with
  | [] => held
  | EvReleaseFrame :: t' => held_after false t'
  | EvAcquireNextFrame _ hr :: t' =>
      held_after (if d3d.Failed (d3d.HRESULT hr) then held else true) t'
  | _ :: t' => held_after held t'
  end.

(** No frame is acquired while one is held: at most one frame is out at
    any point of the trace. *)
Fixpoint one_frame_at_most (held : bool) (t : list event) : bool :=
  match t with
  | [] => true
  | EvReleaseFrame :: t' => one_frame_at_most false t'
  | EvAcquireNextFrame _ hr :: t' =>
      if d3d.Failed (d3d.HRESULT hr) then one_frame_at_most held t'
      else negb held && one_frame_at_most true t'
  | _ :: t' => one_frame_at_most held t'
  end.

Definition is_frame_event (e : event) : bool :=
  match e with
  | EvReleaseFrame | EvAcquireNextFrame _ _ => true
  | _ => false
  end.

Definition is_copy_event (e : event) : bool :=
  match e with
  | EvCopySubresourceRegion2D _ _ _ | EvCopyResource2D => true
  | _ => false
  end.

Definition is_make_event (e : event) : bool :=
  match e with
  | EvMakeMovedRects _ | EvMakeDirtyRects _ | EvMakeShapeInBuffer _ => true
  | _ => false
  end.

(* ================================================================== *)
(** ** States and providers used in the statements *)

(** The duplicator once Release has returned. *)
Definition released (d : OutputDuplicator) : Prop :=
  acquiredFrame d = false /\ stagedTex d = None /\ surface d = None
  /\ outputDuplication d = None /\ dxgiOutput d = None.

(** A method keeps [R] and [Q]: whenever it returns, the duplicator
    before and after are related by [R] and every event passes [Q]. *)
Definition keeps (R : OutputDuplicator -> OutputDuplicator -> Prop)
  (Q : event -> bool) {A} (m : M A) : Prop :=
  forall d r d' t, m d = Some (r, d', t) -> R d d' /\ forallb Q t = true.

(** The frame flag and the duplication interface are as before. *)
Definition same_frame (d d' : OutputDuplicator) : Prop :=
  acquiredFrame d' = acquiredFrame d /\ outputDuplication d' = outputDuplication d.

Definition not_frame_event (e : event) : bool := negb (is_frame_event e).

(** Nothing but the pointer state differs. *)
Definition only_pointer (d d' : OutputDuplicator) : Prop :=
  d' = set_pointerInfo (pointerInfo d') d.

(** The calls and allocations of updatePointer. *)
Definition is_pointer_event (e : event) : bool :=
  match e with
  | EvMakeShapeInBuffer _ | EvGetFramePointerShape _ | EvNewShapeOutBuffer _ _ => true
  | _ => false
  end.

(** A method fails within [E]: every error it returns satisfies [E]. *)
Definition fails_with (E : error -> Prop) {A} (m : M A) : Prop :=
  forall d r d' t e, m d = Some (r, d', t) -> r = Fail e -> E e.

(** The error updatePointer returns, if any: the shape could not be
    fetched, or its type is none of the three that are decoded. *)
Definition pointerUpdateError (o : Provider) (info : dxgi.DXGI_OUTDUPL_FRAME_INFO)
  : option error :=
  if dxgi.LastMouseUpdateTime info =? 0 then None else
  if dxgi.PointerShapeBufferSize info =? 0 then None else
  let '(hr, _, shape) := r_GetFramePointerShape o in
  if negb (hr =? 0) then Some ErrFramePointerShape else
  if (dxgi.Type_ shape =? dxgi.DXGI_OUTDUPL_POINTER_SHAPE_TYPE_MONOCHROME)
     || (dxgi.Type_ shape =? dxgi.DXGI_OUTDUPL_POINTER_SHAPE_TYPE_COLOR)
     || (dxgi.Type_ shape =? dxgi.DXGI_OUTDUPL_POINTER_SHAPE_TYPE_MASKED_COLOR)
  then None
  else Some (ErrUnsupportedType (dxgi.Type_ shape)).

(** The duplicator as newIDXGIOutputDuplicationFormat returns it. *)
Definition newDup (swizzle : bool) : OutputDuplicator :=
  mkDup (Some 1%nat) (Some 2%nat) (Some 3%nat) (Some 4%nat) None None
    (dxgi.mkMAPPED_RECT 0 []) dxgi.zeroPOINT PointerInfo.zero false false
    Go.nil_slice Go.nil_slice false swizzle.

(** The two failing statuses as the 32-bit integers a call returns. *)
Definition hrWaitTimeout : Z := Go.int32 d3d.DXGI_ERROR_WAIT_TIMEOUT.
Definition hrMoreData : Z := Go.int32 d3d.DXGI_ERROR_MORE_DATA.

Definition zeroFrameInfo : dxgi.DXGI_OUTDUPL_FRAME_INFO :=
  dxgi.mkFRAME_INFO 0 0 dxgi.zeroPOINT 0 0 0.
Definition zeroShapeInfo : dxgi.DXGI_OUTDUPL_POINTER_SHAPE_INFO :=
  dxgi.mkSHAPE_INFO 0 0 0 0.

(** A provider of a 4 by 2 desktop in video memory whose every call
    succeeds, with a frame of [frameInfo], a pointer shape [shape] with
    bytes [shapeBytes], the given rect answers and a mapped pitch of 16
    bytes. *)
Definition provider (hrAcquire : Z) (frameInfo : dxgi.DXGI_OUTDUPL_FRAME_INFO)
  (shapeBytes : list Go.byte) (shape : dxgi.DXGI_OUTDUPL_POINTER_SHAPE_INFO)
  (moves : list (Z * Z * list dxgi.DXGI_OUTDUPL_MOVE_RECT))
  (dirty : list (Z * Z * list dxgi.RECT)) : Provider :=
  mkProvider (0, dxgi.mkDESC 4 2 0) (0, None) (hrAcquire, frameInfo)
    (0, shapeBytes, shape) 0 (0, (4, 2)) (0, Some 5%nat) (0, Some 6%nat)
    moves dirty
    (0, Some (dxgi.mkMAPPED_RECT 16 (map Z.of_nat (seq 0 32)))).

(** AcquireNextFrame times out. *)
Definition timeoutProvider : Provider :=
  provider hrWaitTimeout zeroFrameInfo [] zeroShapeInfo [] [].

(** The pointer state when the [switch] of updatePointer is entered, for
    a frame with a new shape whose fetch succeeded: position and
    visibility refreshed, the raw bytes stored in the input buffer (grown
    if it was too short), a fresh output buffer of [Width] by [Height]
    pixels; and the events up to there. *)
Definition fetchedShapeIn (info : dxgi.DXGI_OUTDUPL_FRAME_INFO)
  (written : list Go.byte) (p : PointerInfo.t) : Go.slice Go.byte :=
  Go.stored
    (if Go.slice_len (PointerInfo.shapeInBuffer p) <? dxgi.PointerShapeBufferSize info
     then Go.make 0 (dxgi.PointerShapeBufferSize info)
     else PointerInfo.shapeInBuffer p)
    written.

Definition newShapeOut (shape : dxgi.DXGI_OUTDUPL_POINTER_SHAPE_INFO) : image.RGBA :=
  image.mkRGBA (repeat 0 (Z.to_nat (4 * dxgi.Width shape * dxgi.Height shape)))
    (4 * dxgi.Width shape)
    (image.mkRect 0 0 (dxgi.Width shape) (dxgi.Height shape)).

Definition fetched (info : dxgi.DXGI_OUTDUPL_FRAME_INFO) (written : list Go.byte)
  (shape : dxgi.DXGI_OUTDUPL_POINTER_SHAPE_INFO) (p : PointerInfo.t) : PointerInfo.t :=
  PointerInfo.mk (dxgi.PointerPosition_Position info) (PointerInfo.size p)
    (fetchedShapeIn info written p) (Some (newShapeOut shape))
    (negb (dxgi.PointerPosition_Visible info =? 0)).

Definition fetchTrace (info : dxgi.DXGI_OUTDUPL_FRAME_INFO)
  (shape : dxgi.DXGI_OUTDUPL_POINTER_SHAPE_INFO) (p : PointerInfo.t) : list event :=
  (if Go.slice_len (PointerInfo.shapeInBuffer p) <? dxgi.PointerShapeBufferSize info
   then [EvMakeShapeInBuffer (dxgi.PointerShapeBufferSize info)] else [])
  ++ [EvGetFramePointerShape (dxgi.PointerShapeBufferSize info);
      EvNewShapeOutBuffer (dxgi.Width shape) (dxgi.Height shape)].

(** What the copy strategy reads and assigns is as before: the swizzle
    flag, the two rect buffers, the device context. *)
Definition same_copy_state (d d' : OutputDuplicator) : Prop :=
  needsSwizzle d' = needsSwizzle d /\ movedRects d' = movedRects d
  /\ dirtyRects d' = dirtyRects d /\ deviceCtx d' = deviceCtx d.

Definition not_copy_event (e : event) : bool := negb (is_copy_event e).




(** The counts a rect loop asks for, round by round: [required] in the
    first round, then the count the provider required with each
    more-data answer, as long as there is a further answer. *)
Fixpoint asked {A} (required : Z) (answers : list (Z * Z * list A)) : list Z :=
  match answers with
  | [] => []
  | (hr, req, _) :: rest =>
      required ::
        (if d3d.Failed (d3d.HRESULT hr) && (d3d.HRESULT hr =? d3d.DXGI_ERROR_MORE_DATA)
         then asked (Go.uint32 req) rest else [])
  end.

(** The rounds of a rect loop, request by request: [len] is the current
    length of the buffer and [counts] the counts asked for.  A round whose
    count exceeds the current length makes a new buffer of that count,
    which is the current buffer from then on; every round then calls the
    provider with the current buffer. *)
Fixpoint rounds (evMake evCall : Z -> event) (len : Z) (counts : list Z)
  : list event :=
  match counts with
  | [] => []
  | n :: rest =>
      if len <? n then evMake n :: evCall n :: rounds evMake evCall n rest
      else evCall len :: rounds evMake evCall len rest
  end.

(** The count retrieved by a rect loop: the count that comes with the
    first answer that is not a more-data answer. *)
Fixpoint retrieved {A} (answers : list (Z * Z * list A)) : Z :=
  match answers with
  | [] => 0
  | (hr, req, _) :: rest =>
      if d3d.Failed (d3d.HRESULT hr) && (d3d.HRESULT hr =? d3d.DXGI_ERROR_MORE_DATA)
      then retrieved rest else Go.uint32 req
  end.

Definition not_make_event (e : event) : bool := negb (is_make_event e).

(** A slice that uses its whole backing array. *)
Definition full {A} (s : Go.slice A) : Prop := Go.slen s = length (Go.sarr s).

(** The four-case table of the monochrome decoder as the specification
    gives it, from the AND bit and the XOR bit to the RGBA pixel:
    (0,0) transparent, (0,1) opaque white, (1,0) transparent, (1,1) the
    opaque black marker. *)
Definition monoTable (andBit xorBit : bool) : color.RGBA :=
  match andBit, xorBit with
  | false, false => color.mkRGBA 0 0 0 0
  | false, true => color.mkRGBA 255 255 255 255
  | true, false => color.mkRGBA 0 0 0 0
  | true, true => color.mkRGBA 0 0 0 255
  end.

(** Where the decoder reads the two bits of pixel (i, j): the byte of
    the row of [(width + 7) / 8] bytes, in the AND mask at the start of
    the raw bytes and in the XOR mask [Pitch * height] bytes further, and
    the mask of the bit within it. *)
Definition maskByte (shape : dxgi.DXGI_OUTDUPL_POINTER_SHAPE_INFO) (i j : Z) : Z :=
  j * Z.quot (dxgi.Width shape + 7) 8 + Z.quot i 8.

Definition xorOffset (shape : dxgi.DXGI_OUTDUPL_POINTER_SHAPE_INFO) : Z :=
  Go.uint32 (dxgi.ShapePitch shape * Go.uint32 (Z.quot (dxgi.Height shape) 2)).

Definition bitSet (b : Go.byte) (i : Z) : bool := negb (Z.land b (bitMask i) =? 0).

(** The bit of pixel (i, j) in a mask of one bit per pixel, laid out as
    the specification has it: the mask starts at byte [base] of the raw
    bytes, each of its rows takes [pitch] bytes, and within a row the
    pixels follow one another from the highest bit of each byte down. *)
Definition maskBit (raw : list Go.byte) (base pitch i j : Z) : option bool :=
  match Go.index raw (base + j * pitch + i / 8) with
  | Some b => Some (Z.testbit b (7 - i mod 8))
  | None => None
  end.

(** The pixel that the specification prescribes at (i, j) of a
    monochrome shape: the AND mask comes first, the XOR mask after its
    [Pitch * height] bytes, where the true height is half the reported
    one, the rows of both lie [Pitch] bytes apart, and the two bits at
    (i, j) select the pixel in the four-case table. *)
Definition specMonoPixel (raw : list Go.byte)
  (shape : dxgi.DXGI_OUTDUPL_POINTER_SHAPE_INFO) (i j : Z) : option color.RGBA :=
  let pitch := dxgi.ShapePitch shape in
  let height := dxgi.Height shape / 2 in
  match maskBit raw 0 pitch i j, maskBit raw (pitch * height) pitch i j with
  | Some a, Some x => Some (monoTable a x)
  | _, _ => None
  end.

(** An image whose rows do not overlap and whose pixels all lie in
    [Pix], as [image.NewRGBA] and [SubImage] make them. *)
Definition wf_image (p : image.RGBA) : Prop :=
  0 <= 4 * image.Dx (image.Bounds p) <= image.Stride p
  /\ 0 <= image.Dy (image.Bounds p)
  /\ image.Stride p * image.Dy (image.Bounds p) <= Go.len (image.Pix p).

(** The colour of a pixel of a well-formed image. *)
Definition colorAt (p : image.RGBA) (x y : Z) : color.RGBA :=
  match image.At p x y with
  | Some c => c
  | None => color.mkRGBA 0 0 0 0
  end.

(** The integers [a], [a + 1], ... ([n] of them). *)
Definition zrange (a : Z) (n : nat) : list Z :=
  map (fun k => a + Z.of_nat k) (seq 0 n).

Definition zsum (l : list Z) : Z := fold_right Z.add 0 l.

(** The points sampled around the cursor, row by row: the clipped area
    without the cursor's own rectangle. *)
Definition ringRow (dup : OutputDuplicator) (img : image.RGBA) (y : Z) : list (Z * Z) :=
  let '(startX, _, endX, _) := sampleArea dup img in
  map (fun x => (x, y))
    (filter (fun x => negb (inCursor dup x y))
       (zrange startX (Z.to_nat (endX - startX + 1)))).

Definition ringPoints (dup : OutputDuplicator) (img : image.RGBA) : list (Z * Z) :=
  let '(_, startY, _, endY) := sampleArea dup img in
  flat_map (ringRow dup img) (zrange startY (Z.to_nat (endY - startY + 1))).

(** The luma the code gives a colour: the float64 sum of the weighted
    8-bit channels, cut to an integer. *)
Definition luma (c : color.RGBA) : Z :=
  let '(r, g, b, _) := color.RGBA16 c in brightness r g b.

(** The classification as the code computes it: the ring is not empty
    and the integer quotient of the summed lumas by the number of points
    exceeds 80 (sum and count are 64-bit). *)
Definition lightRing (dup : OutputDuplicator) (img : image.RGBA) : bool :=
  let total := uint64 (zsum (map (fun p => luma (colorAt img (fst p) (snd p)))
                              (ringPoints dup img))) in
  let count := uint64 (Go.len (ringPoints dup img)) in
  negb (count =? 0) && (Z.quot total count >? 80).






(** The adaptive marker: opaque pure black. *)
Definition isMarker (c : color.RGBA) : bool :=
  (color.R c =? 0) && (color.G c =? 0) && (color.B c =? 0) && (color.A c =? 255).

(** What a cursor pixel puts on the image: nothing when its alpha is 0,
    opaque black on a light and opaque white on a dark background for
    the marker, else itself. *)
Definition composite (light : bool) (c : color.RGBA) : option color.RGBA :=
  if color.A c =? 0 then None
  else Some (if isMarker c
             then (if light then color.mkRGBA 0 0 0 255
                   else color.mkRGBA 255 255 255 255)
             else c).

(** The point (x, y) of the image lies under the cursor shape. *)
Definition underCursor (dup : OutputDuplicator) (x y : Z) : Prop :=
  0 <= x - dxgi.X (PointerInfo.pos (pointerInfo dup))
       < dxgi.X (PointerInfo.size (pointerInfo dup))
  /\ 0 <= y - dxgi.Y (PointerInfo.pos (pointerInfo dup))
          < dxgi.Y (PointerInfo.size (pointerInfo dup)).

(** A duplicator that keeps the pointer state up to date. *)
Definition pointerDup : OutputDuplicator :=
  mkDup (Some 1%nat) (Some 2%nat) (Some 3%nat) (Some 4%nat) None None
    (dxgi.mkMAPPED_RECT 0 []) dxgi.zeroPOINT PointerInfo.zero false true
    Go.nil_slice Go.nil_slice false false.

(** A frame that carries a new pointer shape of 4 bytes, with [n]
    accumulated frames and [meta] bytes of metadata. *)
Definition shapeFrame (n meta : Z) : dxgi.DXGI_OUTDUPL_FRAME_INFO :=
  dxgi.mkFRAME_INFO 1 n (dxgi.mkPOINT 0 0) 1 meta 4.

(** A pointer-only update (no accumulated frame) whose shape has type 3,
    which is none of the three decoded types. *)
Definition unknownShapeProvider : Provider :=
  provider 0 (shapeFrame 0 0) [0; 0; 0; 0] (dxgi.mkSHAPE_INFO 3 1 1 4) [] [].

(** A frame with one accumulated update and no metadata whose new
    pointer shape has type 3. *)
Definition unknownShapeFrameProvider : Provider :=
  provider 0 (shapeFrame 1 0) [0; 0; 0; 0] (dxgi.mkSHAPE_INFO 3 1 1 4) [] [].

(** A frame with metadata: no moved rect, and two dirty rects that the
    provider hands over once the buffer has room for two. *)
Definition dirtyProvider : Provider :=
  provider 0 (dxgi.mkFRAME_INFO 0 1 dxgi.zeroPOINT 0 32 0) [] zeroShapeInfo
    [(0, 0, [])]
    [(hrMoreData, 2, []);
     (0, 2, [dxgi.mkRECT 0 0 2 1; dxgi.mkRECT 1 1 3 2])].

(** Three frames with metadata in a row: the first has three moved
    rects, the other two have none. *)
Definition threeMovesProvider : Provider :=
  provider 0 (dxgi.mkFRAME_INFO 0 1 dxgi.zeroPOINT 0 72 0) [] zeroShapeInfo
    [(hrMoreData, 3, []);
     (0, 3, [dxgi.zeroMOVE_RECT; dxgi.zeroMOVE_RECT; dxgi.zeroMOVE_RECT])]
    [(0, 0, [])].

Definition noMovesProvider : Provider :=
  provider 0 (dxgi.mkFRAME_INFO 0 1 dxgi.zeroPOINT 0 16 0) [] zeroShapeInfo
    [(0, 0, [])] [(0, 1, [dxgi.mkRECT 0 0 1 1])].


(** The duplicator after a call of Snapshot that returned. *)
Definition afterSnapshot (o : Provider) (d : OutputDuplicator) : OutputDuplicator :=
  match Snapshot o 0 d with
  | Some (_, d', _) => d'
  | None => d
  end.

Definition traceOfSnapshot (o : Provider) (d : OutputDuplicator) : list event :=
  match Snapshot o 0 d with
  | Some (_, _, t) => t
  | None => []
  end.

(** The duplicator after a frame with two dirty rects and no moved
    rect: the dirty-rect buffer has length 2, the moved-rect buffer
    length 0 and capacity 1. *)
Definition keptDup : OutputDuplicator := afterSnapshot dirtyProvider pointerDup.

(** A frame with a new colour shape of one pixel, three moved rects that
    the provider hands over once the buffer has room for three, and one
    dirty rect. *)
Definition growProvider : Provider :=
  provider 0 (shapeFrame 1 32) [10; 20; 30; 255] (dxgi.mkSHAPE_INFO 2 1 1 4)
    [(hrMoreData, 3, []);
     (0, 3, [dxgi.zeroMOVE_RECT; dxgi.zeroMOVE_RECT; dxgi.zeroMOVE_RECT])]
    [(0, 1, [dxgi.mkRECT 0 0 1 1])].

(** A frame with a new colour shape of one pixel, one dirty rect and no
    moved rect. *)
Definition colorShapeProvider : Provider :=
  provider 0 (shapeFrame 1 16) [10; 20; 30; 255] (dxgi.mkSHAPE_INFO 2 1 1 4)
    [(0, 0, [])] [(0, 1, [dxgi.mkRECT 0 0 1 1])].

(** A monochrome shape of 4 by 1 pixels (reported height 2) with a
    pitch of 4 bytes: the AND row 0011 and the XOR row 0101, so that the
    four pixels show the four cases. *)
Definition monoShape : dxgi.DXGI_OUTDUPL_POINTER_SHAPE_INFO :=
  dxgi.mkSHAPE_INFO dxgi.DXGI_OUTDUPL_POINTER_SHAPE_TYPE_MONOCHROME 4 2 4.

Definition monoFrame : dxgi.DXGI_OUTDUPL_FRAME_INFO :=
  dxgi.mkFRAME_INFO 1 0 (dxgi.mkPOINT 0 0) 1 0 8.

Definition monoProvider : Provider :=
  provider 0 monoFrame [0x30; 0; 0; 0; 0x50; 0; 0; 0] monoShape [] [].

(** A monochrome shape of 8 by 2 pixels (reported height 4) whose rows
    are padded to a pitch of 4 bytes, the padding being zero.  The AND
    mask holds the rows 00110101 and 00001111 at bytes 0 and 4, the XOR
    mask the rows 01010011 and 10100101 at bytes 8 and 12. *)
Definition paddedShape : dxgi.DXGI_OUTDUPL_POINTER_SHAPE_INFO :=
  dxgi.mkSHAPE_INFO dxgi.DXGI_OUTDUPL_POINTER_SHAPE_TYPE_MONOCHROME 8 4 4.

Definition paddedBytes : list Go.byte :=
  [0x35; 0; 0; 0;  0x0F; 0; 0; 0;  0x53; 0; 0; 0;  0xA5; 0; 0; 0].

Definition paddedFrame : dxgi.DXGI_OUTDUPL_FRAME_INFO :=
  dxgi.mkFRAME_INFO 1 0 (dxgi.mkPOINT 0 0) 1 0 16.

Definition paddedProvider : Provider :=
  provider 0 paddedFrame paddedBytes paddedShape [] [].

(** The same shape with packed rows: a pitch of 1 byte, and no padding
    in the raw bytes. *)
Definition packedShape : dxgi.DXGI_OUTDUPL_POINTER_SHAPE_INFO :=
  dxgi.mkSHAPE_INFO dxgi.DXGI_OUTDUPL_POINTER_SHAPE_TYPE_MONOCHROME 8 4 1.

Definition packedFrame : dxgi.DXGI_OUTDUPL_FRAME_INFO :=
  dxgi.mkFRAME_INFO 1 0 (dxgi.mkPOINT 0 0) 1 0 4.

Definition packedProvider : Provider :=
  provider 0 packedFrame [0x35; 0x0F; 0x53; 0xA5] packedShape [] [].


Definition greenRow : image.RGBA :=
  image.mkRGBA [0; 137; 4; 255; 0; 137; 4; 255; 0; 137; 4; 255] 12
    (image.mkRect 0 0 3 1).



Definition markerDup : OutputDuplicator :=
  set_pointerInfo
    (PointerInfo.mk (dxgi.mkPOINT 1 0) (dxgi.mkPOINT 1 1) Go.nil_slice
       (Some (image.mkRGBA [0; 0; 0; 255] 4 (image.mkRect 0 0 1 1))) true)
    (newDup false).

(* ================================================================== *)
(** ** Further predicates, events and providers used in the statements *)

(** A method leads from [P] to [I] through [Q]: started in a state of
    [P], whenever it returns, with a value or with an error, the
    duplicator is in [I] and every event of the trace passes [Q]. *)
Definition leads (P I : OutputDuplicator -> Prop) (Q : event -> bool)
  {A} (m : M A) : Prop :=
  forall d r d' t, P d -> m d = Some (r, d', t) -> I d' /\ forallb Q t = true.

(** The calls of initializeStage. *)
Definition is_stage_event (e : event) : bool :=
  match e with
  | EvTextureGetDesc | EvCreateTexture2D | EvStagedTexQueryInterface => true
  | _ => false
  end.

(** The events of the copy: the rect loops with their allocations, the
    copies, the line printed. *)
Definition is_copyFrame_event (e : event) : bool :=
  match e with
  | EvMakeMovedRects _ | EvGetFrameMoveRects _
  | EvMakeDirtyRects _ | EvGetFrameDirtyRects _
  | EvCopySubresourceRegion2D _ _ _ | EvCopyResource2D | EvPrint => true
  | _ => false
  end.

(** The events about the frame's desktop resource and the texture
    interface queried from it: the acquisition that hands the resource
    out, the query, the two releases. *)
Definition is_desktop_event (e : event) : bool :=
  match e with
  | EvAcquireNextFrame _ _ | EvDesktopQueryInterface
  | EvDesktop2dRelease | EvDesktopRelease => true
  | _ => false
  end.

Definition no_desktop_event (e : event) : bool := negb (is_desktop_event e).

Definition any_state (_ : OutputDuplicator) : Prop := True.

Definition any_event (_ : event) : bool := true.
Definition no_pointer_event (e : event) : bool := negb (is_pointer_event e).
Definition no_stage_event (e : event) : bool := negb (is_stage_event e).

(** The size the fast path assigns before it tries to map the desktop
    surface. *)
Definition modeSize (desc : dxgi.DXGI_OUTDUPL_DESC) : dxgi.POINT :=
  dxgi.mkPOINT (Go.int32 (dxgi.ModeDesc_Width desc))
               (Go.int32 (dxgi.ModeDesc_Height desc)).

(** The pointer state as updatePointer leaves it: the raw buffer uses
    its whole backing array, and the decoded shape is a well-formed
    image, or absent with a size of (0, 0). *)
Definition pointer_ok (p : PointerInfo.t) : Prop :=
  full (PointerInfo.shapeInBuffer p)
  /\ match PointerInfo.shapeOutBuffer p with
     | Some img => wf_image img
     | None => PointerInfo.size p = dxgi.zeroPOINT
     end.

(** A method yields [V]: every value it returns satisfies [V]. *)
Definition yields {A} (V : A -> Prop) (m : M A) : Prop :=
  forall d a d' t, m d = Some (Ok a, d', t) -> V a.

(** What an error of Snapshot reports, in terms of the answers of the
    provider: the failing status of the call it names, which for a rect
    query is not the more-data signal; for ErrNoImageYet the wait timeout
    of AcquireNextFrame or a frame without accumulated updates; for the
    two errors of updatePointer the nonzero status of GetFramePointerShape
    or the type of the shape, none of the three that are decoded. *)
Definition reported (o : Provider) (e : error) : Prop :=
  match e with
  | ErrNoImageYet =>
      (d3d.Failed (d3d.HRESULT (fst (r_AcquireNextFrame o))) = true
       /\ d3d.HRESULT (fst (r_AcquireNextFrame o)) = d3d.DXGI_ERROR_WAIT_TIMEOUT)
      \/ (d3d.Failed (d3d.HRESULT (fst (r_AcquireNextFrame o))) = false
          /\ dxgi.AccumulatedFrames (snd (r_AcquireNextFrame o)) = 0)
  | ErrGetDesc hr =>
      hr = fst (r_GetDesc o) /\ d3d.Failed (d3d.HRESULT hr) = true
  | ErrAcquireNextFrame hr =>
      hr = fst (r_AcquireNextFrame o) /\ d3d.Failed (d3d.HRESULT hr) = true
      /\ d3d.HRESULT hr <> d3d.DXGI_ERROR_WAIT_TIMEOUT
  | ErrFramePointerShape => fst (fst (r_GetFramePointerShape o)) <> 0
  | ErrUnsupportedType t =>
      t = dxgi.Type_ (snd (r_GetFramePointerShape o))
      /\ t <> dxgi.DXGI_OUTDUPL_POINTER_SHAPE_TYPE_MONOCHROME
      /\ t <> dxgi.DXGI_OUTDUPL_POINTER_SHAPE_TYPE_COLOR
      /\ t <> dxgi.DXGI_OUTDUPL_POINTER_SHAPE_TYPE_MASKED_COLOR
  | ErrQueryInterface hr =>
      hr = r_DesktopQueryInterface o /\ d3d.Failed (d3d.HRESULT hr) = true
  | ErrInitializeStage hr =>
      d3d.Failed (d3d.HRESULT hr) = true
      /\ (hr = fst (r_TextureGetDesc o) \/ hr = fst (r_CreateTexture2D o)
          \/ hr = fst (r_StagedTexQueryInterface o))
  | ErrGetFrameMoveRects hr =>
      d3d.Failed (d3d.HRESULT hr) = true
      /\ d3d.HRESULT hr <> d3d.DXGI_ERROR_MORE_DATA
      /\ exists req written, In (hr, req, written) (r_GetFrameMoveRects o)
  | ErrGetFrameDirtyRects hr =>
      d3d.Failed (d3d.HRESULT hr) = true
      /\ d3d.HRESULT hr <> d3d.DXGI_ERROR_MORE_DATA
      /\ exists req written, In (hr, req, written) (r_GetFrameDirtyRects o)
  | ErrSurfaceMap hr =>
      hr = fst (r_SurfaceMap o) /\ d3d.Failed (d3d.HRESULT hr) = true
  end.

(** The unmap function of a successful Snapshot, as the event of its
    call. *)
Definition unmapEvent (s : Snapshot_ok) : event :=
  match unmap s with
  | UnMapDesktopSurface => EvUnMapDesktopSurface
  | SurfaceUnmap => EvSurfaceUnmap
  end.

(** The calls Release makes on a duplicator: the frame marked as
    acquired is released, then each interface that is not nil, in the
    order of the source. *)
Definition releaseCalls (d : OutputDuplicator) : list event :=
  (if acquiredFrame d then [EvReleaseFrame] else [])
  ++ (match stagedTex d with Some _ => [EvStagedTexRelease] | None => [] end)
  ++ (match surface d with Some _ => [EvSurfaceRelease] | None => [] end)
  ++ (match outputDuplication d with
      | Some _ => [EvOutputDuplicationRelease]
      | None => []
      end)
  ++ (match dxgiOutput d with Some _ => [EvDxgiOutputRelease] | None => [] end).

(** A provider whose staging texture is created but does not give out
    its surface (the query fails with E_NOINTERFACE). *)
Definition noSurfaceProvider : Provider :=
  mkProvider (0, dxgi.mkDESC 4 2 0) (0, None)
    (0, dxgi.mkFRAME_INFO 0 1 dxgi.zeroPOINT 0 0 0) (0, [], zeroShapeInfo) 0
    (0, (4, 2)) (0, Some 5%nat) (Go.int32 0x80004002, None) [] []
    (0, Some (dxgi.mkMAPPED_RECT 16 (map Z.of_nat (seq 0 32)))).

(** A provider whose desktop image is in system memory and can be
    mapped. *)
Definition fastProvider : Provider :=
  mkProvider (0, dxgi.mkDESC 4 2 1)
    (0, Some (dxgi.mkMAPPED_RECT 16 (map Z.of_nat (seq 0 32))))
    (0, zeroFrameInfo) (0, [], zeroShapeInfo) 0 (0, (4, 2))
    (0, None) (0, None) [] [] (0, None).

Definition resultOfSnapshot (o : Provider) (d : OutputDuplicator)
  : result Snapshot_ok :=
  match Snapshot o 0 d with
  | Some (r, _, _) => r
  | None => Fail ErrNoImageYet
  end.

(** A provider whose GetFramePointerShape returns S_FALSE, a status
    without the failure bit. *)
Definition sFalseProvider : Provider :=
  mkProvider (0, dxgi.mkDESC 4 2 0) (0, None) (0, shapeFrame 1 0)
    (1, [1; 2; 3; 4], zeroShapeInfo) 0 (0, (4, 2)) (0, Some 5%nat)
    (0, Some 6%nat) [] [] (0, None).

(** A call that succeeded, by its status. *)
Definition succeeded (a : Z * option handle) : bool :=
  negb (d3d.Failed (d3d.HRESULT (fst a))).

(** The answers with which the constructor returns a duplicator: the
    debug interface is absent or yields its info queue; the DXGI device,
    its adapter, the output and its IDXGIOutput5 are obtained; and the
    duplication is made by DuplicateOutput1 or, failing that, through
    IDXGIOutput1. *)
Definition buildable (f : Factory) : bool :=
  (negb (succeeded (f_QueryDebug f)) || succeeded (f_QueryInfoQueue f))
  && succeeded (f_QueryDevice1 f)
  && succeeded (f_GetParent f)
  && negb (d3d.Failed (d3d.HRESULT (Go.int32 (fst (f_EnumOutputs f)))))
  && succeeded (f_QueryOutput5 f)
  && (succeeded (f_DuplicateOutput1 f)
      || (succeeded (f_QueryOutput1 f) && succeeded (f_DuplicateOutput f))).

Definition iface_eqb (i j : iface) : bool :=
  match i, j with
  | ID3D11Device, ID3D11Device | ID3D11Debug, ID3D11Debug
  | ID3D11InfoQueue, ID3D11InfoQueue | IDXGIDevice1, IDXGIDevice1
  | IDXGIAdapter1, IDXGIAdapter1 | IDXGIOutput, IDXGIOutput
  | IDXGIOutput5, IDXGIOutput5 | IDXGIOutput1, IDXGIOutput1
  | IDXGIOutputDuplication, IDXGIOutputDuplication => true
  | _, _ => false
  end.

(** The interface a call hands out, when it succeeds. *)
Definition obtains (e : setupEvent) : option iface :=
  match e with
  | SvQueryInterface _ iid hr =>
      if d3d.Failed (d3d.HRESULT hr) then None else Some iid
  | SvGetParent hr =>
      if d3d.Failed (d3d.HRESULT hr) then None else Some IDXGIAdapter1
  | SvEnumOutputs _ hr =>
      if d3d.Failed (d3d.HRESULT hr) then None else Some IDXGIOutput
  | SvDuplicateOutput1 _ hr | SvDuplicateOutput hr =>
      if d3d.Failed (d3d.HRESULT hr) then None else Some IDXGIOutputDuplication
  | SvRelease _ => None
  end.

Definition is_release (e : setupEvent) : bool :=
  match e with
  | SvRelease _ => true
  | _ => false
  end.

(** How often an interface is handed out, and how often released, in a
    trace of the constructor. *)
Definition obtained (i : iface) (t : list setupEvent) : nat :=
  length (filter (fun e => match obtains e with
                           | Some j => iface_eqb i j
                           | None => false
                           end) t).

Definition released_count (i : iface) (t : list setupEvent) : nat :=
  length (filter (fun e => match e with
                           | SvRelease j => iface_eqb i j
                           | _ => false
                           end) t).

(** The interfaces a built duplicator keeps for itself. *)
Definition retained (r : setupResult) (i : iface) : bool :=
  match r, i with
  | Built _, IDXGIOutput5 | Built _, IDXGIOutputDuplication => true
  | _, _ => false
  end.

(** The statuses E_NOINTERFACE and DXGI_ERROR_UNSUPPORTED as the 32-bit
    integers a call returns. *)
Definition hrNoInterface : Z := Go.int32 0x80004002.
Definition hrUnsupported : Z := Go.int32 0x887A0004.

(** A system without the debug layer on which DuplicateOutput1 is not
    supported: the duplication comes from IDXGIOutput1. *)
Definition legacyFactory : Factory :=
  mkFactory (hrNoInterface, None) (0, None) (0, Some 11%nat) (0, Some 12%nat)
    (0, Some 13%nat) (0, Some 14%nat) (hrUnsupported, None) (0, Some 15%nat)
    (0, Some 16%nat).

(** A destination image of 4 by 2 pixels. *)
Definition blankImage : image.RGBA :=
  image.mkRGBA (repeat 0 32) 16 (image.mkRect 0 0 4 2).

(** A frame with one accumulated update, no metadata and a mouse update
    that carries a new pointer shape. *)
Definition mouseFrameProvider : Provider :=
  provider 0 (shapeFrame 1 0) [10; 20; 30; 255] (dxgi.mkSHAPE_INFO 2 1 1 4) [] [].

(** A duplicator whose staging texture and surface exist. *)
Definition stagedDup : OutputDuplicator :=
  set_surface (Some 6%nat) (set_stagedTex (Some 5%nat) (newDup false)).

(** The image that DrawCursor makes of [greenRow] with the marker
    cursor over its middle pixel on a dark background. *)
Definition greenRowDrawn : image.RGBA :=
  image.mkRGBA [0; 137; 4; 255; 255; 255; 255; 255; 0; 137; 4; 255] 12
    (image.mkRect 0 0 3 1).

(* ================================================================== *)
(** ** Running the monad *)

Section Run.

Context {A B : Type}.

Lemma run_get {C} (f : OutputDuplicator -> C) (k : C -> M B) d :
  (x <- get f ;; k x) d = k (f d) d.
Proof.
  unfold bind, get. destruct (k (f d) d) as [[[r d2] t2]|]; reflexivity.
Qed.

Lemma run_ret (a : A) (k : A -> M B) d :
  (x <- ret a ;; k x) d = k a d.
Proof.
  unfold bind, ret. destruct (k a d) as [[[r d2] t2]|]; reflexivity.
Qed.

Lemma run_fail (e : error) (k : A -> M B) d :
  (x <- fail e ;; k x) d = Some (Fail e, d, []).
Proof. reflexivity. Qed.

Lemma run_modify (f : OutputDuplicator -> OutputDuplicator) (k : unit -> M B) d :
  (x <- modify f ;; k x) d = k tt (f d).
Proof.
  unfold bind, modify. destruct (k tt (f d)) as [[[r d2] t2]|]; reflexivity.
Qed.

Lemma run_emit (e : event) (k : unit -> M B) d :
  (x <- emit e ;; k x) d =
  match k tt d with
  | Some (r, d2, t2) => Some (r, d2, e :: t2)
  | None => None
  end.
Proof. reflexivity. Qed.

Lemma run_deref (f : OutputDuplicator -> option handle) (k : handle -> M B) d h :
  f d = Some h -> (x <- deref f ;; k x) d = k h d.
Proof.
  intros H. unfold bind, deref. rewrite H.
  destruct (k h d) as [[[r d2] t2]|]; reflexivity.
Qed.

Lemma run_lift (o : option A) (k : A -> M B) d a :
  o = Some a -> (x <- lift o ;; k x) d = k a d.
Proof.
  intros ->. unfold bind, lift.
  destruct (k a d) as [[[r d2] t2]|]; reflexivity.
Qed.

Lemma run_deref_nil (f : OutputDuplicator -> option handle) (k : handle -> M B) d :
  f d = None -> (x <- deref f ;; k x) d = None.
Proof. intros H. unfold bind, deref. now rewrite H. Qed.

Lemma run_lift_nil (k : A -> M B) d : (x <- lift None ;; k x) d = None.
Proof. reflexivity. Qed.


Lemma run_bind_ok (m : M A) (k : A -> M B) d a d1 t1 :
  m d = Some (Ok a, d1, t1) ->
  (x <- m ;; k x) d =
  match k a d1 with
  | Some (r, d2, t2) => Some (r, d2, t1 ++ t2)
  | None => None
  end.
Proof. intros H. unfold bind. now rewrite H. Qed.

Lemma run_assoc {C} (m : M A) (f : A -> M B) (g : B -> M C) d :
  (y <- (x <- m ;; f x) ;; g y) d = (x <- m ;; y <- f x ;; g y) d.
Proof.
  unfold bind. destruct (m d) as [[[[a|e] d1] t1]|]; try reflexivity.
  destruct (f a d1) as [[[[b|e] d2] t2]|]; try reflexivity.
  destruct (g b d2) as [[[r d3] t3]|]; try reflexivity.
  now rewrite app_assoc.
Qed.

(** What a bind that returned went through. *)
Lemma bind_inv (m : M A) (f : A -> M B) d r d' t :
  (x <- m ;; f x) d = Some (r, d', t) ->
  (exists e, m d = Some (Fail e, d', t) /\ r = Fail e)
  \/ (exists a d1 t1 t2,
         m d = Some (Ok a, d1, t1) /\ f a d1 = Some (r, d', t2) /\ t = t1 ++ t2).
Proof.
  unfold bind. destruct (m d) as [[[[a|e] d1] t1]|]; try discriminate.
  - destruct (f a d1) as [[[r2 d2] t2]|] eqn:E; try discriminate.
    intros H. injection H as <- <- <-. right. now exists a, d1, t1, t2.
  - intros H. injection H as <- <- <-. left. now exists e.
Qed.

End Run.

Lemma defer_inv {A} (cleanup : M unit) (body : M A) d r d' t :
  defer cleanup body d = Some (r, d', t) ->
  exists d1 t1 u t2,
    body d = Some (r, d1, t1) /\ cleanup d1 = Some (u, d', t2) /\ t = t1 ++ t2.
Proof.
  unfold defer. destruct (body d) as [[[r1 d1] t1]|]; try discriminate.
  destruct (cleanup d1) as [[[u d2] t2]|] eqn:E; try discriminate.
  intros H. injection H as <- <- <-. now exists d1, t1, u, t2.
Qed.

(* ================================================================== *)
(** ** ReleaseFrame and Release *)

Lemma ReleaseFrame_not_acquired d :
  acquiredFrame d = false -> ReleaseFrame d = Some (Ok tt, d, []).
Proof.
  intros H. unfold ReleaseFrame. rewrite run_get, H. reflexivity.
Qed.

Lemma ReleaseFrame_acquired d h :
  acquiredFrame d = true -> outputDuplication d = Some h ->
  ReleaseFrame d = Some (Ok tt, set_acquiredFrame false d, [EvReleaseFrame]).
Proof.
  intros H Ho. unfold ReleaseFrame. rewrite run_get, H.
  rewrite (run_deref _ _ _ h Ho). reflexivity.
Qed.

(** ReleaseFrame returns unless it must call through a nil pointer, it
    never returns an error, and it leaves the flag cleared. *)
Lemma ReleaseFrame_inv d r d' t :
  ReleaseFrame d = Some (r, d', t) ->
  r = Ok tt /\ d' = set_acquiredFrame false d
  /\ t = (if acquiredFrame d then [EvReleaseFrame] else []).
Proof.
  unfold ReleaseFrame. rewrite run_get.
  destruct (acquiredFrame d) eqn:E.
  - destruct (outputDuplication d) as [h|] eqn:Ho.
    + rewrite (run_deref _ _ _ h Ho). cbn. intros H. injection H as <- <- <-. auto.
    + unfold bind, deref. rewrite Ho. discriminate.
  - cbn. intros H. injection H as <- <- <-. repeat split.
    destruct d; cbn in *; subst; reflexivity.
Qed.

Lemma release_field_nil f e clear d :
  f d = None -> release_field f e clear d = Some (Ok tt, d, []).
Proof. intros H. unfold release_field. rewrite run_get, H. reflexivity. Qed.

Lemma release_field_set f e clear d h :
  f d = Some h -> release_field f e clear d = Some (Ok tt, clear d, [e]).
Proof. intros H. unfold release_field. rewrite run_get, H. reflexivity. Qed.

Lemma Release_released d :
  released d -> Release d = Some (Ok tt, d, []).
Proof.
  intros (Ha & Hs & Hf & Ho & Hx). unfold Release.
  unfold bind. rewrite (ReleaseFrame_not_acquired d Ha).
  rewrite (release_field_nil _ _ _ d Hs), (release_field_nil _ _ _ d Hf),
    (release_field_nil _ _ _ d Ho), (release_field_nil _ _ _ d Hx).
  reflexivity.
Qed.

Lemma release_field_inv f e clear d r d' t :
  release_field f e clear d = Some (r, d', t) ->
  r = Ok tt /\ d' = (match f d with Some _ => clear d | None => d end).
Proof.
  unfold release_field. rewrite run_get. destruct (f d); cbn.
  - intros H. injection H as <- <- <-. auto.
  - intros H. injection H as <- <- <-. auto.
Qed.

Lemma Release_inv d r d' t :
  Release d = Some (r, d', t) -> r = Ok tt /\ released d'.
Proof.
  unfold Release. intros H.
  apply bind_inv in H. destruct H as [(e & H & _) | (a & d1 & t1 & t2 & H1 & H & _)].
  { apply ReleaseFrame_inv in H. destruct H as (H & _). discriminate. }
  apply ReleaseFrame_inv in H1. destruct H1 as (_ & -> & _).
  apply bind_inv in H. destruct H as [(e & H & _) | (a2 & d2 & t3 & t4 & H2 & H & _)].
  { apply release_field_inv in H. destruct H as (H & _). discriminate. }
  apply release_field_inv in H2. destruct H2 as (_ & ->).
  apply bind_inv in H. destruct H as [(e & H & _) | (a3 & d3 & t5 & t6 & H3 & H & _)].
  { apply release_field_inv in H. destruct H as (H & _). discriminate. }
  apply release_field_inv in H3. destruct H3 as (_ & ->).
  apply bind_inv in H. destruct H as [(e & H & _) | (a4 & d4 & t7 & t8 & H4 & H & _)].
  { apply release_field_inv in H. destruct H as (H & _). discriminate. }
  apply release_field_inv in H4. destruct H4 as (_ & ->).
  apply release_field_inv in H. destruct H as (-> & ->).
  split; [reflexivity|].
  unfold released.
  destruct d as [dv dc od dx st sf mr sz pinfo dp up dr mv af ns]; cbn.
  destruct st, sf, od, dx; cbn; repeat split; reflexivity.
Qed.

(** C9. Releasing twice in a row is a no-op the second time: after
    ReleaseFrame, a second ReleaseFrame makes no call to the provider and
    leaves the duplicator as it is; after Release, a second Release makes
    no call and leaves the duplicator as it is.  The first call returns
    whenever a frame marked as acquired has a duplication interface to be
    released through. *)
Theorem release_twice_is_noop (d : OutputDuplicator) :
  (acquiredFrame d = true -> outputDuplication d <> None) ->
  exists dF tF dR tR,
    ReleaseFrame d = Some (Ok tt, dF, tF)
    /\ ReleaseFrame dF = Some (Ok tt, dF, [])
    /\ Release d = Some (Ok tt, dR, tR)
    /\ Release dR = Some (Ok tt, dR, []).
Proof.
  intros H.
  assert (HF : exists dF tF, ReleaseFrame d = Some (Ok tt, dF, tF)).
  { destruct (acquiredFrame d) eqn:Ea.
    - destruct (outputDuplication d) as [h|] eqn:Eo; [|now destruct H].
      rewrite (ReleaseFrame_acquired d h Ea Eo). eauto.
    - rewrite (ReleaseFrame_not_acquired d Ea). eauto. }
  assert (HR : exists dR tR, Release d = Some (Ok tt, dR, tR)).
  { destruct d as [dv dc od dx st sf mr sz pinfo dp up dr mv af ns]; cbn in H.
    destruct af.
    - destruct od as [h|]; [|now destruct H].
      destruct st, sf, dx; cbn; eauto.
    - destruct od, st, sf, dx; cbn; eauto. }
  destruct HF as (dF & tF & HF), HR as (dR & tR & HR).
  exists dF, tF, dR, tR. repeat split; trivial.
  - apply ReleaseFrame_not_acquired.
    apply ReleaseFrame_inv in HF. destruct HF as (_ & -> & _). reflexivity.
  - apply Release_released. now apply Release_inv in HR.
Qed.

Lemma release_twice_is_noop_witness :
  exists dF tF dR tR,
    ReleaseFrame (set_acquiredFrame true (newDup false)) = Some (Ok tt, dF, tF)
    /\ ReleaseFrame dF = Some (Ok tt, dF, [])
    /\ Release (set_acquiredFrame true (newDup false)) = Some (Ok tt, dR, tR)
    /\ Release dR = Some (Ok tt, dR, []).
Proof.
  apply (release_twice_is_noop (set_acquiredFrame true (newDup false))).
  intros _. discriminate.
Defined.

(* ================================================================== *)
(** ** Snapshot, the fast path *)

Ltac run_step :=
  first [ rewrite run_get | rewrite run_ret | rewrite run_modify
        | rewrite run_emit | rewrite run_fail
        | erewrite run_deref by eassumption
        | rewrite run_assoc ].

Ltac run := repeat (run_step; cbv beta iota zeta).

(** A call through an interface pointer or a step that may panic: both
    cases, the panic closed when the goal supposes a return. *)
Ltac run_case :=
  match goal with
  | |- context [bind (deref ?f) ?k ?d0] =>
      let Eo := fresh "Eo" in
      let h := fresh "h" in
      destruct (f d0) as [h|] eqn:Eo;
      [ rewrite (run_deref f k d0 h Eo)
      | rewrite (run_deref_nil f k d0 Eo); try (cbn; discriminate) ]
  | |- context [bind (lift ?x) ?k ?d0] =>
      let El := fresh "El" in
      destruct x eqn:El;
      [ rewrite (run_lift _ k d0 _ eq_refl)
      | rewrite run_lift_nil; try (cbn; discriminate) ]
  end; cbv beta iota zeta.

Ltac run_all := repeat first [ progress run | run_case ].

(** C10. When GetDesc reports the desktop image in system memory and
    MapDesktopSurface succeeds, Snapshot returns the mapped desktop
    surface at once: its only calls are GetDesc and MapDesktopSurface (no
    frame is released or acquired, no pointer shape is fetched), whatever
    UpdatePointerInfo says, and of the duplicator only size and
    mappedRect are assigned. *)
Theorem snapshot_fast_path (o : Provider) (timeoutMs : Z) (d : OutputDuplicator)
  (h : handle) (hrD : Z) (desc : dxgi.DXGI_OUTDUPL_DESC)
  (hrM : Z) (m : option dxgi.DXGI_MAPPED_RECT) :
  outputDuplication d = Some h ->
  r_GetDesc o = (hrD, desc) ->
  d3d.Failed (d3d.HRESULT hrD) = false ->
  dxgi.DesktopImageInSystemMemory desc <> 0 ->
  r_MapDesktopSurface o = (hrM, m) ->
  d3d.Failed (d3d.HRESULT hrM) = false ->
  exists d',
    Snapshot o timeoutMs d =
      Some (Ok (mkSnap UnMapDesktopSurface (mappedRect d') (size d')), d',
            [EvGetDesc; EvMapDesktopSurface])
    /\ size d' = dxgi.mkPOINT (Go.int32 (dxgi.ModeDesc_Width desc))
                              (Go.int32 (dxgi.ModeDesc_Height desc))
    /\ mappedRect d' = match m with Some r => r | None => mappedRect d end
    /\ d' = set_mappedRect (mappedRect d') (set_size (size d') d).
Proof.
  intros Ho Hd HfD Hmem Hm HfM.
  unfold Snapshot. run. rewrite Hd. cbv beta iota zeta. rewrite HfD.
  unfold mapDesktop.
  apply Z.eqb_neq in Hmem. rewrite Hmem. cbn [negb].
  run. rewrite Hm. cbv beta iota zeta.
  destruct m as [r|]; run; rewrite HfM; cbn [negb]; run;
    (eexists; split; [reflexivity|]); cbn; repeat split;
    destruct d; reflexivity.
Qed.

Lemma snapshot_fast_path_witness :
  exists d',
    Snapshot
      (mkProvider (0, dxgi.mkDESC 4 2 1) (0, Some (dxgi.mkMAPPED_RECT 16 []))
         (0, zeroFrameInfo) (0, [], zeroShapeInfo) 0 (0, (4, 2))
         (0, None) (0, None) [] [] (0, None))
      0 (set_acquiredFrame true (newDup false)) =
      Some (Ok (mkSnap UnMapDesktopSurface (mappedRect d') (size d')), d',
            [EvGetDesc; EvMapDesktopSurface])
    /\ size d' = dxgi.mkPOINT (Go.int32 4) (Go.int32 2)
    /\ mappedRect d' = dxgi.mkMAPPED_RECT 16 []
    /\ d' = set_mappedRect (mappedRect d') (set_size (size d')
              (set_acquiredFrame true (newDup false))).
Proof.
  apply (snapshot_fast_path _ 0 (set_acquiredFrame true (newDup false)) 3%nat
           0 (dxgi.mkDESC 4 2 1) 0 (Some (dxgi.mkMAPPED_RECT 16 [])));
    try reflexivity.
  discriminate.
Defined.

(* ================================================================== *)
(** ** What a method keeps: a relation between the duplicator before and
    after, and a test that every event of the trace passes *)

Section Keeps.

Variable R : OutputDuplicator -> OutputDuplicator -> Prop.
Variable Q : event -> bool.
Hypothesis R_refl : forall d, R d d.
Hypothesis R_trans : forall d1 d2 d3, R d1 d2 -> R d2 d3 -> R d1 d3.

Local Abbreviation keeps := (keeps R Q).

Lemma keeps_ret {A} (a : A) : keeps (ret a).
Proof. intros d r d' t H. injection H as <- <- <-. auto. Qed.

Lemma keeps_fail {A} (e : error) : keeps (@fail A e).
Proof. intros d r d' t H. injection H as <- <- <-. auto. Qed.

Lemma keeps_get {A} (f : OutputDuplicator -> A) : keeps (get f).
Proof. intros d r d' t H. injection H as <- <- <-. auto. Qed.

Lemma keeps_emit (e : event) : Q e = true -> keeps (emit e).
Proof.
  intros He d r d' t H. injection H as <- <- <-. cbn. rewrite He. auto.
Qed.

Lemma keeps_modify (f : OutputDuplicator -> OutputDuplicator) :
  (forall d, R d (f d)) -> keeps (modify f).
Proof. intros Hf d r d' t H. injection H as <- <- <-. auto. Qed.

Lemma keeps_deref (f : OutputDuplicator -> option handle) : keeps (deref f).
Proof.
  intros d r d' t. unfold deref. destruct (f d); [|discriminate].
  intros H. injection H as <- <- <-. auto.
Qed.

Lemma keeps_lift {A} (o : option A) : keeps (lift o).
Proof.
  intros d r d' t. unfold lift. destruct o; [|discriminate].
  intros H. injection H as <- <- <-. auto.
Qed.

Lemma keeps_bind {A B} (m : M A) (f : A -> M B) :
  keeps m -> (forall a, keeps (f a)) -> keeps (x <- m ;; f x).
Proof.
  intros Hm Hf d r d' t H. apply bind_inv in H.
  destruct H as [(e & H & _) | (a & d1 & t1 & t2 & H1 & H2 & ->)].
  - exact (Hm _ _ _ _ H).
  - destruct (Hm _ _ _ _ H1) as (R1 & Q1), (Hf a _ _ _ _ H2) as (R2 & Q2).
    split; [eauto|]. rewrite forallb_app, Q1, Q2. reflexivity.
Qed.

Lemma keeps_defer {A} (c : M unit) (m : M A) :
  keeps c -> keeps m -> keeps (defer c m).
Proof.
  intros Hc Hm d r d' t H. apply defer_inv in H.
  destruct H as (d1 & t1 & u & t2 & H1 & H2 & ->).
  destruct (Hm _ _ _ _ H1) as (R1 & Q1), (Hc _ _ _ _ H2) as (R2 & Q2).
  split; [eauto|]. rewrite forallb_app, Q1, Q2. reflexivity.
Qed.

Lemma keeps_if {A} (b : bool) (m1 m2 : M A) :
  keeps m1 -> keeps m2 -> keeps (if b then m1 else m2).
Proof. destruct b; auto. Qed.

Lemma keeps_fetchRects {A} (zero : A) (evMake evCall : Z -> event) answers :
  (forall n, Q (evMake n) = true) -> (forall n, Q (evCall n) = true) ->
  forall buf required b st t,
    fetchRects zero evMake evCall answers buf required = Some (b, st, t) ->
    forallb Q t = true.
Proof.
  intros HM HC. induction answers as [|[[hr req] written] rest IH];
    intros buf required b st t; cbn [fetchRects]; [discriminate|].
  set (grown := Go.slice_len buf <? required).
  set (buf1 := if grown then Go.make zero required else buf).
  assert (Ht1 : forallb Q ((if grown then [evMake required] else [])
                             ++ [evCall (Go.slice_len buf1)]) = true).
  { rewrite forallb_app. destruct grown; cbn; rewrite ?HM, ?HC; reflexivity. }
  destruct (d3d.Failed (d3d.HRESULT hr)).
  - destruct (d3d.HRESULT hr =? d3d.DXGI_ERROR_MORE_DATA).
    + destruct (fetchRects zero evMake evCall rest _ _) as [[[b2 st2] t2]|] eqn:E;
        [|discriminate].
      intros H. injection H as <- <- <-.
      rewrite forallb_app, Ht1. cbn. exact (IH _ _ _ _ _ E).
    + intros H. injection H as <- <- <-. exact Ht1.
  - destruct (Go.upto _ _); [|discriminate].
    intros H. injection H as <- <- <-. exact Ht1.
Qed.

End Keeps.

Create HintDb keeps discriminated.
#[export] Hint Resolve keeps_ret keeps_fail keeps_get keeps_deref keeps_lift
  keeps_bind keeps_defer keeps_if : keeps.

Ltac keeps_step :=
  match goal with
  | |- keeps _ _ (bind _ _) => apply keeps_bind; [ | | intros ? ]
  | |- keeps _ _ (defer _ _) => apply keeps_defer
  | |- keeps _ _ (ret _) => apply keeps_ret
  | |- keeps _ _ (fail _) => apply keeps_fail
  | |- keeps _ _ (get _) => apply keeps_get
  | |- keeps _ _ (deref _) => apply keeps_deref
  | |- keeps _ _ (lift _) => apply keeps_lift
  | |- keeps _ _ (emit _) => apply keeps_emit; [ | reflexivity ]
  | |- keeps _ _ (modify _) => apply keeps_modify
  | |- keeps _ _ (modify_pointer _) => apply keeps_modify
  | |- keeps _ _ (set_outPix _) => apply keeps_modify
  | |- keeps _ _ (if ?b then _ else _) => destruct b
  | |- keeps _ _ (match ?x with _ => _ end) => destruct x
  end.

(* ================================================================== *)
(** ** The frame flag across Snapshot *)

Lemma same_frame_refl d : same_frame d d.
Proof. split; reflexivity. Qed.

Lemma same_frame_trans d1 d2 d3 :
  same_frame d1 d2 -> same_frame d2 d3 -> same_frame d1 d3.
Proof. intros [A1 B1] [A2 B2]. split; congruence. Qed.

#[export] Hint Resolve same_frame_refl : keeps.

Ltac frame_quiet :=
  repeat (keeps_step;
          try exact same_frame_refl; try exact same_frame_trans;
          try (intros; split; reflexivity)).

Lemma updatePointer_same_frame o info :
  keeps same_frame not_frame_event (updatePointer o info).
Proof.
  unfold updatePointer, decodeShape.
  destruct (r_GetFramePointerShape o) as [[hr written] shape].
  frame_quiet.
Qed.

Lemma initializeStage_same_frame o :
  keeps same_frame not_frame_event (initializeStage o).
Proof.
  unfold initializeStage.
  destruct (r_TextureGetDesc o) as [hr [w h]].
  destruct (r_CreateTexture2D o) as [hr2 tex].
  destruct (r_StagedTexQueryInterface o) as [hr3 srf].
  frame_quiet.
Qed.

Lemma emit_all_keeps R Q l :
  (forall d, R d d) -> (forall d1 d2 d3, R d1 d2 -> R d2 d3 -> R d1 d3) ->
  forallb Q l = true -> keeps R Q (emit_all l).
Proof.
  intros Hr Ht. induction l as [|e l IH]; cbn [emit_all forallb]; intros H.
  - now apply keeps_ret.
  - apply andb_prop in H. destruct H as [He Hl].
    repeat (apply keeps_bind; trivial; try intros ?).
    + now apply keeps_deref.
    + now apply keeps_emit.
    + auto.
Qed.

Lemma fetchMoveRects_same_frame o :
  keeps same_frame not_frame_event (fetchMoveRects o).
Proof.
  unfold fetchMoveRects.
  apply keeps_bind; [exact same_frame_trans | apply keeps_deref, same_frame_refl | intros _].
  apply keeps_bind; [exact same_frame_trans | apply keeps_get, same_frame_refl | intros buf].
  intros d r d' t.
  destruct (fetchRects _ _ _ _ _ _) as [[[b st] t']|] eqn:E; [|discriminate].
  apply keeps_fetchRects with (Q := not_frame_event) in E; try reflexivity.
  destruct st; intros H; injection H as <- <- <-; (split; [split; reflexivity|exact E]).
Qed.

Lemma fetchDirtyRects_same_frame o :
  keeps same_frame not_frame_event (fetchDirtyRects o).
Proof.
  unfold fetchDirtyRects.
  apply keeps_bind; [exact same_frame_trans | apply keeps_deref, same_frame_refl | intros _].
  apply keeps_bind; [exact same_frame_trans | apply keeps_get, same_frame_refl | intros buf].
  intros d r d' t.
  destruct (fetchRects _ _ _ _ _ _) as [[[b st] t']|] eqn:E; [|discriminate].
  apply keeps_fetchRects with (Q := not_frame_event) in E; try reflexivity.
  destruct st; intros H; injection H as <- <- <-; (split; [split; reflexivity|exact E]).
Qed.

Lemma boxCopies_not_frame l : forallb not_frame_event (map boxCopy l) = true.
Proof. induction l; cbn; auto. Qed.

Lemma copyFrame_same_frame o info :
  keeps same_frame not_frame_event (copyFrame o info).
Proof.
  unfold copyFrame.
  destruct (0 <? dxgi.TotalMetadataBufferSize info).
  - apply keeps_bind; [exact same_frame_trans | apply fetchMoveRects_same_frame | intros _].
    apply keeps_bind; [exact same_frame_trans | apply fetchDirtyRects_same_frame | intros _].
    apply keeps_bind; [exact same_frame_trans | apply keeps_get, same_frame_refl | intros moved].
    destruct (Go.slice_len moved =? 0).
    + apply keeps_bind; [exact same_frame_trans | apply keeps_get, same_frame_refl | intros dirty].
      apply emit_all_keeps;
        [exact same_frame_refl | exact same_frame_trans | apply boxCopies_not_frame].
    + apply emit_all_keeps;
        [exact same_frame_refl | exact same_frame_trans | reflexivity].
  - apply keeps_bind; [exact same_frame_trans | | intros _].
    + apply emit_all_keeps;
        [exact same_frame_refl | exact same_frame_trans | reflexivity].
    + frame_quiet.
Qed.

Lemma withFrame_same_frame o info :
  keeps same_frame not_frame_event (withFrame o info).
Proof.
  unfold withFrame.
  destruct (r_SurfaceMap o) as [hr m].
  apply keeps_bind; [exact same_frame_trans | apply keeps_get, same_frame_refl | intros upd].
  apply keeps_bind; [exact same_frame_trans | | intros _].
  { destruct upd; [apply updatePointer_same_frame | apply keeps_ret, same_frame_refl]. }
  destruct (dxgi.AccumulatedFrames info =? 0); [apply keeps_fail, same_frame_refl|].
  apply keeps_bind; [exact same_frame_trans | now apply keeps_emit | intros _].
  destruct (d3d.Failed _); [apply keeps_fail, same_frame_refl|].
  apply keeps_defer; [exact same_frame_trans | now apply keeps_emit | ].
  apply keeps_bind; [exact same_frame_trans | apply keeps_get, same_frame_refl | intros staged].
  apply keeps_bind; [exact same_frame_trans | | intros _].
  { destruct staged; [apply keeps_ret, same_frame_refl|].
    apply keeps_bind; [exact same_frame_trans | apply initializeStage_same_frame | intros hr2].
    destruct (d3d.Failed _); [apply keeps_fail | apply keeps_ret]; apply same_frame_refl. }
  apply keeps_bind; [exact same_frame_trans | apply copyFrame_same_frame | intros _].
  frame_quiet.
Qed.

Lemma held_after_app h t1 t2 :
  held_after h (t1 ++ t2) = held_after (held_after h t1) t2.
Proof.
  revert h. induction t1 as [|e t1 IH]; intros h; [reflexivity|].
  destruct e; cbn; apply IH.
Qed.

Lemma one_frame_at_most_app h t1 t2 :
  one_frame_at_most h (t1 ++ t2) =
  one_frame_at_most h t1 && one_frame_at_most (held_after h t1) t2.
Proof.
  revert h. induction t1 as [|e t1 IH]; intros h; [reflexivity|].
  destruct e; cbn; try apply IH.
  destruct (d3d.Failed _); [apply IH|].
  rewrite IH. now rewrite andb_assoc.
Qed.

Lemma held_after_quiet h t :
  forallb not_frame_event t = true -> held_after h t = h.
Proof.
  induction t as [|e t IH]; [reflexivity|]. cbn [forallb]. intros H.
  apply andb_prop in H. destruct H as [He Ht].
  destruct e; try discriminate; cbn; auto.
Qed.

Lemma one_frame_at_most_quiet h t :
  forallb not_frame_event t = true -> one_frame_at_most h t = true.
Proof.
  induction t as [|e t IH]; [reflexivity|]. cbn [forallb]. intros H.
  apply andb_prop in H. destruct H as [He Ht].
  destruct e; try discriminate; cbn; auto.
Qed.

Lemma mapDesktop_same_frame o desc :
  keeps same_frame not_frame_event (mapDesktop o desc).
Proof.
  unfold mapDesktop. destruct (r_MapDesktopSurface o) as [hr m]. frame_quiet.
Qed.

(** The trace of the acquiring part of Snapshot and the flag it leaves:
    either the acquisition failed, after the release of a frame marked as
    acquired, and the flag is left set; or a frame was acquired and
    released again, and the flag is clear. *)
Lemma acquireFrame_trace o timeoutMs d r d' tr :
  acquireFrame o timeoutMs d = Some (r, d', tr) ->
  (exists hrF,
      tr = (if acquiredFrame d then [EvReleaseFrame] else [])
             ++ [EvAcquireNextFrame (Go.uint32 timeoutMs) hrF]
      /\ d3d.Failed (d3d.HRESULT hrF) = true
      /\ hrF = fst (r_AcquireNextFrame o)
      /\ acquiredFrame d' = true)
  \/ (exists hrF t1,
        tr = (if acquiredFrame d then [EvReleaseFrame] else [])
               ++ [EvAcquireNextFrame (Go.uint32 timeoutMs) hrF]
               ++ t1 ++ [EvReleaseFrame]
        /\ d3d.Failed (d3d.HRESULT hrF) = false
        /\ forallb not_frame_event t1 = true
        /\ acquiredFrame d' = false).
Proof.
  unfold acquireFrame. intros E.
  apply bind_inv in E. destruct E as [(e & E & _) | (u & d1 & t1 & t3 & E1 & E & ->)].
  { apply ReleaseFrame_inv in E. destruct E as (E & _). discriminate. }
  apply ReleaseFrame_inv in E1. destruct E1 as (_ & -> & ->).
  destruct (outputDuplication (set_acquiredFrame false d)) as [h|] eqn:Eo;
    [|unfold bind, deref in E; rewrite Eo in E; discriminate].
  rewrite (run_deref _ _ _ h Eo) in E.
  destruct (r_AcquireNextFrame o) as [hrF frameInfo].
  rewrite run_emit, run_modify in E.
  destruct (d3d.Failed (d3d.HRESULT hrF)) eqn:EF.
  - left. exists hrF.
    destruct (d3d.HRESULT hrF =? _); cbn in E; injection E as <- <- <-; auto.
  - right.
    destruct (defer _ _ _) as [[[r3 d3] t4]|] eqn:ED in E; [|discriminate].
    injection E as <- <- <-.
    apply defer_inv in ED. destruct ED as (d4 & t5 & u2 & t6 & ED & ER & ->).
    apply defer_inv in ED. destruct ED as (d5 & t7 & u3 & t8 & EW & EE & ->).
    injection EE as <- <- <-.
    apply withFrame_same_frame in EW. destruct EW as ([Ha Hb] & Hq).
    apply ReleaseFrame_inv in ER. destruct ER as (_ & -> & ->).
    rewrite Ha. cbn [acquiredFrame set_acquiredFrame].
    exists hrF, (t7 ++ [EvDesktopRelease]). split; [|split; [exact EF|split]].
    + cbn. now rewrite <- !app_assoc.
    + rewrite forallb_app, Hq. reflexivity.
    + reflexivity.
Qed.

(** The shape of every trace of Snapshot, and the flag it leaves.
    Either no frame call was made (GetDesc failed, or the fast path was
    taken) and the flag is as before; or the acquiring part ran. *)
Lemma Snapshot_trace o timeoutMs d r d' tr :
  Snapshot o timeoutMs d = Some (r, d', tr) ->
  exists t0, forallb not_frame_event t0 = true /\
    ((tr = t0 /\ acquiredFrame d' = acquiredFrame d)
     \/ (exists hrF,
           tr = t0 ++ (if acquiredFrame d then [EvReleaseFrame] else [])
                   ++ [EvAcquireNextFrame (Go.uint32 timeoutMs) hrF]
           /\ d3d.Failed (d3d.HRESULT hrF) = true
           /\ hrF = fst (r_AcquireNextFrame o)
           /\ acquiredFrame d' = true)
     \/ (exists hrF t1,
           tr = t0 ++ (if acquiredFrame d then [EvReleaseFrame] else [])
                   ++ [EvAcquireNextFrame (Go.uint32 timeoutMs) hrF]
                   ++ t1 ++ [EvReleaseFrame]
           /\ d3d.Failed (d3d.HRESULT hrF) = false
           /\ forallb not_frame_event t1 = true
           /\ acquiredFrame d' = false)).
Proof.
  unfold Snapshot. intros H.
  destruct (outputDuplication d) as [h|] eqn:Eo;
    [|unfold bind, deref in H; rewrite Eo in H; discriminate].
  rewrite (run_deref _ _ _ h Eo), run_emit in H.
  destruct (r_GetDesc o) as [hrD desc].
  destruct (d3d.Failed (d3d.HRESULT hrD)).
  { cbn in H. injection H as <- <- <-. exists [EvGetDesc]. split; auto. }
  destruct (bind _ _ d) as [[[r2 d2] t2]|] eqn:E in H; [|discriminate].
  injection H as <- <- <-.
  apply bind_inv in E. destruct E as [(e & E & _) | (fast & d1 & t1 & t3 & E1 & E & ->)].
  { exists (EvGetDesc :: t2). apply mapDesktop_same_frame in E.
    destruct E as ([Ha _] & Hq). split; [exact Hq|]. left. auto. }
  apply mapDesktop_same_frame in E1. destruct E1 as ([Ha _] & Hq).
  destruct fast.
  - rewrite run_get in E. injection E as <- <- <-.
    exists (EvGetDesc :: t1 ++ []). rewrite app_nil_r. split; [exact Hq|]. left. auto.
  - exists (EvGetDesc :: t1). split; [exact Hq|]. right.
    apply acquireFrame_trace in E. rewrite Ha in E.
    destruct E as [(hrF & -> & E) | (hrF & t4 & -> & E)].
    + left. exists hrF. split; [reflexivity|exact E].
    + right. exists hrF, t4. split; [reflexivity|exact E].
Qed.

(** Snapshot never has two frames out, and a frame that the flag knew of
    on entry is not held on return unless no frame call was made. *)
Lemma Snapshot_one_frame o timeoutMs d r d' tr (held : bool) :
  Snapshot o timeoutMs d = Some (r, d', tr) ->
  (held = true -> acquiredFrame d = true) ->
  one_frame_at_most held tr = true.
Proof.
  intros H Hh. apply Snapshot_trace in H.
  destruct H as (t0 & Hq & [(-> & _) | [(hrF & -> & HF & _) | (hrF & t1 & -> & HF & Hq1 & _)]]).
  - now apply one_frame_at_most_quiet.
  - rewrite one_frame_at_most_app, (one_frame_at_most_quiet _ _ Hq), (held_after_quiet _ _ Hq).
    destruct (acquiredFrame d); cbn; rewrite HF; reflexivity.
  - rewrite one_frame_at_most_app, (one_frame_at_most_quiet _ _ Hq), (held_after_quiet _ _ Hq).
    assert (E : one_frame_at_most false
                  (EvAcquireNextFrame (Go.uint32 timeoutMs) hrF :: t1 ++ [EvReleaseFrame]) = true).
    { cbn. rewrite HF. cbn. rewrite one_frame_at_most_app, (one_frame_at_most_quiet _ _ Hq1).
      reflexivity. }
    destruct (acquiredFrame d) eqn:Ea; cbn [app one_frame_at_most andb]; [exact E|].
    destruct held; [now specialize (Hh eq_refl)|exact E].
Qed.

(** When Snapshot returns, the provider holds no frame, given that it
    held none on entry. *)
Lemma Snapshot_holds_no_frame o timeoutMs d r d' tr :
  Snapshot o timeoutMs d = Some (r, d', tr) ->
  held_after false tr = false.
Proof.
  intros H. apply Snapshot_trace in H.
  destruct H as (t0 & Hq & [(-> & _) | [(hrF & -> & HF & _) | (hrF & t1 & -> & HF & Hq1 & _)]]).
  - now apply held_after_quiet.
  - rewrite held_after_app, (held_after_quiet _ _ Hq).
    destruct (acquiredFrame d); cbn; rewrite HF; reflexivity.
  - rewrite held_after_app, (held_after_quiet _ _ Hq), !held_after_app.
    reflexivity.
Qed.

(** C2. On the exit of Snapshot after a provider timeout the flag does
    not say what the provider holds: a fresh duplicator whose
    AcquireNextFrame times out returns ErrNoImageYet with acquiredFrame
    set although no frame is held, and the next ReleaseFrame then calls
    the provider's ReleaseFrame with nothing to release. *)
Theorem snapshot_timeout_leaves_flag_set :
  exists d' tr,
    Snapshot timeoutProvider 0 (newDup false) = Some (Fail ErrNoImageYet, d', tr)
    /\ tr = [EvGetDesc; EvAcquireNextFrame 0 hrWaitTimeout]
    /\ held_after false tr = false
    /\ acquiredFrame d' = true
    /\ ReleaseFrame d' = Some (Ok tt, set_acquiredFrame false d', [EvReleaseFrame]).
Proof.
  eexists. eexists. split; [vm_compute; reflexivity|].
  repeat split; vm_compute; reflexivity.
Qed.

(* ================================================================== *)
(** ** The errors of Snapshot *)

Section FailsWith.

Variable E : error -> Prop.

Lemma fails_with_ret {A} (a : A) : fails_with E (ret a).
Proof. intros d r d' t e H. injection H as <- <- <-. discriminate. Qed.

Lemma fails_with_fail {A} (e : error) : E e -> fails_with E (@fail A e).
Proof. intros He d r d' t e' H. injection H as <- <- <-. congruence. Qed.

Lemma fails_with_get {A} (f : OutputDuplicator -> A) : fails_with E (get f).
Proof. intros d r d' t e H. injection H as <- <- <-. discriminate. Qed.

Lemma fails_with_emit (ev : event) : fails_with E (emit ev).
Proof. intros d r d' t e H. injection H as <- <- <-. discriminate. Qed.

Lemma fails_with_modify f : fails_with E (modify f).
Proof. intros d r d' t e H. injection H as <- <- <-. discriminate. Qed.

Lemma fails_with_deref f : fails_with E (deref f).
Proof.
  intros d r d' t e. unfold deref. destruct (f d); [|discriminate].
  intros H. injection H as <- <- <-. discriminate.
Qed.

Lemma fails_with_lift {A} (o : option A) : fails_with E (lift o).
Proof.
  intros d r d' t e. unfold lift. destruct o; [|discriminate].
  intros H. injection H as <- <- <-. discriminate.
Qed.

Lemma fails_with_bind {A B} (m : M A) (f : A -> M B) :
  fails_with E m -> (forall a, fails_with E (f a)) -> fails_with E (x <- m ;; f x).
Proof.
  intros Hm Hf d r d' t e H Hr. apply bind_inv in H.
  destruct H as [(e' & H & ->) | (a & d1 & t1 & t2 & H1 & H2 & ->)].
  - injection Hr as <-. exact (Hm _ _ _ _ _ H eq_refl).
  - exact (Hf a _ _ _ _ _ H2 Hr).
Qed.

Lemma fails_with_defer {A} (c : M unit) (m : M A) :
  fails_with E m -> fails_with E (defer c m).
Proof.
  intros Hm d r d' t e H Hr. apply defer_inv in H.
  destruct H as (d1 & t1 & u & t2 & H1 & H2 & ->).
  exact (Hm _ _ _ _ _ H1 Hr).
Qed.

End FailsWith.

Ltac fails_step :=
  match goal with
  | |- fails_with _ (bind _ _) => apply fails_with_bind; [ | intros ? ]
  | |- fails_with _ (defer _ _) => apply fails_with_defer
  | |- fails_with _ (ret _) => apply fails_with_ret
  | |- fails_with _ (fail _) => apply fails_with_fail
  | |- fails_with _ (get _) => apply fails_with_get
  | |- fails_with _ (deref _) => apply fails_with_deref
  | |- fails_with _ (lift _) => apply fails_with_lift
  | |- fails_with _ (emit _) => apply fails_with_emit
  | |- fails_with _ (modify _) => apply fails_with_modify
  | |- fails_with _ (modify_pointer _) => apply fails_with_modify
  | |- fails_with _ (set_outPix _) => apply fails_with_modify
  | |- fails_with _ (if ?b then _ else _) => destruct b
  | |- fails_with _ (match ?x with _ => _ end) => destruct x
  end.

Lemma emit_all_never_fails E l : fails_with E (emit_all l).
Proof.
  induction l as [|e l IH]; cbn [emit_all]; repeat fails_step. exact IH.
Qed.

Lemma initializeStage_never_fails E o : fails_with E (initializeStage o).
Proof.
  unfold initializeStage.
  destruct (r_TextureGetDesc o) as [hr [w h]].
  destruct (r_CreateTexture2D o) as [hr2 tex].
  destruct (r_StagedTexQueryInterface o) as [hr3 srf].
  repeat fails_step.
Qed.

Lemma copyFrame_errors o info :
  fails_with (fun e => e <> ErrNoImageYet) (copyFrame o info).
Proof.
  unfold copyFrame, fetchMoveRects, fetchDirtyRects.
  repeat first [ apply emit_all_never_fails | fails_step ].
  - intros d r d' t e.
    destruct (fetchRects _ _ _ _ _ _) as [[[b [hr|]] t']|]; try discriminate;
      intros H; injection H as <- <- <-; congruence.
  - intros d r d' t e.
    destruct (fetchRects _ _ _ _ _ _) as [[[b [hr|]] t']|]; try discriminate;
      intros H; injection H as <- <- <-; congruence.
Qed.

(** updatePointer returns the error that [pointerUpdateError] tells. *)
Lemma updatePointer_result o info d r d' t :
  updatePointer o info d = Some (r, d', t) ->
  r = match pointerUpdateError o info with
      | None => Ok tt
      | Some e => Fail e
      end.
Proof.
  unfold updatePointer, decodeShape, pointerUpdateError, modify_pointer, set_outPix.
  destruct (dxgi.LastMouseUpdateTime info =? 0).
  { intros H. injection H as <- <- <-. reflexivity. }
  run.
  destruct (dxgi.PointerShapeBufferSize info =? 0).
  { intros H. injection H as <- <- <-. reflexivity. }
  destruct (r_GetFramePointerShape o) as [[hr written] shape].
  run.
  match goal with |- context [if ?c then bind (emit _) _ else _] => destruct c end;
    run_all.
  all: destruct (negb (hr =? 0));
    [cbn; intros H; injection H as <- <- <-; reflexivity|].
  all: run_all.
  all: destruct (dxgi.Type_ shape =? dxgi.DXGI_OUTDUPL_POINTER_SHAPE_TYPE_MONOCHROME);
    cbn [orb];
    [|destruct (dxgi.Type_ shape =? dxgi.DXGI_OUTDUPL_POINTER_SHAPE_TYPE_COLOR);
      cbn [orb];
      [|destruct (dxgi.Type_ shape =? dxgi.DXGI_OUTDUPL_POINTER_SHAPE_TYPE_MASKED_COLOR);
        cbn [orb]]].
  all: run_all.
  all: cbn; intros H; injection H as <- <- <-; reflexivity.
Qed.

Lemma pointerUpdateError_not_no_image o info :
  pointerUpdateError o info <> Some ErrNoImageYet.
Proof.
  unfold pointerUpdateError.
  destruct (_ =? 0); [discriminate|]. destruct (_ =? 0); [discriminate|].
  destruct (r_GetFramePointerShape o) as [[hr written] shape].
  destruct (negb _); [discriminate|]. destruct (_ || _); discriminate.
Qed.

(** With the frame in hand, ErrNoImageYet is returned exactly when the
    pointer update, if enabled, did not fail and no frame was
    accumulated. *)
Lemma withFrame_no_image o info d r d' t :
  withFrame o info d = Some (r, d', t) ->
  (r = Fail ErrNoImageYet <->
   dxgi.AccumulatedFrames info = 0
   /\ (UpdatePointerInfo d = true -> pointerUpdateError o info = None)).
Proof.
  unfold withFrame. rewrite run_get. intros H.
  apply bind_inv in H.
  destruct H as [(e & H & ->) | (a & d1 & t1 & t2 & H1 & H2 & ->)].
  - destruct (UpdatePointerInfo d); [|discriminate].
    apply updatePointer_result in H.
    pose proof (pointerUpdateError_not_no_image o info) as Hn.
    destruct (pointerUpdateError o info) as [e'|]; [|discriminate].
    injection H as ->. split.
    + intros E. injection E as ->. now destruct Hn.
    + intros [_ E]. specialize (E eq_refl). discriminate.
  - assert (Hp : UpdatePointerInfo d = true -> pointerUpdateError o info = None).
    { intros Hu. rewrite Hu in H1. apply updatePointer_result in H1.
      destruct (pointerUpdateError o info); [discriminate|reflexivity]. }
    destruct (dxgi.AccumulatedFrames info =? 0) eqn:Ea.
    + injection H2 as <- <- <-. apply Z.eqb_eq in Ea. tauto.
    + apply Z.eqb_neq in Ea. split; [|tauto].
      intros ->. exfalso. revert H2.
      match goal with |- ?m d1 = _ -> _ =>
        assert (F : fails_with (fun e => e <> ErrNoImageYet) m)
      end.
      { destruct (r_SurfaceMap o) as [hr m].
        repeat first [ apply copyFrame_errors | apply initializeStage_never_fails
                     | fails_step ]; discriminate. }
      intros H2. exact (F _ _ _ _ _ H2 eq_refl eq_refl).
Qed.

Lemma acquireFrame_no_image o timeoutMs d r d' tr :
  acquireFrame o timeoutMs d = Some (r, d', tr) ->
  (r = Fail ErrNoImageYet <->
   (d3d.Failed (d3d.HRESULT (fst (r_AcquireNextFrame o))) = true
    /\ d3d.HRESULT (fst (r_AcquireNextFrame o)) = d3d.DXGI_ERROR_WAIT_TIMEOUT)
   \/ (d3d.Failed (d3d.HRESULT (fst (r_AcquireNextFrame o))) = false
       /\ dxgi.AccumulatedFrames (snd (r_AcquireNextFrame o)) = 0
       /\ (UpdatePointerInfo d = true ->
           pointerUpdateError o (snd (r_AcquireNextFrame o)) = None))).
Proof.
  unfold acquireFrame. intros E.
  apply bind_inv in E. destruct E as [(e & E & _) | (u & d1 & t1 & t3 & E1 & E & ->)].
  { apply ReleaseFrame_inv in E. destruct E as (E & _). discriminate. }
  apply ReleaseFrame_inv in E1. destruct E1 as (_ & -> & ->).
  revert E. run_case. destruct (r_AcquireNextFrame o) as [hrF frameInfo].
  run. cbn [fst snd].
  destruct (d3d.Failed (d3d.HRESULT hrF)).
  - destruct (d3d.HRESULT hrF =? d3d.DXGI_ERROR_WAIT_TIMEOUT) eqn:Et;
      cbn; intros E; injection E as <- <- <-.
    + apply Z.eqb_eq in Et. split; auto.
    + apply Z.eqb_neq in Et. split; [discriminate|].
      intros [[_ C]|[C _]]; [contradiction|discriminate].
  - destruct (defer _ _ _) as [[[r3 d3] t4]|] eqn:ED; [|discriminate].
    intros E. injection E as <- <- <-.
    apply defer_inv in ED. destruct ED as (d4 & t5 & u2 & t6 & ED & ER & ->).
    apply defer_inv in ED. destruct ED as (d5 & t7 & u3 & t8 & EW & EE & ->).
    apply withFrame_no_image in EW. cbn [UpdatePointerInfo set_acquiredFrame] in EW.
    rewrite EW. split.
    + intros C. right. tauto.
    + intros [[C _]|[_ C]]; [discriminate|exact C].
Qed.

Lemma mapDesktop_result o desc d r d' t :
  mapDesktop o desc d = Some (r, d', t) ->
  UpdatePointerInfo d' = UpdatePointerInfo d
  /\ r = Ok (negb (dxgi.DesktopImageInSystemMemory desc =? 0)
            && negb (d3d.Failed (d3d.HRESULT (fst (r_MapDesktopSurface o))))).
Proof.
  unfold mapDesktop. destruct (negb (_ =? 0)).
  - destruct (r_MapDesktopSurface o) as [hr [m|]]; run; cbn;
      intros H; injection H as <- <- <-; auto.
  - intros H. injection H as <- <- <-. auto.
Qed.

(** C3, amended. Snapshot returns ErrNoImageYet, which carries no mapped
    memory, exactly when AcquireNextFrame is reached (GetDesc succeeded
    and the fast path did not return) and either it reports a timeout, or
    it succeeds with an accumulated-frame counter of zero and the pointer
    update, run when UpdatePointerInfo is set, did not fail. *)
Theorem snapshot_no_image_yet (o : Provider) (timeoutMs : Z)
  (d d' : OutputDuplicator) (r : result Snapshot_ok) (tr : list event) :
  Snapshot o timeoutMs d = Some (r, d', tr) ->
  (r = Fail ErrNoImageYet <->
   d3d.Failed (d3d.HRESULT (fst (r_GetDesc o))) = false
   /\ (dxgi.DesktopImageInSystemMemory (snd (r_GetDesc o)) = 0
       \/ d3d.Failed (d3d.HRESULT (fst (r_MapDesktopSurface o))) = true)
   /\ ((d3d.Failed (d3d.HRESULT (fst (r_AcquireNextFrame o))) = true
        /\ d3d.HRESULT (fst (r_AcquireNextFrame o)) = d3d.DXGI_ERROR_WAIT_TIMEOUT)
       \/ (d3d.Failed (d3d.HRESULT (fst (r_AcquireNextFrame o))) = false
           /\ dxgi.AccumulatedFrames (snd (r_AcquireNextFrame o)) = 0
           /\ (UpdatePointerInfo d = true ->
               pointerUpdateError o (snd (r_AcquireNextFrame o)) = None)))).
Proof.
  unfold Snapshot. run_case. run.
  destruct (r_GetDesc o) as [hrD desc]. cbn [fst snd].
  destruct (d3d.Failed (d3d.HRESULT hrD)).
  { cbn. intros H. injection H as <- <- <-. split; [discriminate|].
    intros [C _]. discriminate. }
  destruct (bind _ _ d) as [[[r2 d2] t2]|] eqn:E; [|discriminate].
  intros H. injection H as <- <- <-.
  apply bind_inv in E. destruct E as [(e & E & _) | (fast & d1 & t1 & t3 & E1 & E & ->)].
  { apply mapDesktop_result in E. destruct E as [_ E]. discriminate. }
  apply mapDesktop_result in E1. destruct E1 as [Hu E1]. injection E1 as ->.
  destruct (dxgi.DesktopImageInSystemMemory desc =? 0) eqn:Em; cbn [negb andb] in E.
  - apply Z.eqb_eq in Em. apply acquireFrame_no_image in E. rewrite Hu in E.
    rewrite E. tauto.
  - apply Z.eqb_neq in Em.
    destruct (d3d.Failed (d3d.HRESULT (fst (r_MapDesktopSurface o)))); cbn [negb] in E.
    + apply acquireFrame_no_image in E. rewrite Hu in E. rewrite E. tauto.
    + rewrite run_get in E. injection E as <- <- <-. split; [discriminate|].
      intros (_ & [C|C] & _); [contradiction|discriminate].
Qed.

Lemma snapshot_no_image_yet_witness :
  exists d' tr,
    Snapshot timeoutProvider 0 (newDup false) = Some (Fail ErrNoImageYet, d', tr)
    /\ (@Fail Snapshot_ok ErrNoImageYet = Fail ErrNoImageYet <->
        d3d.Failed (d3d.HRESULT (fst (r_GetDesc timeoutProvider))) = false
        /\ (dxgi.DesktopImageInSystemMemory (snd (r_GetDesc timeoutProvider)) = 0
            \/ d3d.Failed (d3d.HRESULT (fst (r_MapDesktopSurface timeoutProvider))) = true)
        /\ ((d3d.Failed (d3d.HRESULT (fst (r_AcquireNextFrame timeoutProvider))) = true
             /\ d3d.HRESULT (fst (r_AcquireNextFrame timeoutProvider))
                = d3d.DXGI_ERROR_WAIT_TIMEOUT)
            \/ (d3d.Failed (d3d.HRESULT (fst (r_AcquireNextFrame timeoutProvider))) = false
                /\ dxgi.AccumulatedFrames (snd (r_AcquireNextFrame timeoutProvider)) = 0
                /\ (UpdatePointerInfo (newDup false) = true ->
                    pointerUpdateError timeoutProvider
                      (snd (r_AcquireNextFrame timeoutProvider)) = None)))).
Proof.
  eexists. eexists. split; [vm_compute; reflexivity|].
  eapply (snapshot_no_image_yet timeoutProvider 0 (newDup false)).
  vm_compute. reflexivity.
Defined.

(** C3, as stated, fails: a frame is acquired whose accumulated-frame
    counter is zero, the pointer update is enabled and fails on a shape of
    an unknown type, and Snapshot returns that error, not ErrNoImageYet. *)
Lemma snapshot_no_image_yet_counterexample :
  d3d.Failed (d3d.HRESULT (fst (r_AcquireNextFrame unknownShapeProvider))) = false
  /\ dxgi.AccumulatedFrames (snd (r_AcquireNextFrame unknownShapeProvider)) = 0
  /\ exists d' tr,
       Snapshot unknownShapeProvider 0 pointerDup
       = Some (Fail (ErrUnsupportedType 3), d', tr)
       /\ In (EvAcquireNextFrame 0 0) tr.
Proof.
  split; [reflexivity|]. split; [reflexivity|].
  eexists. eexists. split; [vm_compute; reflexivity|].
  cbn. auto.
Qed.

(* ================================================================== *)
(** ** updatePointer up to the switch *)

Lemma len_repeat {A} (a : A) n : Go.len (repeat a n) = Z.of_nat n.
Proof. unfold Go.len. now rewrite repeat_length. Qed.

Lemma NewRGBA_rect w h :
  0 <= w -> 0 <= h -> 4 * w * h <= Go.maxInt ->
  image.NewRGBA (image.Rect 0 0 w h) =
  Some (image.mkRGBA (repeat 0 (Z.to_nat (4 * w * h))) (4 * w) (image.mkRect 0 0 w h)).
Proof.
  intros Hw Hh Hm. unfold image.NewRGBA, image.Rect, image.Dx, image.Dy.
  cbn [image.MaxX image.MinX image.MaxY image.MinY].
  rewrite !Z.min_l, !Z.max_r by assumption. rewrite !Z.sub_0_r.
  destruct (w <? 0) eqn:E1; [apply Z.ltb_lt in E1; lia|].
  destruct (h <? 0) eqn:E2; [apply Z.ltb_lt in E2; lia|].
  destruct (Go.maxInt <? 4 * w * h) eqn:E3; [apply Z.ltb_lt in E3; lia|].
  reflexivity.
Qed.

Lemma quot2_le h : 0 <= h -> 0 <= Z.quot h 2 <= h.
Proof.
  intros H. rewrite Z.quot_div_nonneg by lia.
  split; [apply Z.div_pos; lia|]. apply Z.div_le_upper_bound; lia.
Qed.

(** A frame with a new shape whose fetch succeeded reaches the switch in
    the state [fetched], after the events [fetchTrace]. *)
Lemma updatePointer_fetch o info d h written shape :
  dxgi.LastMouseUpdateTime info <> 0 ->
  dxgi.PointerShapeBufferSize info <> 0 ->
  outputDuplication d = Some h ->
  r_GetFramePointerShape o = (0, written, shape) ->
  0 <= dxgi.Width shape -> 0 <= dxgi.Height shape ->
  4 * dxgi.Width shape * dxgi.Height shape <= Go.maxInt ->
  updatePointer o info d =
  match decodeShape shape
          (set_pointerInfo (fetched info written shape (pointerInfo d)) d) with
  | Some (r, d', t) => Some (r, d', fetchTrace info shape (pointerInfo d) ++ t)
  | None => None
  end.
Proof.
  intros Hl Hs Ho Hr Hw Hh Hm.
  unfold updatePointer, modify_pointer.
  apply Z.eqb_neq in Hl, Hs. rewrite Hl. run. rewrite Hs, Hr. run.
  rewrite (NewRGBA_rect _ _ Hw Hh Hm).
  assert (Hn : (Go.len (repeat 0 (Z.to_nat (4 * dxgi.Width shape * dxgi.Height shape)))
                <? dxgi.Width shape * Z.quot (dxgi.Height shape) 2 * 4) = false).
  { apply Z.ltb_ge. rewrite len_repeat, Z2Nat.id by nia.
    pose proof (quot2_le _ Hh). nia. }
  cbn [pointerInfo set_pointerInfo PointerInfo.shapeInBuffer set_pos set_visible].
  destruct (Go.slice_len (PointerInfo.shapeInBuffer (pointerInfo d))
            <? dxgi.PointerShapeBufferSize info) eqn:Eg; run.
  all: change (negb (0 =? 0)) with false; cbv beta iota zeta.
  all: rewrite (run_lift _ _ _ _ eq_refl); run; cbn [image.Pix].
  all: match goal with
       | |- context [if ?c then image.with_Pix _ _ else _] =>
           replace c with false by (symmetry; exact Hn)
       end.
  all: match goal with
       | |- context [decodeShape ?s ?x] =>
           replace x with (set_pointerInfo (fetched info written s (pointerInfo d)) d)
             by (unfold fetched, fetchedShapeIn; rewrite Eg; destruct d; reflexivity)
       end.
  all: unfold fetchTrace; rewrite Eg.
  all: destruct (decodeShape _ _) as [[[r d'] t]|]; reflexivity.
Qed.

Lemma ReleaseFrame_eq d h :
  outputDuplication d = Some h ->
  ReleaseFrame d =
  Some (Ok tt, set_acquiredFrame false d,
        if acquiredFrame d then [EvReleaseFrame] else []).
Proof.
  intros Ho. destruct (acquiredFrame d) eqn:Ea.
  - exact (ReleaseFrame_acquired d h Ea Ho).
  - rewrite (ReleaseFrame_not_acquired d Ea). destruct d; cbn in *; now subst.
Qed.

(* ================================================================== *)
(** ** A shape of an unknown type *)






(* ================================================================== *)
(** ** The copy strategy *)

Lemma same_copy_state_refl d : same_copy_state d d.
Proof. repeat split. Qed.

Lemma same_copy_state_trans d1 d2 d3 :
  same_copy_state d1 d2 -> same_copy_state d2 d3 -> same_copy_state d1 d3.
Proof. intros (A1 & B1 & C1 & D1) (A2 & B2 & C2 & D2). repeat split; congruence. Qed.

Ltac copy_quiet :=
  repeat (keeps_step;
          try exact same_copy_state_refl; try exact same_copy_state_trans;
          try (intros; repeat split; reflexivity)).




Lemma ReleaseFrame_same_copy_state :
  keeps same_copy_state not_copy_event ReleaseFrame.
Proof. unfold ReleaseFrame. copy_quiet. Qed.

Lemma filter_app_none {A} (f : A -> bool) l1 l2 :
  forallb (fun x => negb (f x)) l1 = true -> filter f (l1 ++ l2) = filter f l2.
Proof.
  induction l1 as [|a l1 IH]; [reflexivity|]. cbn. intros H.
  apply andb_prop in H. destruct H as [Ha Hl].
  destruct (f a); [discriminate|]. auto.
Qed.

Lemma filter_none {A} (f : A -> bool) l :
  forallb (fun x => negb (f x)) l = true -> filter f l = [].
Proof.
  intros H. rewrite <- (app_nil_r l). now rewrite filter_app_none.
Qed.


Lemma emit_all_inv l d r d' t :
  emit_all l d = Some (r, d', t) -> r = Ok tt /\ d' = d /\ t = l.
Proof.
  revert t. induction l as [|e l IH]; intros t; cbn [emit_all].
  - intros H. injection H as <- <- <-. auto.
  - run_case. run.
    destruct (emit_all l d) as [[[r2 d2] t2]|] eqn:E; [|discriminate].
    intros H. injection H as <- <- <-.
    destruct (IH _ eq_refl) as (-> & -> & ->). auto.
Qed.










(* ================================================================== *)
(** ** The reusable buffers *)

Lemma stored_slen {A} (s : Go.slice A) w : Go.slen (Go.stored s w) = Go.slen s.
Proof. reflexivity. Qed.

Lemma copy_length {A} (dst src : list A) : length (Go.copy dst src) = length dst.
Proof.
  unfold Go.copy. rewrite length_app, length_firstn, length_skipn. lia.
Qed.

Lemma stored_full {A} (s : Go.slice A) w : full s -> full (Go.stored s w).
Proof.
  unfold full, Go.stored, Go.elems. cbn [Go.slen Go.sarr]. intros H.
  rewrite length_app, copy_length, length_firstn, length_skipn. lia.
Qed.

Lemma stored_cap {A} (s : Go.slice A) w :
  full s -> Go.slice_cap (Go.stored s w) = Go.slice_cap s.
Proof.
  intros H. pose proof (stored_full s w H) as H2. unfold full in *.
  unfold Go.slice_cap, Go.len. rewrite <- H2, <- H. reflexivity.
Qed.

Lemma make_full {A} (zero : A) n : full (Go.make zero n).
Proof. unfold full, Go.make. cbn. now rewrite repeat_length. Qed.

Lemma make_cap {A} (zero : A) n : 0 <= n -> Go.slice_cap (Go.make zero n) = n.
Proof.
  intros H. unfold Go.slice_cap, Go.make, Go.len. cbn.
  rewrite repeat_length. lia.
Qed.

(** A rect loop makes a new buffer exactly when some count it asks for
    exceeds the length of the buffer held in that round; as long as none
    does, the length stays what it was on entry. *)
Lemma fetchRects_makes {A} (zero : A) (evMake evCall : Z -> event)
  (answers : list (Z * Z * list A)) :
  (forall n, is_make_event (evMake n) = true) ->
  (forall n, is_make_event (evCall n) = false) ->
  forall buf required b st t,
    fetchRects zero evMake evCall answers buf required = Some (b, st, t) ->
    (forallb not_make_event t = true <->
     Forall (fun n => n <= Go.slice_len buf) (asked required answers)).
Proof.
  intros HM HC. induction answers as [|[[hr req] written] rest IH];
    intros buf required b st t; cbn [fetchRects asked]; [discriminate|].
  destruct (Go.slice_len buf <? required) eqn:Eg.
  - (* this round allocates *)
    apply Z.ltb_lt in Eg. intros H.
    assert (Ht : forallb not_make_event t = false).
    { destruct (d3d.Failed (d3d.HRESULT hr)).
      - destruct (d3d.HRESULT hr =? d3d.DXGI_ERROR_MORE_DATA).
        + destruct (fetchRects _ _ _ rest _ _) as [[[b2 st2] t2]|]; [|discriminate].
          injection H as <- <- <-. cbn. unfold not_make_event at 1. now rewrite HM.
        + injection H as <- <- <-. cbn. unfold not_make_event at 1. now rewrite HM.
      - destruct (Go.upto _ _); [|discriminate].
        injection H as <- <- <-. cbn. unfold not_make_event at 1. now rewrite HM. }
    rewrite Ht. split; [discriminate|]. intros F. inversion F. lia.
  - (* this round keeps the buffer *)
    apply Z.ltb_ge in Eg. cbn [app].
    destruct (d3d.Failed (d3d.HRESULT hr)); cbn [andb].
    + destruct (d3d.HRESULT hr =? d3d.DXGI_ERROR_MORE_DATA).
      * destruct (fetchRects _ _ _ rest _ _) as [[[b2 st2] t2]|] eqn:E; [|discriminate].
        intros H. injection H as <- <- <-.
        apply IH in E. cbn [forallb]. unfold not_make_event at 1. rewrite HC.
        cbn [negb andb]. rewrite E. unfold Go.slice_len. rewrite stored_slen.
        split; [intros F; constructor; [exact Eg|exact F]|intros F; now inversion F].
      * intros H. injection H as <- <- <-. cbn. unfold not_make_event. rewrite HC.
        split; [intros _; constructor; [exact Eg|constructor]|reflexivity].
    + destruct (Go.upto _ _); [|discriminate].
      intros H. injection H as <- <- <-. cbn. unfold not_make_event. rewrite HC.
      split; [intros _; constructor; [exact Eg|constructor]|reflexivity].
Qed.

(** The raw shape buffer and the allocations of updatePointer, on every
    path on which it returns. *)
Lemma updatePointer_buffers o info d r d' t :
  updatePointer o info d = Some (r, d', t) ->
  let p := pointerInfo d in
  let fetch := negb (dxgi.LastMouseUpdateTime info =? 0)
               && negb (dxgi.PointerShapeBufferSize info =? 0) in
  let '(hr, written, shape) := r_GetFramePointerShape o in
  PointerInfo.shapeInBuffer (pointerInfo d') =
    (if fetch then fetchedShapeIn info written p else PointerInfo.shapeInBuffer p)
  /\ filter is_make_event t =
       (if fetch && (Go.slice_len (PointerInfo.shapeInBuffer p)
                     <? dxgi.PointerShapeBufferSize info)
        then [EvMakeShapeInBuffer (dxgi.PointerShapeBufferSize info)] else [])
  /\ (fetch = true -> hr = 0 ->
      In (EvNewShapeOutBuffer (dxgi.Width shape) (dxgi.Height shape)) t).
Proof.
  unfold updatePointer, decodeShape, modify_pointer, set_outPix, fetchedShapeIn.
  destruct (r_GetFramePointerShape o) as [[hr written] shape].
  destruct (dxgi.LastMouseUpdateTime info =? 0).
  { intros H. injection H as <- <- <-. cbn. repeat split. discriminate. }
  run.
  destruct (dxgi.PointerShapeBufferSize info =? 0).
  { intros H. injection H as <- <- <-. cbn. repeat split. discriminate. }
  run. cbn [negb andb pointerInfo set_pointerInfo PointerInfo.shapeInBuffer
              set_pos set_visible].
  destruct (Go.slice_len (PointerInfo.shapeInBuffer (pointerInfo d))
            <? dxgi.PointerShapeBufferSize info); run_all.
  all: destruct (hr =? 0) eqn:Eh; cbn [negb];
    [|cbn; intros H; injection H as <- <- <-; cbn; repeat split;
      intros _ C; apply Z.eqb_neq in Eh; contradiction].
  all: run_all.
  all: destruct (dxgi.Type_ shape =? dxgi.DXGI_OUTDUPL_POINTER_SHAPE_TYPE_MONOCHROME);
    [|destruct (dxgi.Type_ shape =? dxgi.DXGI_OUTDUPL_POINTER_SHAPE_TYPE_COLOR);
      [|destruct (dxgi.Type_ shape =? dxgi.DXGI_OUTDUPL_POINTER_SHAPE_TYPE_MASKED_COLOR)]].
  all: run_all.
  all: cbn; intros H; injection H as <- <- <-; cbn; repeat split; auto.
Qed.

(** A rect loop goes through its rounds as [rounds] has them, and the
    buffer it leaves without error has the length of the count
    retrieved. *)
Lemma fetchRects_rounds {A} (zero : A) (evMake evCall : Z -> event)
  (answers : list (Z * Z * list A)) :
  forall buf required b st t,
    0 <= required ->
    fetchRects zero evMake evCall answers buf required = Some (b, st, t) ->
    t = rounds evMake evCall (Go.slice_len buf) (asked required answers)
    /\ (st = None -> Go.slice_len b = retrieved answers).
Proof.
  induction answers as [|[[hr req] written] rest IH];
    intros buf required b st t Hreq; cbn [fetchRects asked rounds retrieved];
    [discriminate|].
  assert (Hu : 0 <= Go.uint32 req) by (unfold Go.uint32; apply Z.mod_pos_bound; lia).
  assert (Hlen : Go.slice_len
                   (Go.stored (if Go.slice_len buf <? required
                               then Go.make zero required else buf) written)
                 = if Go.slice_len buf <? required then required
                   else Go.slice_len buf).
  { destruct (Go.slice_len buf <? required); unfold Go.slice_len;
      rewrite stored_slen; [|reflexivity].
    unfold Go.make. cbn [Go.slen]. lia. }
  assert (Hcall : Go.slice_len (if Go.slice_len buf <? required
                                then Go.make zero required else buf)
                  = if Go.slice_len buf <? required then required
                    else Go.slice_len buf).
  { destruct (Go.slice_len buf <? required); [|reflexivity].
    unfold Go.slice_len, Go.make. cbn [Go.slen]. lia. }
  rewrite Hcall.
  destruct (d3d.Failed (d3d.HRESULT hr)); cbn [andb].
  - destruct (d3d.HRESULT hr =? d3d.DXGI_ERROR_MORE_DATA).
    + destruct (fetchRects _ _ _ rest _ _) as [[[b2 st2] t2]|] eqn:E; [|discriminate].
      intros H. injection H as <- <- <-.
      apply IH in E; [|exact Hu]. destruct E as (-> & Hst).
      rewrite Hlen. split; [|exact Hst].
      destruct (Go.slice_len buf <? required); reflexivity.
    + intros H. injection H as <- <- <-. split; [|discriminate].
      destruct (Go.slice_len buf <? required); reflexivity.
  - destruct (Go.upto _ _) as [b2|] eqn:E; [|discriminate].
    intros H. injection H as <- <- <-. split.
    + destruct (Go.slice_len buf <? required); reflexivity.
    + intros _. unfold Go.upto in E.
      destruct ((0 <=? Go.uint32 req) && _); [|discriminate].
      injection E as <-. unfold Go.slice_len. cbn [Go.slen]. lia.
Qed.

(** C7, amended. The two rect loops of Snapshot decide request by
    request: a round makes a new buffer, of exactly the count asked for,
    if and only if that count (1 in the first round, then what the
    provider required) exceeds the current length of the buffer, and the
    provider is then called with the current buffer.  When the loop ends
    the buffer is cut to the count retrieved, so the length that the next
    frame compares with is that count and not the capacity.
    updatePointer makes a new raw shape buffer exactly when a shape is
    fetched whose byte size exceeds the length of the buffer; that buffer
    is never cut, so its length is its capacity and it never shrinks.
    The decoded output buffer is created anew on every shape update. *)
Theorem buffers_grow_by_length (o : Provider) (info : dxgi.DXGI_OUTDUPL_FRAME_INFO)
  (d d' : OutputDuplicator)
  (bM : Go.slice dxgi.DXGI_OUTDUPL_MOVE_RECT) (bD : Go.slice dxgi.RECT)
  (stM stD : option Z) (tM tD t : list event) (r : result unit) :
  fetchRects dxgi.zeroMOVE_RECT EvMakeMovedRects EvGetFrameMoveRects
    (r_GetFrameMoveRects o) (movedRects d) 1 = Some (bM, stM, tM) ->
  fetchRects dxgi.zeroRECT EvMakeDirtyRects EvGetFrameDirtyRects
    (r_GetFrameDirtyRects o) (dirtyRects d) 1 = Some (bD, stD, tD) ->
  updatePointer o info d = Some (r, d', t) ->
  full (PointerInfo.shapeInBuffer (pointerInfo d)) ->
  0 <= dxgi.PointerShapeBufferSize info ->
  let size := dxgi.PointerShapeBufferSize info in
  let shape := snd (r_GetFramePointerShape o) in
  tM = rounds EvMakeMovedRects EvGetFrameMoveRects
         (Go.slice_len (movedRects d)) (asked 1 (r_GetFrameMoveRects o))
  /\ (stM = None -> Go.slice_len bM = retrieved (r_GetFrameMoveRects o))
  /\ tD = rounds EvMakeDirtyRects EvGetFrameDirtyRects
            (Go.slice_len (dirtyRects d)) (asked 1 (r_GetFrameDirtyRects o))
  /\ (stD = None -> Go.slice_len bD = retrieved (r_GetFrameDirtyRects o))
  /\ (In (EvMakeShapeInBuffer size) t <->
      dxgi.LastMouseUpdateTime info <> 0 /\ size <> 0
      /\ Go.slice_cap (PointerInfo.shapeInBuffer (pointerInfo d)) < size)
  /\ full (PointerInfo.shapeInBuffer (pointerInfo d'))
  /\ Go.slice_cap (PointerInfo.shapeInBuffer (pointerInfo d))
     <= Go.slice_cap (PointerInfo.shapeInBuffer (pointerInfo d'))
  /\ (dxgi.LastMouseUpdateTime info <> 0 -> size <> 0 ->
      fst (fst (r_GetFramePointerShape o)) = 0 ->
      In (EvNewShapeOutBuffer (dxgi.Width shape) (dxgi.Height shape)) t).
Proof.
  intros HM HD HU Hfull Hsize size shape.
  apply fetchRects_rounds in HM; [|lia]. destruct HM as (HM1 & HM2).
  apply fetchRects_rounds in HD; [|lia]. destruct HD as (HD1 & HD2).
  split; [exact HM1|]. split; [exact HM2|]. split; [exact HD1|]. split; [exact HD2|].
  apply updatePointer_buffers in HU. cbv zeta in HU. subst shape.
  destruct (r_GetFramePointerShape o) as [[hr written] shp]. cbn [fst snd].
  destruct HU as (Hin & Hmk & Hout).
  assert (Hlen : Go.slice_len (PointerInfo.shapeInBuffer (pointerInfo d))
                 = Go.slice_cap (PointerInfo.shapeInBuffer (pointerInfo d))).
  { unfold Go.slice_len, Go.slice_cap, Go.len. now rewrite Hfull. }
  fold size in Hin, Hmk. unfold fetchedShapeIn in Hin. fold size in Hin.
  rewrite Hin. clear Hin.
  destruct (dxgi.LastMouseUpdateTime info =? 0) eqn:El;
    [apply Z.eqb_eq in El|apply Z.eqb_neq in El];
    (destruct (size =? 0) eqn:Es; [apply Z.eqb_eq in Es|apply Z.eqb_neq in Es]);
    cbn [negb andb] in *.
  1-3: assert (Hno : ~ In (EvMakeShapeInBuffer size) t)
    by (intros C;
        assert (C2 : In (EvMakeShapeInBuffer size) (filter is_make_event t))
          by (apply filter_In; split; [exact C|reflexivity]);
        rewrite Hmk in C2; destruct C2).
  1-3: (split; [split; [intros C; contradiction|intros (C1 & C2 & _); contradiction]|]);
    (split; [exact Hfull|]); (split; [lia|]); intros; contradiction.
  rewrite Hlen in Hmk. rewrite Hlen.
  destruct (Go.slice_cap (PointerInfo.shapeInBuffer (pointerInfo d)) <? size) eqn:Eg;
    [apply Z.ltb_lt in Eg|apply Z.ltb_ge in Eg].
  - split; [|split; [|split]].
    + split; [auto|]. intros _.
      apply (filter_In is_make_event). rewrite Hmk. left. reflexivity.
    + apply stored_full, make_full.
    + rewrite stored_cap by apply make_full. rewrite make_cap by lia. lia.
    + intros _ _ Hhr. apply Hout; [apply negb_true_iff, Z.eqb_neq; exact Es|exact Hhr].
  - split; [|split; [|split]].
    + split; [|intros (_ & _ & C); lia].
      intros C.
      assert (C2 : In (EvMakeShapeInBuffer size) (filter is_make_event t))
        by (apply filter_In; split; [exact C|reflexivity]).
      rewrite Hmk in C2. destruct C2.
    + now apply stored_full.
    + rewrite stored_cap by assumption. lia.
    + intros _ _ Hhr. apply Hout; [apply negb_true_iff, Z.eqb_neq; exact Es|exact Hhr].
Qed.

Lemma buffers_grow_by_length_witness :
  Go.slice_len (movedRects keptDup) = 0 /\ Go.slice_cap (movedRects keptDup) = 1
  /\ Go.slice_len (dirtyRects keptDup) = 2
  /\ exists bM bD d' t,
       fetchRects dxgi.zeroMOVE_RECT EvMakeMovedRects EvGetFrameMoveRects
         (r_GetFrameMoveRects growProvider) (movedRects keptDup) 1
       = Some (bM, None,
               [EvMakeMovedRects 1; EvGetFrameMoveRects 1;
                EvMakeMovedRects 3; EvGetFrameMoveRects 3])
       /\ Go.slice_len bM = 3
       /\ fetchRects dxgi.zeroRECT EvMakeDirtyRects EvGetFrameDirtyRects
            (r_GetFrameDirtyRects growProvider) (dirtyRects keptDup) 1
          = Some (bD, None, [EvGetFrameDirtyRects 2])
       /\ Go.slice_len bD = 1
       /\ updatePointer growProvider (shapeFrame 1 32) keptDup = Some (Ok tt, d', t)
       /\ In (EvMakeShapeInBuffer 4) t
       /\ full (PointerInfo.shapeInBuffer (pointerInfo d')).
Proof.
  split; [vm_compute; reflexivity|]. split; [vm_compute; reflexivity|].
  split; [vm_compute; reflexivity|].
  destruct (fetchRects dxgi.zeroMOVE_RECT EvMakeMovedRects EvGetFrameMoveRects
              (r_GetFrameMoveRects growProvider) (movedRects keptDup) 1)
    as [[[bM stM] tM]|] eqn:HM; [|vm_compute in HM; discriminate HM].
  destruct (fetchRects dxgi.zeroRECT EvMakeDirtyRects EvGetFrameDirtyRects
              (r_GetFrameDirtyRects growProvider) (dirtyRects keptDup) 1)
    as [[[bD stD] tD]|] eqn:HD; [|vm_compute in HD; discriminate HD].
  destruct (updatePointer growProvider (shapeFrame 1 32) keptDup)
    as [[[r d'] t]|] eqn:HU; [|vm_compute in HU; discriminate HU].
  destruct (buffers_grow_by_length growProvider (shapeFrame 1 32) keptDup d'
              bM bD stM stD tM tD t r HM HD HU eq_refl)
    as (KM & LM & KD & LD & KS & KF & _); [discriminate|].
  assert (EM : stM = None) by (vm_compute in HM; congruence).
  assert (ED : stD = None) by (vm_compute in HD; congruence).
  assert (ER : r = Ok tt) by (vm_compute in HU; congruence).
  exists bM, bD, d', t. subst stM stD r.
  split; [rewrite KM; reflexivity|].
  split; [rewrite (LM eq_refl); reflexivity|].
  split; [rewrite KD; reflexivity|].
  split; [rewrite (LD eq_refl); reflexivity|].
  split; [reflexivity|].
  split; [|exact KF].
  apply KS. split; [discriminate|]. split; [discriminate|]. vm_compute. reflexivity.
Defined.

(** C7, as stated, fails: after a frame with three moved rects and a
    frame with none, the moved-rect buffer has capacity 3 and length 0;
    the next frame asks for room for 1 rect, which the capacity covers,
    and yet a new buffer is made, of capacity 1. *)
Lemma buffers_counterexample :
  let d1 := afterSnapshot threeMovesProvider (newDup false) in
  let d2 := afterSnapshot noMovesProvider d1 in
  let d3 := afterSnapshot noMovesProvider d2 in
  Go.slice_cap (movedRects d2) = 3
  /\ Go.slice_len (movedRects d2) = 0
  /\ (exists s t, Snapshot noMovesProvider 0 d2 = Some (Ok s, d3, t)
                  /\ In (EvMakeMovedRects 1) t)
  /\ Go.slice_cap (movedRects d3) = 1.
Proof.
  cbv zeta. split; [vm_compute; reflexivity|]. split; [vm_compute; reflexivity|].
  split; [|vm_compute; reflexivity].
  eexists. eexists. split; [vm_compute; reflexivity|].
  cbn. tauto.
Qed.

(* ================================================================== *)
(** ** Lists written in place *)

(** A segment written over a list at position [n]. *)
Lemma nth_error_splice {A} (l seg : list A) (n k : nat) :
  (n + length seg <= length l)%nat ->
  nth_error (firstn n l ++ seg ++ skipn (n + length seg) l) k =
  if ((n <=? k) && (k <? n + length seg))%nat then nth_error seg (k - n)
  else nth_error l k.
Proof.
  intros H.
  assert (Hf : length (firstn n l) = n) by (rewrite length_firstn; lia).
  rewrite !nth_error_app, Hf, nth_error_firstn, nth_error_skipn.
  destruct (Nat.ltb_spec k n), (Nat.leb_spec n k); try lia; cbn [andb].
  - reflexivity.
  - destruct (Nat.ltb_spec (k - n) (length seg)), (Nat.ltb_spec k (n + length seg));
      try lia; [reflexivity|].
    f_equal. lia.
Qed.

Lemma length_splice {A} (l seg : list A) (n : nat) :
  (n + length seg <= length l)%nat ->
  length (firstn n l ++ seg ++ skipn (n + length seg) l) = length l.
Proof.
  intros H. rewrite !length_app, length_firstn, length_skipn. lia.
Qed.

(** Four bytes read at [i]. *)
Lemma range4 {A} (l : list A) (i : Z) :
  0 <= i ->
  Go.range l i (i + 4) =
  if i + 4 <=? Go.len l then Some (firstn 4 (skipn (Z.to_nat i) l)) else None.
Proof.
  intros H. unfold Go.range.
  destruct (Z.leb_spec 0 i), (Z.leb_spec i (i + 4)); try lia. cbn [andb].
  replace (i + 4 - i) with 4 by lia. reflexivity.
Qed.

Lemma range4_ext {A} (l1 l2 : list A) (i : Z) :
  0 <= i -> length l1 = length l2 ->
  (forall k, (Z.to_nat i <= k < Z.to_nat i + 4)%nat -> nth_error l1 k = nth_error l2 k) ->
  Go.range l1 i (i + 4) = Go.range l2 i (i + 4).
Proof.
  intros Hi Hl H. rewrite !range4 by assumption. unfold Go.len. rewrite Hl.
  destruct (i + 4 <=? Z.of_nat (length l2)); [|reflexivity].
  f_equal. apply nth_error_ext. intros k.
  rewrite !nth_error_firstn, !nth_error_skipn.
  destruct (Nat.ltb_spec k 4); [|reflexivity]. apply H. lia.
Qed.

Lemma range4_seg {A} (l seg : list A) (i : Z) :
  0 <= i -> length seg = 4%nat -> (Z.to_nat i + 4 <= length l)%nat ->
  Go.range (firstn (Z.to_nat i) l ++ seg ++ skipn (Z.to_nat i + 4) l) i (i + 4)
  = Some seg.
Proof.
  intros Hi Hs Hl. rewrite range4 by assumption.
  pose proof (length_splice l seg (Z.to_nat i)) as HL. rewrite Hs in HL.
  unfold Go.len. rewrite HL by lia.
  destruct (Z.leb_spec (i + 4) (Z.of_nat (length l))); [|lia].
  f_equal. apply nth_error_ext. intros k.
  rewrite nth_error_firstn, nth_error_skipn.
  pose proof (nth_error_splice l seg (Z.to_nat i) (Z.to_nat i + k)) as HN.
  rewrite Hs in HN. rewrite HN by lia.
  destruct (Nat.ltb_spec k 4).
  - destruct (Nat.leb_spec (Z.to_nat i) (Z.to_nat i + k)),
      (Nat.ltb_spec (Z.to_nat i + k) (Z.to_nat i + 4)); try lia.
    cbn [andb]. f_equal. lia.
  - symmetry. apply nth_error_None. lia.
Qed.

(** The 32-bit store: where it succeeds, what it leaves at its own place
    and at the others. *)
Lemma store32_spec out i v :
  0 <= i -> i + 4 <= Go.len out ->
  exists out',
    store32 out i v = Some out'
    /\ length out' = length out
    /\ Go.range out' i (i + 4) = Some (bytes32 v)
    /\ (forall j, 0 <= j -> j + 4 <= i \/ i + 4 <= j ->
                  Go.range out' j (j + 4) = Go.range out j (j + 4)).
Proof.
  intros Hi Hl. unfold Go.len in Hl. unfold store32, Go.index.
  destruct (Z.ltb_spec i 0); [lia|].
  destruct (nth_error out (Z.to_nat i)) eqn:E;
    [|apply nth_error_None in E; lia].
  unfold Go.len. destruct (Z.leb_spec (i + 4) (Z.of_nat (length out))); [|lia].
  eexists. split; [reflexivity|].
  assert (Hn : (Z.to_nat i + length (bytes32 v) <= length out)%nat) by (cbn; lia).
  split; [exact (length_splice out (bytes32 v) (Z.to_nat i) Hn)|].
  split; [apply range4_seg; [assumption|reflexivity|lia]|].
  intros j Hj Hd. apply range4_ext; [assumption| |].
  - exact (length_splice out (bytes32 v) (Z.to_nat i) Hn).
  - intros k Hk.
    change (Z.to_nat i + 4)%nat with (Z.to_nat i + length (bytes32 v))%nat.
    rewrite nth_error_splice by exact Hn.
    change (length (bytes32 v)) with 4%nat.
    destruct (Nat.leb_spec (Z.to_nat i) k), (Nat.ltb_spec k (Z.to_nat i + 4));
      cbn [andb]; try reflexivity. lia.
Qed.

(** A loop whose every round returns and keeps an invariant returns, and
    the invariant holds at its end. *)
Lemma loop_total {St} (Inv : Z -> St -> Prop) (body : Z -> St -> option St) :
  forall (k : nat) (i : Z) (s : St),
    Inv i s ->
    (forall j s0, i <= j < i + Z.of_nat k -> Inv j s0 ->
                  exists s1, body j s0 = Some s1 /\ Inv (j + 1) s1) ->
    exists s', Go.loop k i body s = Some s' /\ Inv (i + Z.of_nat k) s'.
Proof.
  induction k as [|k IH]; intros i s H0 Hstep.
  - exists s. split; [reflexivity|]. now replace (i + Z.of_nat 0) with i by lia.
  - cbn [Go.loop]. destruct (Hstep i s) as (s1 & E1 & H1); [lia|exact H0|].
    rewrite E1. destruct (IH (i + 1) s1 H1) as (s' & E & H').
    { intros j s0 Hj. apply Hstep. lia. }
    exists s'. split; [exact E|].
    now replace (i + Z.of_nat (S k)) with (i + 1 + Z.of_nat k) by lia.
Qed.

Lemma for_lt_total {St} (Inv : Z -> St -> Prop) (body : Z -> St -> option St)
  (n : Z) (s : St) :
  0 <= n -> Inv 0 s ->
  (forall j s0, 0 <= j < n -> Inv j s0 ->
                exists s1, body j s0 = Some s1 /\ Inv (j + 1) s1) ->
  exists s', Go.for_lt n body s = Some s' /\ Inv n s'.
Proof.
  intros Hn H0 Hstep. unfold Go.for_lt.
  destruct (loop_total Inv body (Z.to_nat n) 0 s H0) as (s' & E & H).
  { intros j s0 Hj. apply Hstep. lia. }
  exists s'. split; [exact E|]. now rewrite Z2Nat.id in H by lia.
Qed.

(* ================================================================== *)
(** ** The monochrome decoder *)

Lemma index_some {A} (l : list A) (k : Z) :
  0 <= k < Go.len l -> exists a, Go.index l k = Some a.
Proof.
  intros H. unfold Go.index, Go.len in *. destruct (Z.ltb_spec k 0); [lia|].
  destruct (nth_error l (Z.to_nat k)) eqn:E; [eauto|].
  apply nth_error_None in E. lia.
Qed.

Lemma index_skipn {A} (l : list A) (n k : Z) :
  0 <= n -> 0 <= k ->
  Go.index (skipn (Z.to_nat n) l) k = Go.index l (n + k).
Proof.
  intros Hn Hk. unfold Go.index.
  destruct (Z.ltb_spec k 0), (Z.ltb_spec (n + k) 0); try lia.
  rewrite nth_error_skipn. f_equal. lia.
Qed.

Lemma rowBytes_bound w i :
  0 <= i < w -> 0 <= Z.quot i 8 < Z.quot (w + 7) 8.
Proof.
  intros H. rewrite !Z.quot_div_nonneg by lia.
  split; [apply Z.div_pos; lia|].
  replace (w + 7) with (w - 1 + 1 * 8) by lia.
  rewrite Z.div_add by lia.
  assert (i / 8 <= (w - 1) / 8) by (apply Z.div_le_mono; lia). lia.
Qed.

Lemma maskByte_bound shape i j :
  0 <= i < dxgi.Width shape -> 0 <= j < Z.quot (dxgi.Height shape) 2 ->
  0 <= maskByte shape i j
     < Z.quot (dxgi.Height shape) 2 * Z.quot (dxgi.Width shape + 7) 8.
Proof.
  intros Hi Hj. unfold maskByte.
  pose proof (rowBytes_bound _ _ Hi) as Hb.
  set (wb := Z.quot (dxgi.Width shape + 7) 8) in *.
  set (h := Z.quot (dxgi.Height shape) 2) in *.
  assert ((j + 1) * wb <= h * wb) by (apply Z.mul_le_mono_nonneg_r; lia).
  assert (0 <= j * wb) by (apply Z.mul_nonneg_nonneg; lia).
  lia.
Qed.

Lemma pixel_offsets w h i j :
  0 <= i < w -> 0 <= j < h -> 0 <= (j * w + i) * 4 /\ (j * w + i) * 4 + 4 <= 4 * w * h.
Proof.
  intros Hi Hj.
  assert ((j + 1) * w <= h * w) by (apply Z.mul_le_mono_nonneg_r; lia).
  assert (0 <= j * w) by (apply Z.mul_nonneg_nonneg; lia).
  lia.
Qed.

Lemma pixel_offsets_apart w i j i' j' :
  0 <= i < w -> 0 <= i' < w -> 0 <= j' ->
  j' < j \/ (j' = j /\ i' < i) ->
  (j' * w + i') * 4 + 4 <= (j * w + i) * 4.
Proof.
  intros Hi Hi' Hj' [H|[-> H]]; [|lia].
  assert ((j' + 1) * w <= j * w) by (apply Z.mul_le_mono_nonneg_r; lia).
  lia.
Qed.

(** The decoder returns once the raw bytes cover both masks and the
    output has room for every pixel, and then each pixel holds the four
    bytes that the switch stores for its two bits. *)
Lemma decodeMonochrome_pixels inb out shape :
  let w := dxgi.Width shape in
  let h := Z.quot (dxgi.Height shape) 2 in
  0 <= w -> 0 <= h ->
  xorOffset shape + h * Z.quot (w + 7) 8 <= Go.len inb ->
  4 * w * h <= Go.len out ->
  exists out',
    decodeMonochrome inb out shape = Some out'
    /\ length out' = length out
    /\ forall i j, 0 <= i < w -> 0 <= j < h ->
         exists a x,
           Go.index inb (maskByte shape i j) = Some a
           /\ Go.index inb (xorOffset shape + maskByte shape i j) = Some x
           /\ Go.range out' ((j * w + i) * 4) ((j * w + i) * 4 + 4)
              = Some (bytes32 (monoPixel (bitSet a i) (bitSet x i))).
Proof.
  intros w h Hw Hh Hin Hout.
  assert (Hxo : 0 <= xorOffset shape)
    by (unfold xorOffset, Go.uint32; apply Z.mod_pos_bound; lia).
  assert (Hwb : 0 <= h * Z.quot (w + 7) 8).
  { apply Z.mul_nonneg_nonneg; [lia|]. rewrite Z.quot_div_nonneg by lia.
    apply Z.div_pos; lia. }
  unfold decodeMonochrome. fold w h. change (Go.uint32 _) with (xorOffset shape).
  unfold Go.from.
  destruct (Z.leb_spec 0 (xorOffset shape)), (Z.leb_spec (xorOffset shape) (Go.len inb));
    try lia. cbn [andb].
  set (xorMap := skipn (Z.to_nat (xorOffset shape)) inb).
  set (P := fun (o : list Go.byte) (i j : Z) =>
              exists a x,
                Go.index inb (maskByte shape i j) = Some a
                /\ Go.index inb (xorOffset shape + maskByte shape i j) = Some x
                /\ Go.range o ((j * w + i) * 4) ((j * w + i) * 4 + 4)
                   = Some (bytes32 (monoPixel (bitSet a i) (bitSet x i)))).
  destruct (for_lt_total
              (fun j o => length o = length out
                          /\ forall i' j', 0 <= i' < w -> 0 <= j' < j -> P o i' j')
              (fun j => Go.for_lt w (monoBody inb xorMap w (Z.quot (w + 7) 8) j))
              h out Hh) as (out' & E & HL & HP).
  { split; [reflexivity|]. intros; lia. }
  { intros j o Hj (HLo & HPo).
    destruct (for_lt_total
                (fun i o' => length o' = length out
                             /\ forall i' j', 0 <= i' < w -> 0 <= j' ->
                                  j' < j \/ (j' = j /\ i' < i) -> P o' i' j')
                (monoBody inb xorMap w (Z.quot (w + 7) 8) j)
                w o Hw) as (o2 & E2 & HL2 & HP2).
    - split; [exact HLo|]. intros i' j' Hi' Hj' [Hlt|[_ Hlt]]; [|lia].
      apply HPo; lia.
    - intros i o' Hi (HLo' & HPo').
      pose proof (maskByte_bound shape i j Hi Hj) as Hb.
      fold w h in Hb.
      destruct (index_some inb (maskByte shape i j)) as (a & Ea); [lia|].
      destruct (index_some inb (xorOffset shape + maskByte shape i j)) as (x & Ex);
        [lia|].
      destruct (pixel_offsets w h i j Hi Hj) as (Ho1 & Ho2).
      destruct (store32_spec o' ((j * w + i) * 4)
                  (monoPixel (bitSet a i) (bitSet x i)) Ho1)
        as (o3 & E3 & HL3 & Hsame & Hother).
      { unfold Go.len in *. rewrite HLo'. lia. }
      exists o3. split.
      + unfold monoBody. change (j * Z.quot (w + 7) 8 + Z.quot i 8)
          with (maskByte shape i j).
        unfold xorMap. rewrite index_skipn by lia. rewrite Ea, Ex. exact E3.
      + split; [congruence|].
        intros i' j' Hi' Hj' Hdone.
        assert (Hcase : (j' = j /\ i' = i) \/ (j' < j \/ (j' = j /\ i' < i))) by lia.
        destruct Hcase as [[-> ->]|Hold].
        * exists a, x. auto.
        * destruct (HPo' i' j' Hi' Hj' Hold) as (a' & x' & Ea' & Ex' & Er').
          exists a', x'. split; [exact Ea'|]. split; [exact Ex'|].
          rewrite Hother; [exact Er'| |].
          -- assert (0 <= j' * w) by (apply Z.mul_nonneg_nonneg; lia). lia.
          -- left. now apply pixel_offsets_apart.
    - exists o2. split; [exact E2|]. split; [exact HL2|].
      intros i' j' Hi' Hj'. apply HP2; lia. }
  exists out'. split; [exact E|]. split; [exact HL|].
  intros i j Hi Hj. exact (HP i j Hi Hj).
Qed.

Lemma bytes32_monoPixel a x :
  bytes32 (monoPixel a x)
  = [color.R (monoTable a x); color.G (monoTable a x);
     color.B (monoTable a x); color.A (monoTable a x)].
Proof. destruct a, x; reflexivity. Qed.

Lemma At_shapeOut shape pix i j c :
  0 <= i < dxgi.Width shape -> 0 <= j < dxgi.Height shape ->
  Go.range pix ((j * dxgi.Width shape + i) * 4) ((j * dxgi.Width shape + i) * 4 + 4)
  = Some [color.R c; color.G c; color.B c; color.A c] ->
  image.At (image.with_Pix (newShapeOut shape) pix) i j = Some c.
Proof.
  intros Hi Hj E. unfold image.At, image.with_Pix, newShapeOut, image.PointIn,
    image.PixOffset.
  cbn [image.Bounds image.Pix image.Stride image.MinX image.MinY image.MaxX image.MaxY].
  destruct (Z.leb_spec 0 i), (Z.ltb_spec i (dxgi.Width shape)),
    (Z.leb_spec 0 j), (Z.ltb_spec j (dxgi.Height shape)); try lia.
  cbn [andb]. cbv zeta.
  replace ((j - 0) * (4 * dxgi.Width shape) + (i - 0) * 4)
    with ((j * dxgi.Width shape + i) * 4) by lia.
  rewrite E. destruct c; reflexivity.
Qed.

(** For a monochrome shape, updatePointer returns once the raw bytes
    cover both masks as the decoder reads them, the stored size is the
    width and half the reported height, and every pixel (i, j) within it
    is the one the four-case table gives for the two bits found at the
    bytes the decoder reads for that pixel. *)
Theorem monochrome_decode_table (o : Provider) (info : dxgi.DXGI_OUTDUPL_FRAME_INFO)
  (d : OutputDuplicator) (h : handle) (written : list Go.byte)
  (shape : dxgi.DXGI_OUTDUPL_POINTER_SHAPE_INFO) :
  dxgi.LastMouseUpdateTime info <> 0 ->
  dxgi.PointerShapeBufferSize info <> 0 ->
  outputDuplication d = Some h ->
  r_GetFramePointerShape o = (0, written, shape) ->
  dxgi.Type_ shape = dxgi.DXGI_OUTDUPL_POINTER_SHAPE_TYPE_MONOCHROME ->
  0 <= dxgi.Width shape -> 0 <= dxgi.Height shape ->
  4 * dxgi.Width shape * dxgi.Height shape <= Go.maxInt ->
  let width := dxgi.Width shape in
  let height := Z.quot (dxgi.Height shape) 2 in
  let inb := Go.elems (fetchedShapeIn info written (pointerInfo d)) in
  xorOffset shape + height * Z.quot (width + 7) 8 <= Go.len inb ->
  exists d' t img,
    updatePointer o info d = Some (Ok tt, d', t)
    /\ PointerInfo.shapeOutBuffer (pointerInfo d') = Some img
    /\ PointerInfo.size (pointerInfo d') = dxgi.mkPOINT (Go.int32 width) (Go.int32 height)
    /\ forall i j, 0 <= i < width -> 0 <= j < height ->
         exists a x,
           Go.index inb (maskByte shape i j) = Some a
           /\ Go.index inb (xorOffset shape + maskByte shape i j) = Some x
           /\ image.At img i j = Some (monoTable (bitSet a i) (bitSet x i)).
Proof.
  intros Hl Hs Ho Hr Ht Hw Hh Hm width height inb Hin.
  pose proof (quot2_le _ Hh) as Hq. fold height in Hq.
  destruct (decodeMonochrome_pixels inb
              (repeat 0 (Z.to_nat (4 * dxgi.Width shape * dxgi.Height shape))) shape)
    as (pix & E & HL & HP); try assumption; try (fold height; lia).
  { fold height. rewrite len_repeat, Z2Nat.id by nia. nia. }
  rewrite (updatePointer_fetch o info d h written shape) by assumption.
  unfold decodeShape, modify_pointer, set_outPix. run. rewrite Ht, Z.eqb_refl. run.
  cbn [pointerInfo set_pointerInfo PointerInfo.shapeInBuffer PointerInfo.shapeOutBuffer
         fetched newShapeOut image.Pix set_ptrsize].
  fold inb. rewrite (run_lift _ _ _ pix E). run. cbn.
  eexists. eexists. eexists. split; [reflexivity|].
  cbn [pointerInfo set_pointerInfo PointerInfo.shapeOutBuffer PointerInfo.size].
  split; [reflexivity|]. split; [reflexivity|].
  intros i j Hi Hj. destruct (HP i j Hi Hj) as (a & x & Ea & Ex & Er).
  exists a, x. split; [exact Ea|]. split; [exact Ex|].
  apply (At_shapeOut shape pix i j); [exact Hi|lia|].
  rewrite <- bytes32_monoPixel. exact Er.
Qed.

Lemma monochrome_decode_table_witness :
  exists d' t img,
    updatePointer monoProvider monoFrame pointerDup = Some (Ok tt, d', t)
    /\ PointerInfo.shapeOutBuffer (pointerInfo d') = Some img
    /\ PointerInfo.size (pointerInfo d') = dxgi.mkPOINT 4 1
    /\ image.At img 0 0 = Some (color.mkRGBA 0 0 0 0)
    /\ image.At img 1 0 = Some (color.mkRGBA 255 255 255 255)
    /\ image.At img 2 0 = Some (color.mkRGBA 0 0 0 0)
    /\ image.At img 3 0 = Some (color.mkRGBA 0 0 0 255).
Proof.
  destruct (monochrome_decode_table monoProvider monoFrame pointerDup 3%nat
              [0x30; 0; 0; 0; 0x50; 0; 0; 0] monoShape)
    as (d' & t & img & E & Eo & Es & HP);
    try reflexivity; try discriminate.
  exists d', t, img. split; [exact E|]. split; [exact Eo|]. split; [exact Es|].
  assert (K : forall i, 0 <= i < 4 ->
                image.At img i 0 = Some (monoTable (bitSet 0x30 i) (bitSet 0x50 i))).
  { intros i Hi. destruct (HP i 0) as (a & x & Ea & Ex & Er); [exact Hi|cbn; lia|].
    assert (Hq : Z.quot i 8 = 0) by (apply Z.quot_small; lia).
    unfold maskByte in Ea, Ex. rewrite Hq in Ea, Ex.
    vm_compute in Ea, Ex. injection Ea as <-. injection Ex as <-. exact Er. }
  repeat split; [apply (K 0)|apply (K 1)|apply (K 2)|apply (K 3)]; lia.
Defined.

(** The bit that the decoder tests with [0x80 >> (i % 8)] is bit
    [7 - i mod 8] of the byte: the pixels of a byte run from its highest
    bit down. *)
Lemma land_pow2_testbit a n :
  0 <= n -> negb (Z.land a (2 ^ n) =? 0) = Z.testbit a n.
Proof.
  intros Hn. destruct (Z.testbit a n) eqn:E.
  - apply negb_true_iff, Z.eqb_neq. intros C.
    assert (Hb : Z.testbit (Z.land a (2 ^ n)) n = true)
      by (rewrite Z.land_spec, E, Z.pow2_bits_true by lia; reflexivity).
    rewrite C, Z.bits_0 in Hb. discriminate.
  - apply negb_false_iff, Z.eqb_eq. apply Z.bits_inj'. intros m Hm.
    rewrite Z.land_spec, Z.bits_0, Z.pow2_bits_eqb by lia.
    destruct (Z.eqb_spec n m) as [->|]; [now rewrite E|apply andb_false_r].
Qed.

Lemma bitSet_testbit a i : 0 <= i -> bitSet a i = Z.testbit a (7 - i mod 8).
Proof.
  intros Hi. unfold bitSet, bitMask.
  rewrite Z.rem_mod_nonneg by lia.
  pose proof (Z.mod_pos_bound i 8 ltac:(lia)) as Hk.
  replace (Go.uint8 (Z.shiftr 128 (i mod 8))) with (2 ^ (7 - i mod 8)).
  - apply land_pow2_testbit. lia.
  - assert (Hcase : i mod 8 = 0 \/ i mod 8 = 1 \/ i mod 8 = 2 \/ i mod 8 = 3
                    \/ i mod 8 = 4 \/ i mod 8 = 5 \/ i mod 8 = 6 \/ i mod 8 = 7) by lia.
    destruct Hcase as [->|[->|[->|[->|[->|[->|[->| ->]]]]]]]; reflexivity.
Qed.

(** X21. Where the rows of a monochrome shape are packed, that is where
    its pitch is the [(width + 7) / 8] bytes that a row of bits takes,
    as for the cursors of 32 pixels in width with their pitch of 4,
    updatePointer decodes it as the specification prescribes: it returns
    once the raw bytes hold both masks, stores the width and half the
    reported height as the size, and every pixel (i, j) within that size
    is the one the four-case table gives for the AND bit and the XOR bit
    at (i, j): (0,0) transparent, (0,1) opaque white, (1,0) transparent,
    (1,1) the opaque black marker. *)
Theorem monochrome_packed_rows (o : Provider) (info : dxgi.DXGI_OUTDUPL_FRAME_INFO)
  (d : OutputDuplicator) (h : handle) (written : list Go.byte)
  (shape : dxgi.DXGI_OUTDUPL_POINTER_SHAPE_INFO) :
  dxgi.LastMouseUpdateTime info <> 0 ->
  dxgi.PointerShapeBufferSize info <> 0 ->
  outputDuplication d = Some h ->
  r_GetFramePointerShape o = (0, written, shape) ->
  dxgi.Type_ shape = dxgi.DXGI_OUTDUPL_POINTER_SHAPE_TYPE_MONOCHROME ->
  0 <= dxgi.Width shape -> 0 <= dxgi.Height shape < 2 ^ 32 ->
  4 * dxgi.Width shape * dxgi.Height shape <= Go.maxInt ->
  let width := dxgi.Width shape in
  let height := dxgi.Height shape / 2 in
  let pitch := dxgi.ShapePitch shape in
  let inb := Go.elems (fetchedShapeIn info written (pointerInfo d)) in
  pitch = (width + 7) / 8 ->
  pitch * height < 2 ^ 32 ->
  2 * pitch * height <= Go.len inb ->
  exists d' t img,
    updatePointer o info d = Some (Ok tt, d', t)
    /\ PointerInfo.shapeOutBuffer (pointerInfo d') = Some img
    /\ PointerInfo.size (pointerInfo d') = dxgi.mkPOINT (Go.int32 width) (Go.int32 height)
    /\ forall i j, 0 <= i < width -> 0 <= j < height ->
         exists c, specMonoPixel inb shape i j = Some c /\ image.At img i j = Some c.
Proof.
  intros Hl Hs Ho Hr Ht Hw Hh Hm width height pitch inb Hp Hwrap Hlen.
  assert (Eh : Z.quot (dxgi.Height shape) 2 = height)
    by (apply Z.quot_div_nonneg; lia).
  assert (Ew : Z.quot (width + 7) 8 = pitch)
    by (rewrite Hp; apply Z.quot_div_nonneg; lia).
  assert (Hh0 : 0 <= height) by (apply Z.div_pos; lia).
  assert (Hp0 : 0 <= pitch) by (rewrite Hp; apply Z.div_pos; lia).
  assert (Hph : 0 <= pitch * height) by (apply Z.mul_nonneg_nonneg; lia).
  assert (Hh32 : height < 2 ^ 32).
  { assert (height <= dxgi.Height shape); [|lia].
    unfold height. apply Z.div_le_upper_bound; lia. }
  assert (Ex : xorOffset shape = pitch * height).
  { unfold xorOffset. rewrite Eh. fold pitch. unfold Go.uint32.
    rewrite (Z.mod_small height), Z.mod_small by lia. reflexivity. }
  destruct (monochrome_decode_table o info d h written shape)
    as (d' & t & img & E & Eo & Es & HP); try assumption; try lia.
  { cbv zeta. fold inb width. rewrite Ex, Eh, Ew. lia. }
  cbv zeta in Es, HP. fold width inb in Es, HP. rewrite Eh in Es, HP.
  exists d', t, img. split; [exact E|]. split; [exact Eo|]. split; [exact Es|].
  intros i j Hi Hj. destruct (HP i j Hi Hj) as (a & x & Ea & Exo & Eat).
  exists (monoTable (bitSet a i) (bitSet x i)). split; [|exact Eat].
  unfold maskByte in Ea, Exo. fold width in Ea, Exo.
  rewrite Ew, Z.quot_div_nonneg in Ea, Exo by lia. rewrite Ex in Exo.
  unfold specMonoPixel, maskBit. fold pitch height.
  replace (0 + j * pitch + i / 8) with (j * pitch + i / 8) by lia.
  replace (pitch * height + j * pitch + i / 8)
    with (pitch * height + (j * pitch + i / 8)) by lia.
  rewrite Ea, Exo, <- !bitSet_testbit by lia. reflexivity.
Qed.

Lemma monochrome_packed_rows_witness :
  exists d' t img,
    updatePointer packedProvider packedFrame pointerDup = Some (Ok tt, d', t)
    /\ PointerInfo.shapeOutBuffer (pointerInfo d') = Some img
    /\ PointerInfo.size (pointerInfo d') = dxgi.mkPOINT 8 2
    /\ map (fun i => image.At img i 0) [0; 1; 2; 3; 4; 5; 6; 7]
       = [Some (color.mkRGBA 0 0 0 0); Some (color.mkRGBA 255 255 255 255);
          Some (color.mkRGBA 0 0 0 0); Some (color.mkRGBA 0 0 0 255);
          Some (color.mkRGBA 0 0 0 0); Some (color.mkRGBA 0 0 0 0);
          Some (color.mkRGBA 255 255 255 255); Some (color.mkRGBA 0 0 0 255)]
    /\ map (fun i => image.At img i 1) [0; 1; 2; 3; 4; 5; 6; 7]
       = [Some (color.mkRGBA 255 255 255 255); Some (color.mkRGBA 0 0 0 0);
          Some (color.mkRGBA 255 255 255 255); Some (color.mkRGBA 0 0 0 0);
          Some (color.mkRGBA 0 0 0 0); Some (color.mkRGBA 0 0 0 255);
          Some (color.mkRGBA 0 0 0 0); Some (color.mkRGBA 0 0 0 255)].
Proof.
  pose proof (monochrome_packed_rows packedProvider packedFrame pointerDup 3%nat
                [0x35; 0x0F; 0x53; 0xA5] packedShape) as H.
  cbv zeta in H.
  specialize (H ltac:(discriminate) ltac:(discriminate) eq_refl eq_refl eq_refl
                ltac:(vm_compute; discriminate)
                ltac:(vm_compute; split; [discriminate|reflexivity])
                ltac:(vm_compute; discriminate)
                ltac:(vm_compute; reflexivity)
                ltac:(vm_compute; reflexivity)
                ltac:(vm_compute; discriminate)).
  destruct H as (d' & t & img & E & Eo & Es & HP).
  exists d', t, img. split; [exact E|]. split; [exact Eo|]. split; [exact Es|].
  assert (K : forall i j, 0 <= i < 8 -> 0 <= j < 2 ->
                image.At img i j
                = specMonoPixel [0x35; 0x0F; 0x53; 0xA5] packedShape i j).
  { intros i j Hi Hj. destruct (HP i j Hi Hj) as (c & Ec & Ea).
    rewrite Ea. rewrite <- Ec. reflexivity. }
  split.
  - cbn [map]. rewrite !K by lia. vm_compute. reflexivity.
  - cbn [map]. rewrite !K by lia. vm_compute. reflexivity.
Defined.

(** C1. The monochrome decoder takes the rows of both masks to lie
    [(width + 7) / 8] bytes apart, not [Pitch] bytes as the provider
    lays them out, while it does place the XOR mask [Pitch * height]
    bytes after the AND mask.  On a shape of 8 by 2 pixels with a pitch of
    4 bytes the first row is decoded as the table prescribes, from the
    AND bits 00110101 and the XOR bits 01010011: transparent, white,
    transparent, marker, transparent, transparent, white, marker.  For
    the second row the table prescribes, from the AND bits 00001111 and
    the XOR bits 10100101 at that row, the pixels white, transparent,
    white, transparent, transparent, marker, transparent, marker; the
    decoder reads the padding of the first row instead and stores eight
    transparent pixels. *)
Theorem monochrome_rows_ignore_pitch :
  exists d' t img,
    updatePointer paddedProvider paddedFrame pointerDup = Some (Ok tt, d', t)
    /\ PointerInfo.shapeOutBuffer (pointerInfo d') = Some img
    /\ PointerInfo.size (pointerInfo d') = dxgi.mkPOINT 8 2
    /\ map (fun i => specMonoPixel paddedBytes paddedShape i 0) [0; 1; 2; 3; 4; 5; 6; 7]
       = [Some (color.mkRGBA 0 0 0 0); Some (color.mkRGBA 255 255 255 255);
          Some (color.mkRGBA 0 0 0 0); Some (color.mkRGBA 0 0 0 255);
          Some (color.mkRGBA 0 0 0 0); Some (color.mkRGBA 0 0 0 0);
          Some (color.mkRGBA 255 255 255 255); Some (color.mkRGBA 0 0 0 255)]
    /\ map (fun i => image.At img i 0) [0; 1; 2; 3; 4; 5; 6; 7]
       = [Some (color.mkRGBA 0 0 0 0); Some (color.mkRGBA 255 255 255 255);
          Some (color.mkRGBA 0 0 0 0); Some (color.mkRGBA 0 0 0 255);
          Some (color.mkRGBA 0 0 0 0); Some (color.mkRGBA 0 0 0 0);
          Some (color.mkRGBA 255 255 255 255); Some (color.mkRGBA 0 0 0 255)]
    /\ map (fun i => specMonoPixel paddedBytes paddedShape i 1) [0; 1; 2; 3; 4; 5; 6; 7]
       = [Some (color.mkRGBA 255 255 255 255); Some (color.mkRGBA 0 0 0 0);
          Some (color.mkRGBA 255 255 255 255); Some (color.mkRGBA 0 0 0 0);
          Some (color.mkRGBA 0 0 0 0); Some (color.mkRGBA 0 0 0 255);
          Some (color.mkRGBA 0 0 0 0); Some (color.mkRGBA 0 0 0 255)]
    /\ map (fun i => image.At img i 1) [0; 1; 2; 3; 4; 5; 6; 7]
       = [Some (color.mkRGBA 0 0 0 0); Some (color.mkRGBA 0 0 0 0);
          Some (color.mkRGBA 0 0 0 0); Some (color.mkRGBA 0 0 0 0);
          Some (color.mkRGBA 0 0 0 0); Some (color.mkRGBA 0 0 0 0);
          Some (color.mkRGBA 0 0 0 0); Some (color.mkRGBA 0 0 0 0)].
Proof.
  eexists. eexists. eexists.
  split; [vm_compute; reflexivity|].
  split; [reflexivity|].
  repeat split; vm_compute; reflexivity.
Qed.

(* ================================================================== *)
(** ** GetImage: the rows and the swizzle *)

Lemma index_splice {A} (l seg : list A) (n k : Z) :
  0 <= n -> n + Go.len seg <= Go.len l -> 0 <= k ->
  Go.index (firstn (Z.to_nat n) l ++ seg ++ skipn (Z.to_nat n + length seg) l) k =
  if (n <=? k) && (k <? n + Go.len seg) then Go.index seg (k - n) else Go.index l k.
Proof.
  unfold Go.len, Go.index. intros Hn Hl Hk.
  destruct (Z.ltb_spec k 0); [lia|].
  rewrite nth_error_splice by lia.
  destruct (Nat.leb_spec (Z.to_nat n) (Z.to_nat k)), (Z.leb_spec n k); try lia;
    cbn [andb]; [|reflexivity].
  destruct (Nat.ltb_spec (Z.to_nat k) (Z.to_nat n + length seg)),
    (Z.ltb_spec k (n + Z.of_nat (length seg))); try lia; [|reflexivity].
  destruct (Z.ltb_spec (k - n) 0); [lia|]. f_equal. lia.
Qed.

Lemma copy_at_splice {A} (l row : list A) (lo : Z) :
  0 <= lo -> lo + Go.len row <= Go.len l ->
  Go.copy_at l lo row =
  Some (firstn (Z.to_nat lo) l ++ row ++ skipn (Z.to_nat lo + length row) l).
Proof.
  unfold Go.len. intros Hlo Hl. unfold Go.copy_at, Go.from, Go.len.
  destruct (Z.leb_spec 0 lo), (Z.leb_spec lo (Z.of_nat (length l))); try lia.
  cbn [andb]. unfold Go.copy. rewrite length_skipn, skipn_skipn.
  rewrite (@firstn_all2 _ _ row) by lia.
  do 4 f_equal. lia.
Qed.

Lemma range_row {A} (l : list A) (lo n : Z) :
  0 <= lo -> 0 <= n -> lo + n <= Go.len l ->
  exists row,
    Go.range l lo (lo + n) = Some row /\ Go.len row = n
    /\ forall c, 0 <= c < n -> Go.index row c = Go.index l (lo + c).
Proof.
  unfold Go.len. intros Hlo Hn Hl. unfold Go.range, Go.len.
  destruct (Z.leb_spec 0 lo), (Z.leb_spec lo (lo + n)),
    (Z.leb_spec (lo + n) (Z.of_nat (length l))); try lia.
  cbn [andb]. replace (lo + n - lo) with n by lia.
  eexists. split; [reflexivity|]. split.
  - rewrite length_firstn, length_skipn. lia.
  - intros c Hc. unfold Go.index.
    destruct (Z.ltb_spec c 0), (Z.ltb_spec (lo + c) 0); try lia.
    rewrite nth_error_firstn, nth_error_skipn.
    destruct (Nat.ltb_spec (Z.to_nat c) (Z.to_nat n)); [|lia]. f_equal. lia.
Qed.

Lemma index_firstn {A} (l : list A) (n k : Z) :
  0 <= k < n -> Go.index (firstn (Z.to_nat n) l) k = Go.index l k.
Proof.
  intros H. unfold Go.index. destruct (Z.ltb_spec k 0); [lia|].
  rewrite nth_error_firstn. destruct (Nat.ltb_spec (Z.to_nat k) (Z.to_nat n)); [reflexivity|lia].
Qed.

(** The row copy of GetImage: with [h] rows of [4 * w] bytes at stride
    [pitch] in the mapped memory and room for them in the destination,
    row [r] lands at offset [r * 4 * w], read from offset [r * pitch];
    what follows the last row is as before. *)
Lemma extractRows_rows pix mappedRect size :
  let w := dxgi.X size in
  let h := dxgi.Y size in
  let pitch := dxgi.Pitch mappedRect in
  0 <= w -> 0 <= h -> 4 * w <= pitch ->
  pitch * h <= Go.len (dxgi.PBits mappedRect) ->
  4 * w * h <= Go.len pix ->
  exists pix1,
    extractRows pix mappedRect size = Some pix1
    /\ length pix1 = length pix
    /\ (forall r c, 0 <= r < h -> 0 <= c < 4 * w ->
          Go.index pix1 (r * (4 * w) + c)
          = Go.index (dxgi.PBits mappedRect) (r * pitch + c))
    /\ (forall k, 4 * w * h <= k -> Go.index pix1 k = Go.index pix k).
Proof.
  intros w h pitch Hw Hh Hp Hmem Hpix.
  unfold extractRows. fold w h pitch. unfold unsafe_Slice.
  assert (Hph : 0 <= pitch * h) by (apply Z.mul_nonneg_nonneg; lia).
  destruct (Z.ltb_spec (pitch * h) 0), (Z.ltb_spec (Go.len (dxgi.PBits mappedRect)) (pitch * h));
    try lia. cbn [orb].
  set (data := firstn (Z.to_nat (pitch * h)) (dxgi.PBits mappedRect)).
  assert (Hdata : Go.len data = pitch * h).
  { unfold data, Go.len in *. rewrite length_firstn. lia. }
  destruct (for_lt_total
              (fun r (s : list Z * Z * Z) =>
                 let '(p, imgStart, dataStart) := s in
                 imgStart = r * (4 * w) /\ dataStart = r * pitch
                 /\ length p = length pix
                 /\ (forall r' c, 0 <= r' < r -> 0 <= c < 4 * w ->
                       Go.index p (r' * (4 * w) + c)
                       = Go.index (dxgi.PBits mappedRect) (r' * pitch + c))
                 /\ (forall k, r * (4 * w) <= k -> Go.index p k = Go.index pix k))
              (rowStep data (w * 4) pitch) h (pix, 0, 0) Hh)
    as ([[p imgStart] dataStart] & E & _ & _ & HL & HR & HK).
  { repeat split; try lia. }
  { intros r [[p imgStart] dataStart] Hr (-> & -> & HL & HR & HK).
    assert (Hr1 : (r + 1) * pitch <= h * pitch) by (apply Z.mul_le_mono_nonneg_r; lia).
    assert (Hr2 : (r + 1) * (4 * w) <= h * (4 * w)) by (apply Z.mul_le_mono_nonneg_r; lia).
    assert (Hr3 : 0 <= r * pitch) by (apply Z.mul_nonneg_nonneg; lia).
    assert (Hr4 : 0 <= r * (4 * w)) by (apply Z.mul_nonneg_nonneg; lia).
    destruct (range_row data (r * pitch) (w * 4)) as (row & Erow & Lrow & Irow);
      try lia.
    assert (Ecopy := copy_at_splice p row (r * (4 * w))).
    unfold Go.len in Ecopy, Lrow, Hpix. rewrite HL in Ecopy.
    specialize (Ecopy Hr4 ltac:(lia)).
    eexists. split.
    { unfold rowStep. rewrite Erow, Ecopy. reflexivity. }
    split; [lia|]. split; [lia|]. split.
    { rewrite length_splice; [exact HL|lia]. }
    split.
    - intros r' c Hr' Hc.
      assert (Hr5 : 0 <= r' * (4 * w)) by (apply Z.mul_nonneg_nonneg; lia).
      rewrite index_splice; unfold Go.len; try lia.
      assert (Hcase : r' = r \/ r' < r) by lia. destruct Hcase as [->|Hlt].
      + destruct (Z.leb_spec (r * (4 * w)) (r * (4 * w) + c)),
          (Z.ltb_spec (r * (4 * w) + c) (r * (4 * w) + Z.of_nat (length row)));
          try lia. cbn [andb].
        replace (r * (4 * w) + c - r * (4 * w)) with c by lia.
        rewrite Irow by lia. unfold data. apply index_firstn. lia.
      + assert ((r' + 1) * (4 * w) <= r * (4 * w))
          by (apply Z.mul_le_mono_nonneg_r; lia).
        destruct (Z.leb_spec (r * (4 * w)) (r' * (4 * w) + c)); [lia|].
        cbn [andb]. apply HR; lia.
    - intros k Hk. rewrite index_splice; unfold Go.len; try lia.
      destruct (Z.ltb_spec k (r * (4 * w) + Z.of_nat (length row))); [lia|].
      rewrite andb_false_r. apply HK. lia. }
  rewrite E. exists p. split; [reflexivity|]. split; [exact HL|].
  split; [exact HR|]. intros k Hk. apply HK. lia.
Qed.

Lemma swap02_length_le n : forall p, (length p <= n)%nat ->
  length (swizzle.swap02 p) = length p.
Proof.
  induction n as [|n IH]; intros p Hp.
  - destruct p; [reflexivity|cbn in Hp; lia].
  - destruct p as [|a [|b [|c [|e rest]]]]; try reflexivity.
    cbn [swizzle.swap02 length] in *. rewrite IH by lia. reflexivity.
Qed.

Lemma swap02_length p : length (swizzle.swap02 p) = length p.
Proof. exact (swap02_length_le (length p) p (le_n _)). Qed.

(** The swap, pixel by pixel: bytes 0 and 2 change places, bytes 1 and 3
    stay. *)
Lemma swap02_pixel (k : nat) : forall p, (4 * k + 4 <= length p)%nat ->
  nth_error (swizzle.swap02 p) (4 * k) = nth_error p (4 * k + 2)
  /\ nth_error (swizzle.swap02 p) (4 * k + 1) = nth_error p (4 * k + 1)
  /\ nth_error (swizzle.swap02 p) (4 * k + 2) = nth_error p (4 * k)
  /\ nth_error (swizzle.swap02 p) (4 * k + 3) = nth_error p (4 * k + 3).
Proof.
  induction k as [|k IH]; intros p Hp;
    destruct p as [|a [|b [|c [|e rest]]]]; cbn [length] in Hp; try lia.
  - cbn. auto.
  - replace (4 * S k)%nat with (S (S (S (S (4 * k))))) by lia.
    cbn [swizzle.swap02 nth_error Nat.add]. apply IH. lia.
Qed.

(** C6. With [h] rows at stride [pitch >= 4 * w] in the mapped memory
    and room for [4 * w * h] bytes in the destination, the row copy of
    GetImage returns; row [r] of the destination, at offset [r * 4 * w],
    holds the first [4 * w] bytes of the source row at offset
    [r * pitch], so that the padding is left out, and the bytes after the
    last row are as before.  Then the buffer is handed to the swizzle if
    and only if needsSwizzle is set.  With the flag clear the result is
    the extracted buffer itself.  With the flag set and a destination of
    whole pixels (a length that is a multiple of 4), bytes 0 and 2 of
    every 4-byte pixel of the whole buffer have changed places and bytes
    1 and 3 have not moved; on a destination that ends in a partial pixel
    the swizzle panics. *)
Theorem getImage_rows_and_swizzle (dup : OutputDuplicator) (pix : list Go.byte)
  (mappedRect : dxgi.DXGI_MAPPED_RECT) (size : dxgi.POINT) :
  let w := dxgi.X size in
  let h := dxgi.Y size in
  let pitch := dxgi.Pitch mappedRect in
  0 <= w -> 0 <= h -> 4 * w <= pitch ->
  pitch * h <= Go.len (dxgi.PBits mappedRect) ->
  4 * w * h <= Go.len pix ->
  exists pix1,
    extractRows pix mappedRect size = Some pix1
    /\ length pix1 = length pix
    /\ (forall r c, 0 <= r < h -> 0 <= c < 4 * w ->
          Go.index pix1 (r * (4 * w) + c)
          = Go.index (dxgi.PBits mappedRect) (r * pitch + c))
    /\ (forall k, 4 * w * h <= k -> Go.index pix1 k = Go.index pix k)
    /\ (needsSwizzle dup = false ->
        transferPixels dup pix mappedRect size = Some pix1)
    /\ (needsSwizzle dup = true -> Z.rem (Go.len pix) 4 = 0 ->
        exists out,
          transferPixels dup pix mappedRect size = Some out
          /\ length out = length pix
          /\ forall k, 0 <= k -> 4 * k + 4 <= Go.len pix ->
               Go.index out (4 * k) = Go.index pix1 (4 * k + 2)
               /\ Go.index out (4 * k + 1) = Go.index pix1 (4 * k + 1)
               /\ Go.index out (4 * k + 2) = Go.index pix1 (4 * k)
               /\ Go.index out (4 * k + 3) = Go.index pix1 (4 * k + 3))
    /\ (needsSwizzle dup = true -> Z.rem (Go.len pix) 4 <> 0 ->
        transferPixels dup pix mappedRect size = None).
Proof.
  intros w h pitch Hw Hh Hp Hmem Hpix.
  destruct (extractRows_rows pix mappedRect size Hw Hh Hp Hmem Hpix)
    as (pix1 & E & HL & HR & HK).
  assert (HLz : Go.len pix1 = Go.len pix) by (unfold Go.len; now rewrite HL).
  exists pix1.
  split; [exact E|]. split; [exact HL|]. split; [exact HR|]. split; [exact HK|].
  unfold transferPixels, swizzle.BGRA. rewrite E, HLz.
  split; [intros ->; reflexivity|]. split.
  - intros -> Hrem. rewrite Hrem, Z.eqb_refl.
    exists (swizzle.swap02 pix1). split; [reflexivity|].
    split; [now rewrite swap02_length|].
    intros k Hk Hlen. unfold Go.len in Hlen.
    destruct (swap02_pixel (Z.to_nat k) pix1) as (B0 & B1 & B2 & B3); [lia|].
    unfold Go.index.
    destruct (Z.ltb_spec (4 * k) 0), (Z.ltb_spec (4 * k + 1) 0),
      (Z.ltb_spec (4 * k + 2) 0), (Z.ltb_spec (4 * k + 3) 0); try lia.
    replace (Z.to_nat (4 * k)) with (4 * Z.to_nat k)%nat by lia.
    replace (Z.to_nat (4 * k + 1)) with (4 * Z.to_nat k + 1)%nat by lia.
    replace (Z.to_nat (4 * k + 2)) with (4 * Z.to_nat k + 2)%nat by lia.
    replace (Z.to_nat (4 * k + 3)) with (4 * Z.to_nat k + 3)%nat by lia.
    auto.
  - intros -> Hrem. apply Z.eqb_neq in Hrem. now rewrite Hrem.
Qed.

Lemma getImage_rows_and_swizzle_witness :
  transferPixels (newDup true) (repeat 0 16)
    (dxgi.mkMAPPED_RECT 12 (map Z.of_nat (seq 0 24))) (dxgi.mkPOINT 2 2)
  = Some [2; 1; 0; 3; 6; 5; 4; 7; 14; 13; 12; 15; 18; 17; 16; 19]
  /\ transferPixels (newDup false) (repeat 0 16)
       (dxgi.mkMAPPED_RECT 12 (map Z.of_nat (seq 0 24))) (dxgi.mkPOINT 2 2)
     = Some [0; 1; 2; 3; 4; 5; 6; 7; 12; 13; 14; 15; 16; 17; 18; 19]
  /\ transferPixels (newDup true) (repeat 0 18)
       (dxgi.mkMAPPED_RECT 12 (map Z.of_nat (seq 0 24))) (dxgi.mkPOINT 2 2)
     = None.
Proof.
  split; [|split].
  - destruct (getImage_rows_and_swizzle (newDup true) (repeat 0 16)
                (dxgi.mkMAPPED_RECT 12 (map Z.of_nat (seq 0 24))) (dxgi.mkPOINT 2 2))
      as (pix1 & _ & _ & _ & _ & _ & K & _); try (cbn; lia).
    destruct K as (out & E & _); [reflexivity|reflexivity|].
    rewrite E. vm_compute in E. now injection E as <-.
  - destruct (getImage_rows_and_swizzle (newDup false) (repeat 0 16)
                (dxgi.mkMAPPED_RECT 12 (map Z.of_nat (seq 0 24))) (dxgi.mkPOINT 2 2))
      as (pix1 & E1 & _ & _ & _ & K & _); try (cbn; lia).
    rewrite (K eq_refl). vm_compute in E1. now injection E1 as <-.
  - destruct (getImage_rows_and_swizzle (newDup true) (repeat 0 18)
                (dxgi.mkMAPPED_RECT 12 (map Z.of_nat (seq 0 24))) (dxgi.mkPOINT 2 2))
      as (pix1 & _ & _ & _ & _ & _ & _ & K); try (cbn; lia).
    apply K; [reflexivity|discriminate].
Defined.

(* ================================================================== *)
(** ** Pixels of an image *)

Lemma splice4_range {A} (l seg : list A) (i : Z) :
  0 <= i -> i + 4 <= Go.len l -> length seg = 4%nat ->
  let l' := firstn (Z.to_nat i) l ++ seg ++ skipn (Z.to_nat i + 4) l in
  length l' = length l
  /\ Go.range l' i (i + 4) = Some seg
  /\ (forall j, 0 <= j -> j + 4 <= i \/ i + 4 <= j ->
                Go.range l' j (j + 4) = Go.range l j (j + 4)).
Proof.
  intros Hi Hl Hs l'. unfold Go.len in Hl.
  assert (Hn : (Z.to_nat i + length seg <= length l)%nat) by lia.
  assert (HL : length l' = length l).
  { unfold l'. rewrite <- Hs at 1. exact (length_splice l seg (Z.to_nat i) Hn). }
  split; [exact HL|].
  split; [apply range4_seg; [assumption|assumption|lia]|].
  intros j Hj Hd. apply range4_ext; [assumption|exact HL|].
  intros k Hk. unfold l'. rewrite <- Hs at 1.
  rewrite nth_error_splice by exact Hn. rewrite Hs.
  destruct (Nat.leb_spec (Z.to_nat i) k), (Nat.ltb_spec k (Z.to_nat i + 4));
    cbn [andb]; try reflexivity. lia.
Qed.

Lemma PointIn_true x y r :
  image.PointIn x y r = true ->
  image.MinX r <= x < image.MaxX r /\ image.MinY r <= y < image.MaxY r.
Proof.
  unfold image.PointIn. intros H.
  apply andb_prop in H. destruct H as [H H4].
  apply andb_prop in H. destruct H as [H H3].
  apply andb_prop in H. destruct H as [H1 H2].
  apply Z.leb_le in H1, H3. apply Z.ltb_lt in H2, H4. lia.
Qed.

Lemma PixOffset_bounds p x y :
  wf_image p -> image.PointIn x y (image.Bounds p) = true ->
  0 <= image.PixOffset p x y /\ image.PixOffset p x y + 4 <= Go.len (image.Pix p).
Proof.
  intros (Hs & Hd & Hl) H. apply PointIn_true in H. destruct H as [Hx Hy].
  unfold image.PixOffset, image.Dx, image.Dy in *.
  set (S := image.Stride p) in *.
  set (Y := y - image.MinY (image.Bounds p)).
  assert (0 <= Y * S) by (apply Z.mul_nonneg_nonneg; lia).
  assert ((Y + 1) * S
          <= (image.MaxY (image.Bounds p) - image.MinY (image.Bounds p)) * S)
    by (apply Z.mul_le_mono_nonneg_r; lia).
  lia.
Qed.

Lemma PixOffset_apart p x y x' y' :
  wf_image p ->
  image.PointIn x y (image.Bounds p) = true ->
  image.PointIn x' y' (image.Bounds p) = true ->
  x <> x' \/ y <> y' ->
  image.PixOffset p x y + 4 <= image.PixOffset p x' y'
  \/ image.PixOffset p x' y' + 4 <= image.PixOffset p x y.
Proof.
  intros (Hs & Hd & Hl) H H'. apply PointIn_true in H, H'.
  destruct H as [Hx Hy], H' as [Hx' Hy']. intros Hne.
  unfold image.PixOffset, image.Dx in *.
  set (S := image.Stride p) in *.
  set (Y := y - image.MinY (image.Bounds p)).
  set (Y' := y' - image.MinY (image.Bounds p)).
  assert (Hc : Y < Y' \/ Y' < Y \/ (Y = Y' /\ x <> x')) by (unfold Y, Y'; lia).
  destruct Hc as [Hc|[Hc|[Hc Hxx]]].
  - left. assert ((Y + 1) * S <= Y' * S) by (apply Z.mul_le_mono_nonneg_r; lia). lia.
  - right. assert ((Y' + 1) * S <= Y * S) by (apply Z.mul_le_mono_nonneg_r; lia). lia.
  - rewrite Hc. lia.
Qed.

Lemma firstn4_exists {A} (l : list A) :
  (4 <= length l)%nat -> exists a b c e, firstn 4 l = [a; b; c; e].
Proof.
  destruct l as [|a [|b [|c [|e rest]]]]; cbn; try lia. intros _. now exists a, b, c, e.
Qed.

(** A well-formed image has a colour at every point. *)
Lemma At_total p x y : wf_image p -> exists c, image.At p x y = Some c.
Proof.
  intros Hwf. unfold image.At.
  destruct (image.PointIn x y (image.Bounds p)) eqn:E; [|eauto].
  destruct (PixOffset_bounds p x y Hwf E) as (H0 & H4). cbv zeta.
  rewrite range4 by exact H0.
  destruct (Z.leb_spec (image.PixOffset p x y + 4) (Go.len (image.Pix p))); [|lia].
  destruct (firstn4_exists (skipn (Z.to_nat (image.PixOffset p x y)) (image.Pix p)))
    as (a & b & c & e & ->).
  { rewrite length_skipn. unfold Go.len in *. lia. }
  eauto.
Qed.

Lemma At_colorAt p x y : wf_image p -> image.At p x y = Some (colorAt p x y).
Proof.
  intros Hwf. unfold colorAt. destruct (At_total p x y Hwf) as (c & ->). reflexivity.
Qed.

(** Set on a well-formed image: the pixel set reads back, the others
    are as before. *)
Lemma Set_spec p x y c :
  wf_image p ->
  exists p',
    image.Set' p x y c = Some p'
    /\ wf_image p'
    /\ image.Bounds p' = image.Bounds p
    /\ (forall x' y', image.PointIn x' y' (image.Bounds p) = true ->
          image.At p' x' y' = if (x' =? x) && (y' =? y) then Some c
                              else image.At p x' y').
Proof.
  intros Hwf. unfold image.Set'.
  destruct (image.PointIn x y (image.Bounds p)) eqn:E.
  - destruct (PixOffset_bounds p x y Hwf E) as (H0 & H4). cbv zeta.
    rewrite range4 by exact H0.
    destruct (Z.leb_spec (image.PixOffset p x y + 4) (Go.len (image.Pix p))); [|lia].
    destruct (splice4_range (image.Pix p) [color.R c; color.G c; color.B c; color.A c]
                (image.PixOffset p x y) H0 H4 eq_refl) as (HL & Hsame & Hother).
    replace (Z.to_nat (image.PixOffset p x y + 4))
      with (Z.to_nat (image.PixOffset p x y) + 4)%nat by lia.
    eexists. split; [reflexivity|]. split; [|split; [reflexivity|]].
    + destruct Hwf as (Hs & Hd & Hl). unfold wf_image, image.with_Pix.
      cbn [image.Bounds image.Stride image.Pix]. unfold Go.len in *.
      rewrite HL. auto.
    + intros x' y' E'. unfold image.At at 1. unfold image.with_Pix.
      cbn [image.Bounds image.Pix]. rewrite E'.
      change (image.PixOffset _ x' y') with (image.PixOffset p x' y').
      cbv zeta.
      destruct (Z.eqb_spec x' x) as [->|Hx]; [destruct (Z.eqb_spec y' y) as [->|Hy]|];
        cbn [andb].
      * rewrite Hsame. destruct c; reflexivity.
      * destruct (PixOffset_bounds p x y' Hwf E') as (H0' & _).
        rewrite Hother; [unfold image.At; now rewrite E'|exact H0'|].
        destruct (PixOffset_apart p x y x y' Hwf E E'); [now right| |]; lia.
      * destruct (PixOffset_bounds p x' y' Hwf E') as (H0' & _).
        rewrite Hother; [unfold image.At; now rewrite E'|exact H0'|].
        destruct (PixOffset_apart p x y x' y' Hwf E E'); [left; congruence| |]; lia.
  - exists p. split; [reflexivity|]. split; [exact Hwf|]. split; [reflexivity|].
    intros x' y' E'.
    destruct (Z.eqb_spec x' x) as [->|Hx]; [destruct (Z.eqb_spec y' y) as [->|Hy]|];
      cbn [andb]; try reflexivity. congruence.
Qed.

(* ================================================================== *)
(** ** The cursor compositor: drawing *)

Lemma widen_zero c : (color.widen c =? 0) = (c =? 0).
Proof.
  unfold color.widen. destruct (Z.eqb_spec c 0) as [->|Hc]; [reflexivity|].
  apply Z.eqb_neq. intros H. apply Z.lor_eq_0_iff in H. tauto.
Qed.

Lemma widen_max c : (color.widen c =? 0xFFFF) = (c =? 255).
Proof.
  unfold color.widen. destruct (Z.eqb_spec c 255) as [->|Hc]; [reflexivity|].
  apply Z.eqb_neq. intros H. apply Hc. apply Z.bits_inj'. intros k Hk.
  change 255 with (Z.ones 8). change 0xFFFF with (Z.ones 16) in H.
  destruct (Z.lt_ge_cases k 8) as [Hlt|Hge].
  - rewrite Z.ones_spec_low by lia.
    assert (Hb := f_equal (fun z => Z.testbit z k) H). cbv beta in Hb.
    rewrite Z.lor_spec, Z.shiftl_spec_low, Z.ones_spec_low, orb_false_r in Hb by lia.
    exact Hb.
  - rewrite Z.ones_spec_high by lia.
    assert (Hb := f_equal (fun z => Z.testbit z (k + 8)) H). cbv beta in Hb.
    rewrite Z.lor_spec, Z.shiftl_spec, Z.ones_spec_high in Hb by lia.
    replace (k + 8 - 8) with k in Hb by lia.
    apply orb_false_iff in Hb. tauto.
Qed.

(** One round of drawPointer, read with [composite]. *)
Lemma drawStep_composite dup light shape j i cur :
  PointerInfo.shapeOutBuffer (pointerInfo dup) = Some shape ->
  wf_image shape ->
  drawStep dup light j i cur =
  match composite light (colorAt shape i j) with
  | None => Some cur
  | Some col =>
      image.Set' cur (dxgi.X (PointerInfo.pos (pointerInfo dup)) + i)
                     (dxgi.Y (PointerInfo.pos (pointerInfo dup)) + j) col
  end.
Proof.
  intros Hs Hwf. unfold drawStep. rewrite Hs, (At_colorAt shape i j Hwf).
  unfold composite, isMarker, color.RGBA16.
  rewrite !widen_zero, widen_max.
  destruct (color.A (colorAt shape i j) =? 0); reflexivity.
Qed.

(** drawPointer with a given classification: every point of the image
    under the cursor shape holds what [composite] gives for the cursor
    pixel there, or what it held when that is nothing; the other points
    are as before. *)
Lemma draw_loops dup light shape img :
  PointerInfo.shapeOutBuffer (pointerInfo dup) = Some shape ->
  wf_image shape -> wf_image img ->
  exists img',
    Go.for_lt (dxgi.Y (PointerInfo.size (pointerInfo dup)))
      (fun j => Go.for_lt (dxgi.X (PointerInfo.size (pointerInfo dup)))
                  (drawStep dup light j)) img = Some img'
    /\ wf_image img'
    /\ image.Bounds img' = image.Bounds img
    /\ forall x y, image.PointIn x y (image.Bounds img) = true ->
         (underCursor dup x y ->
          image.At img' x y =
          match composite light
                  (colorAt shape (x - dxgi.X (PointerInfo.pos (pointerInfo dup)))
                                 (y - dxgi.Y (PointerInfo.pos (pointerInfo dup)))) with
          | Some c => Some c
          | None => image.At img x y
          end)
         /\ (~ underCursor dup x y -> image.At img' x y = image.At img x y).
Proof.
  intros Hs Hwfs Hwf. unfold underCursor.
  set (px := dxgi.X (PointerInfo.pos (pointerInfo dup))).
  set (py := dxgi.Y (PointerInfo.pos (pointerInfo dup))).
  set (sx := dxgi.X (PointerInfo.size (pointerInfo dup))).
  set (sy := dxgi.Y (PointerInfo.size (pointerInfo dup))).
  set (expected := fun x y =>
         match composite light (colorAt shape (x - px) (y - py)) with
         | Some c => Some c
         | None => image.At img x y
         end).
  set (done := fun (j i x y : Z) =>
         0 <= x - px < sx /\ 0 <= y - py
         /\ (y - py < j \/ (y - py = j /\ x - px < i))).
  set (Inv := fun (j i : Z) (cur : image.RGBA) =>
         wf_image cur /\ image.Bounds cur = image.Bounds img
         /\ forall x y, image.PointIn x y (image.Bounds img) = true ->
              (done j i x y -> image.At cur x y = expected x y)
              /\ (~ done j i x y -> image.At cur x y = image.At img x y)).
  assert (Hinner : forall j cur, 0 <= j -> Inv j 0 cur ->
            exists cur', Go.loop (Z.to_nat sx) 0 (drawStep dup light j) cur = Some cur'
                         /\ Inv (j + 1) 0 cur').
  { intros j cur Hj0 H0.
    destruct (loop_total (fun i c => Inv j i c) (drawStep dup light j)
                (Z.to_nat sx) 0 cur H0) as (cur' & E & H').
    - intros i c Hi (Hwc & Hbc & Hc).
      rewrite (drawStep_composite dup light shape j i c Hs Hwfs). fold px py.
      destruct (composite light (colorAt shape i j)) as [col|] eqn:Ec.
      + destruct (Set_spec c (px + i) (py + j) col Hwc)
          as (c' & Es & Hwc' & Hbc' & Hat).
        exists c'. split; [exact Es|]. split; [exact Hwc'|]. split; [congruence|].
        intros x y Hin. rewrite Hat by (rewrite Hbc; exact Hin).
        destruct (Hc x y Hin) as (Hd & Hn).
        destruct (Z.eqb_spec x (px + i)) as [->|Hx];
          [destruct (Z.eqb_spec y (py + j)) as [->|Hy]|]; cbn [andb].
        * split; [|intros C; exfalso; apply C; unfold done; lia].
          intros _. unfold expected.
          replace (px + i - px) with i by lia. replace (py + j - py) with j by lia.
          now rewrite Ec.
        * split; intros Hdone; [apply Hd|apply Hn]; unfold done in *; lia.
        * split; intros Hdone; [apply Hd|apply Hn]; unfold done in *; lia.
      + exists c. split; [reflexivity|]. split; [exact Hwc|]. split; [exact Hbc|].
        intros x y Hin. destruct (Hc x y Hin) as (Hd & Hn).
        assert (Hcase : (x - px = i /\ y - py = j) \/ ~ (x - px = i /\ y - py = j))
          by lia.
        destruct Hcase as [[Hx Hy]|Hne].
        * split; [|intros C; exfalso; apply C; unfold done; lia].
          intros _. unfold expected. rewrite Hx, Hy, Ec. apply Hn. unfold done. lia.
        * split; intros Hdone; [apply Hd|apply Hn]; unfold done in *; lia.
    - exists cur'. split; [exact E|].
      destruct H' as (Hwc & Hbc & Hc). split; [exact Hwc|]. split; [exact Hbc|].
      intros x y Hin. destruct (Hc x y Hin) as (Hd & Hn).
      split; intros Hdone; [apply Hd|apply Hn]; unfold done in *; lia. }
  destruct (loop_total (fun j c => Inv j 0 c)
              (fun j => Go.for_lt sx (drawStep dup light j)) (Z.to_nat sy) 0 img)
    as (img' & E & Hwc & Hbc & Hc).
  { split; [exact Hwf|]. split; [reflexivity|]. intros x y Hin.
    split; [unfold done; lia|reflexivity]. }
  { intros j c Hj Hc. apply (Hinner j c); [lia|exact Hc]. }
  exists img'. split; [exact E|]. split; [exact Hwc|]. split; [exact Hbc|].
  intros x y Hin. destruct (Hc x y Hin) as (Hd & Hn).
  split.
  - intros Hu. apply Hd. unfold done. lia.
  - intros Hu. apply Hn. unfold done. lia.
Qed.

(* ================================================================== *)
(** ** The cursor compositor: the background *)

Lemma zrange_S a n : zrange a (S n) = a :: zrange (a + 1) n.
Proof.
  unfold zrange. cbn [seq map]. rewrite <- seq_shift, map_map. f_equal; [lia|].
  apply map_ext. intros k. lia.
Qed.

Lemma uint64_add_l a b : uint64 (uint64 a + b) = uint64 (a + b).
Proof. unfold uint64. apply Z.add_mod_idemp_l. lia. Qed.

Lemma zsum_app l1 l2 : zsum (l1 ++ l2) = zsum l1 + zsum l2.
Proof. induction l1 as [|a l1 IH]; cbn; [reflexivity|]. unfold zsum in *. lia. Qed.

Lemma len_app {A} (l1 l2 : list A) : Go.len (l1 ++ l2) = Go.len l1 + Go.len l2.
Proof. unfold Go.len. rewrite length_app. lia. Qed.

(** One row of samples: the sum and the count grow by the lumas and the
    number of the points of the row outside the cursor. *)
Lemma sample_row dup img y :
  wf_image img ->
  forall (n : nat) (a : Z) (acc : Z * Z) (T C : Z),
    fst acc = uint64 T -> snd acc = uint64 C ->
    let pts := map (fun x => (x, y))
                 (filter (fun x => negb (inCursor dup x y)) (zrange a n)) in
    exists acc',
      Go.loop n a (sampleStep dup img y) acc = Some acc'
      /\ fst acc' = uint64 (T + zsum (map (fun p => luma (colorAt img (fst p) (snd p))) pts))
      /\ snd acc' = uint64 (C + Go.len pts).
Proof.
  intros Hwf. induction n as [|n IH]; intros a acc T C HT HC pts.
  - exists acc. subst pts. cbn. rewrite !Z.add_0_r. auto.
  - subst pts. rewrite zrange_S. cbn [Go.loop filter].
    unfold sampleStep at 1.
    destruct (inCursor dup a y); cbn [negb].
    + exact (IH (a + 1) acc T C HT HC).
    + rewrite (At_colorAt img a y Hwf).
      change (let '(r, g, b, _) := color.RGBA16 (colorAt img a y) in
              Some (uint64 (fst acc + brightness r g b), uint64 (snd acc + 1)))
        with (Some (uint64 (fst acc + luma (colorAt img a y)), uint64 (snd acc + 1))).
      destruct (IH (a + 1)
                  (uint64 (fst acc + luma (colorAt img a y)), uint64 (snd acc + 1))
                  (T + luma (colorAt img a y)) (C + 1)) as (acc' & E & ET & EC).
      { cbn [fst]. now rewrite HT, uint64_add_l. }
      { cbn [snd]. now rewrite HC, uint64_add_l. }
      exists acc'. split; [exact E|]. cbn [map zsum fold_right fst snd].
      split.
      * rewrite ET. f_equal. unfold zsum. lia.
      * rewrite EC. f_equal. unfold Go.len. cbn [length]. lia.
Qed.

(** The classification computed by the two sampling loops. *)
Lemma analyze_lightRing dup img :
  wf_image img ->
  analyzeBackgroundBrightness dup img = Some (lightRing dup img).
Proof.
  intros Hwf. unfold analyzeBackgroundBrightness, lightRing, ringPoints.
  assert (Hrow : forall y, ringRow dup img y =
            let '(startX, _, endX, _) := sampleArea dup img in
            map (fun x => (x, y))
              (filter (fun x => negb (inCursor dup x y))
                 (zrange startX (Z.to_nat (endX - startX + 1))))) by reflexivity.
  destruct (sampleArea dup img) as [[[sx sy] ex] ey].
  assert (Hrows : forall (n : nat) (a : Z) (acc : Z * Z) (T C : Z),
            fst acc = uint64 T -> snd acc = uint64 C ->
            let pts := flat_map (ringRow dup img) (zrange a n) in
            exists acc',
              Go.loop n a
                (fun y => Go.loop (Z.to_nat (ex - sx + 1)) sx (sampleStep dup img y))
                acc = Some acc'
              /\ fst acc' = uint64 (T + zsum (map (fun p => luma (colorAt img (fst p) (snd p))) pts))
              /\ snd acc' = uint64 (C + Go.len pts)).
  { induction n as [|n IH]; intros a acc T C HT HC pts.
    - exists acc. subst pts. cbn. rewrite !Z.add_0_r. auto.
    - subst pts. rewrite zrange_S. cbn [Go.loop flat_map].
      destruct (sample_row dup img a Hwf (Z.to_nat (ex - sx + 1)) sx acc T C HT HC)
        as (acc1 & E1 & ET1 & EC1).
      rewrite E1. rewrite <- Hrow in ET1, EC1.
      destruct (IH (a + 1) acc1 _ _ ET1 EC1) as (acc' & E & ET & EC).
      exists acc'. split; [exact E|].
      rewrite map_app, zsum_app, len_app. split.
      + rewrite ET. f_equal. lia.
      + rewrite EC. f_equal. lia. }
  destruct (Hrows (Z.to_nat (ey - sy + 1)) sy (0, 0) 0 0 eq_refl eq_refl)
    as ([total count] & E & ET & EC).
  rewrite E. cbn [fst snd] in ET, EC. rewrite Z.add_0_l in ET, EC.
  rewrite <- ET, <- EC.
  destruct (count =? 0); reflexivity.
Qed.











(* ================================================================== *)
(** ** From a precondition to an invariant *)

Section Leads.

Variable I : OutputDuplicator -> Prop.
Variable Q : event -> bool.

Lemma leads_weaken {A} (P P' : OutputDuplicator -> Prop) (m : M A) :
  (forall d, P d -> P' d) -> leads P' I Q m -> leads P I Q m.
Proof. intros HP Hm d r d' t Hd. apply Hm. auto. Qed.

Lemma leads_ret {A} P (a : A) : (forall d, P d -> I d) -> leads P I Q (ret a).
Proof. intros HP d r d' t Hd H. injection H as <- <- <-. auto. Qed.

Lemma leads_fail {A} P (e : error) : (forall d, P d -> I d) -> leads P I Q (@fail A e).
Proof. intros HP d r d' t Hd H. injection H as <- <- <-. auto. Qed.

Lemma leads_get {A} P (f : OutputDuplicator -> A) :
  (forall d, P d -> I d) -> leads P I Q (get f).
Proof. intros HP d r d' t Hd H. injection H as <- <- <-. auto. Qed.

Lemma leads_emit P (e : event) :
  Q e = true -> (forall d, P d -> I d) -> leads P I Q (emit e).
Proof.
  intros He HP d r d' t Hd H. injection H as <- <- <-. cbn. rewrite He. auto.
Qed.

Lemma leads_modify P (f : OutputDuplicator -> OutputDuplicator) :
  (forall d, P d -> I (f d)) -> leads P I Q (modify f).
Proof. intros HP d r d' t Hd H. injection H as <- <- <-. auto. Qed.

Lemma leads_deref P (f : OutputDuplicator -> option handle) :
  (forall d, P d -> I d) -> leads P I Q (deref f).
Proof.
  intros HP d r d' t Hd. unfold deref. destruct (f d); [|discriminate].
  intros H. injection H as <- <- <-. auto.
Qed.

Lemma leads_lift {A} P (o : option A) :
  (forall d, P d -> I d) -> leads P I Q (lift o).
Proof.
  intros HP d r d' t Hd. unfold lift. destruct o; [|discriminate].
  intros H. injection H as <- <- <-. auto.
Qed.

Lemma leads_bind {A B} P (m : M A) (f : A -> M B) :
  leads P I Q m -> (forall a, leads I I Q (f a)) -> leads P I Q (x <- m ;; f x).
Proof.
  intros Hm Hf d r d' t Hd H. apply bind_inv in H.
  destruct H as [(e & H & _) | (a & d1 & t1 & t2 & H1 & H2 & ->)].
  - exact (Hm _ _ _ _ Hd H).
  - destruct (Hm _ _ _ _ Hd H1) as (I1 & Q1).
    destruct (Hf a _ _ _ _ I1 H2) as (I2 & Q2).
    split; [exact I2|]. rewrite forallb_app, Q1, Q2. reflexivity.
Qed.

(** What was read stays known while the rest runs from the same state. *)
Lemma leads_get_bind {A B} P (f : OutputDuplicator -> A) (k : A -> M B) :
  (forall v, leads (fun d => P d /\ f d = v) I Q (k v)) ->
  leads P I Q (x <- get f ;; k x).
Proof.
  intros Hk d r d' t Hd. rewrite run_get. intros H.
  exact (Hk (f d) d r d' t (conj Hd eq_refl) H).
Qed.

Lemma leads_defer {A} P (c : M unit) (m : M A) :
  leads P I Q m -> leads I I Q c -> leads P I Q (defer c m).
Proof.
  intros Hm Hc d r d' t Hd H. apply defer_inv in H.
  destruct H as (d1 & t1 & u & t2 & H1 & H2 & ->).
  destruct (Hm _ _ _ _ Hd H1) as (I1 & Q1).
  destruct (Hc _ _ _ _ I1 H2) as (I2 & Q2).
  split; [exact I2|]. rewrite forallb_app, Q1, Q2. reflexivity.
Qed.

Lemma leads_emit_all P l :
  (forall d, P d -> I d) -> forallb Q l = true -> leads P I Q (emit_all l).
Proof.
  intros HP Hl d r d' t Hd H. apply emit_all_inv in H.
  destruct H as (_ & -> & ->). auto.
Qed.

Lemma leads_ReleaseFrame P :
  (forall d, P d -> I (set_acquiredFrame false d)) ->
  Q EvReleaseFrame = true -> leads P I Q ReleaseFrame.
Proof.
  intros HP Hq d r d' t Hd H. apply ReleaseFrame_inv in H.
  destruct H as (_ & -> & ->). split; [auto|].
  destruct (acquiredFrame d); cbn; rewrite ?Hq; reflexivity.
Qed.

Lemma leads_fetchMoveRects P o :
  (forall b d, P d -> I (set_movedRects b d)) ->
  (forall n, Q (EvMakeMovedRects n) = true) ->
  (forall n, Q (EvGetFrameMoveRects n) = true) ->
  leads P I Q (fetchMoveRects o).
Proof.
  intros HP Hm Hc d r d' t Hd. unfold fetchMoveRects. run_case. run.
  destruct (fetchRects _ _ _ _ _ _) as [[[b st] t']|] eqn:E; [|discriminate].
  apply keeps_fetchRects with (Q := Q) in E; trivial.
  destruct st; intros H; injection H as <- <- <-; auto.
Qed.

Lemma leads_fetchDirtyRects P o :
  (forall b d, P d -> I (set_dirtyRects b d)) ->
  (forall n, Q (EvMakeDirtyRects n) = true) ->
  (forall n, Q (EvGetFrameDirtyRects n) = true) ->
  leads P I Q (fetchDirtyRects o).
Proof.
  intros HP Hm Hc d r d' t Hd. unfold fetchDirtyRects. run_case. run.
  destruct (fetchRects _ _ _ _ _ _) as [[[b st] t']|] eqn:E; [|discriminate].
  apply keeps_fetchRects with (Q := Q) in E; trivial.
  destruct st; intros H; injection H as <- <- <-; auto.
Qed.

End Leads.

(* ================================================================== *)
(** ** Invariants of the copy *)

Section CopyFrameInvariant.

Variable o : Provider.
Variable I : OutputDuplicator -> Prop.
Variable Q : event -> bool.

Hypothesis I_movedRects : forall v d, I d -> I (set_movedRects v d).
Hypothesis I_dirtyRects : forall v d, I d -> I (set_dirtyRects v d).
Hypothesis I_needsSwizzle : forall d, I d -> I (set_needsSwizzle true d).
Hypothesis Q_copy : forall e, is_copyFrame_event e = true -> Q e = true.

Lemma boxCopies_pass l : forallb Q (map boxCopy l) = true.
Proof.
  induction l as [|a l IH]; cbn; [reflexivity|]. rewrite Q_copy, IH; reflexivity.
Qed.

Lemma copyFrame_leads info : leads I I Q (copyFrame o info).
Proof.
  unfold copyFrame.
  destruct (0 <? dxgi.TotalMetadataBufferSize info).
  - apply leads_bind; [|intros _].
    { apply leads_fetchMoveRects; auto; intros; apply Q_copy; reflexivity. }
    apply leads_bind; [|intros _].
    { apply leads_fetchDirtyRects; auto; intros; apply Q_copy; reflexivity. }
    apply leads_bind; [apply leads_get; auto|intros moved].
    destruct (Go.slice_len moved =? 0).
    + apply leads_bind; [apply leads_get; auto|intros dirty].
      apply leads_emit_all; [auto|apply boxCopies_pass].
    + apply leads_emit_all; [auto|]. cbn. rewrite Q_copy; reflexivity.
  - apply leads_bind; [|intros _].
    { apply leads_emit_all; [auto|]. cbn. rewrite Q_copy; reflexivity. }
    apply leads_bind; [apply leads_get; auto|intros swz].
    apply leads_bind; [|intros _].
    { destruct (negb swz); [apply leads_modify|apply leads_ret]; auto. }
    apply leads_emit; [apply Q_copy; reflexivity|auto].
Qed.

End CopyFrameInvariant.

(* ================================================================== *)
(** ** Invariants of Snapshot and GetImage *)

Section SnapshotInvariant.

Variable o : Provider.
Variable I : OutputDuplicator -> Prop.
Variable Q : event -> bool.

Hypothesis I_fast :
  dxgi.DesktopImageInSystemMemory (snd (r_GetDesc o)) <> 0 ->
  forall d, I d -> I (set_size (modeSize (snd (r_GetDesc o))) d).
Hypothesis I_mappedRect : forall v d, I d -> I (set_mappedRect v d).
Hypothesis I_acquiredFrame : forall v d, I d -> I (set_acquiredFrame v d).
Hypothesis I_movedRects : forall v d, I d -> I (set_movedRects v d).
Hypothesis I_dirtyRects : forall v d, I d -> I (set_dirtyRects v d).
Hypothesis I_needsSwizzle : forall d, I d -> I (set_needsSwizzle true d).
Hypothesis I_pointer :
  forall info,
    leads (fun d => I d /\ UpdatePointerInfo d = true) I Q (updatePointer o info).
Hypothesis I_stage :
  leads (fun d => I d /\ stagedTex d = None) I Q (initializeStage o).
Hypothesis Q_other :
  forall e, is_pointer_event e = false -> is_stage_event e = false -> Q e = true.

Ltac inv_step :=
  match goal with
  | |- leads _ _ _ (bind _ _) => apply leads_bind; [ | intros ? ]
  | |- leads _ _ _ (defer _ _) => apply leads_defer
  | |- leads _ _ _ (ret _) => apply leads_ret; auto
  | |- leads _ _ _ (fail _) => apply leads_fail; auto
  | |- leads _ _ _ (deref _) => apply leads_deref; auto
  | |- leads _ _ _ (lift _) => apply leads_lift; auto
  | |- leads _ _ _ (emit _) => apply leads_emit; [apply Q_other; reflexivity | auto]
  | |- leads _ _ _ (modify _) => apply leads_modify; auto
  | |- leads _ _ _ (get _) => apply leads_get; auto
  | |- leads _ _ _ (if ?b then _ else _) => destruct b
  | |- leads _ _ _ (match ?x with _ => _ end) => destruct x
  end.

Lemma copyFrame_invariant info : leads I I Q (copyFrame o info).
Proof.
  apply copyFrame_leads; trivial.
  intros e He. apply Q_other; destruct e; try discriminate; reflexivity.
Qed.

Lemma withFrame_invariant info : leads I I Q (withFrame o info).
Proof.
  unfold withFrame.
  destruct (r_SurfaceMap o) as [hr m].
  apply leads_get_bind. intros upd.
  apply leads_bind; [|intros _].
  { destruct upd.
    - apply I_pointer.
    - apply leads_ret. tauto. }
  destruct (dxgi.AccumulatedFrames info =? 0); [apply leads_fail; auto|].
  apply leads_bind; [apply leads_emit; [apply Q_other; reflexivity|auto]|intros _].
  destruct (d3d.Failed _); [apply leads_fail; auto|].
  apply leads_defer; [|apply leads_emit; [apply Q_other; reflexivity|auto]].
  apply leads_get_bind. intros staged.
  apply leads_bind; [|intros _].
  { destruct staged.
    - apply leads_ret. tauto.
    - apply leads_bind; [exact I_stage|intros hr2].
      destruct (d3d.Failed _); [apply leads_fail|apply leads_ret]; auto. }
  apply leads_bind; [apply copyFrame_invariant|intros _].
  repeat inv_step.
Qed.

Lemma mapDesktop_invariant : leads I I Q (mapDesktop o (snd (r_GetDesc o))).
Proof.
  unfold mapDesktop.
  destruct (dxgi.DesktopImageInSystemMemory (snd (r_GetDesc o)) =? 0) eqn:E; cbn [negb].
  - apply leads_ret. auto.
  - apply Z.eqb_neq in E. specialize (I_fast E).
    destruct (r_MapDesktopSurface o) as [hr m].
    repeat inv_step.
Qed.

Lemma acquireFrame_invariant timeoutMs : leads I I Q (acquireFrame o timeoutMs).
Proof.
  unfold acquireFrame.
  destruct (r_AcquireNextFrame o) as [hrF frameInfo].
  apply leads_bind; [|intros _].
  { apply leads_ReleaseFrame; [auto|apply Q_other; reflexivity]. }
  apply leads_bind; [apply leads_deref; auto|intros _].
  apply leads_bind; [apply leads_emit; [apply Q_other; reflexivity|auto]|intros _].
  apply leads_bind; [apply leads_modify; auto|intros _].
  destruct (d3d.Failed _).
  - destruct (_ =? _); apply leads_fail; auto.
  - apply leads_defer; [|apply leads_ReleaseFrame; [auto|apply Q_other; reflexivity]].
    apply leads_defer; [|apply leads_emit; [apply Q_other; reflexivity|auto]].
    apply withFrame_invariant.
Qed.

Lemma Snapshot_invariant timeoutMs : leads I I Q (Snapshot o timeoutMs).
Proof.
  unfold Snapshot.
  apply leads_bind; [apply leads_deref; auto|intros _].
  apply leads_bind; [apply leads_emit; [apply Q_other; reflexivity|auto]|intros _].
  pose proof mapDesktop_invariant as Hm.
  destruct (r_GetDesc o) as [hr desc]. cbn [snd] in Hm.
  destruct (d3d.Failed _); [apply leads_fail; auto|].
  apply leads_bind; [exact Hm|intros fast].
  destruct fast.
  - repeat inv_step.
  - apply acquireFrame_invariant.
Qed.

Lemma GetImage_invariant img timeoutMs :
  leads I I Q (GetImage o img timeoutMs).
Proof.
  unfold GetImage.
  apply leads_bind; [apply Snapshot_invariant|intros s].
  apply leads_defer.
  - repeat inv_step.
  - destruct (unmap s); apply leads_emit; auto; apply Q_other; reflexivity.
Qed.

End SnapshotInvariant.

Lemma initializeStage_leads (P I : OutputDuplicator -> Prop) (Q : event -> bool) o :
  (forall d, P d -> I d) ->
  (forall v d, I d -> I (set_stagedTex v d)) ->
  (forall v d, I d -> I (set_surface v d)) ->
  (forall v d, I d -> I (set_size v d)) ->
  (forall e, is_stage_event e = true -> Q e = true) ->
  leads P I Q (initializeStage o).
Proof.
  intros HP H1 H2 H3 HQ. unfold initializeStage.
  destruct (r_TextureGetDesc o) as [hr [w h]].
  destruct (r_CreateTexture2D o) as [hr2 tex].
  destruct (r_StagedTexQueryInterface o) as [hr3 srf].
  apply leads_bind; [apply leads_emit; [apply HQ; reflexivity|exact HP]|intros _].
  destruct (d3d.Failed _); [apply leads_ret; auto|].
  apply leads_bind; [apply leads_deref; auto|intros _].
  apply leads_bind; [apply leads_emit; [apply HQ; reflexivity|auto]|intros _].
  apply leads_bind; [apply leads_modify; auto|intros _].
  destruct (d3d.Failed _); [apply leads_ret; auto|].
  apply leads_bind; [apply leads_deref; auto|intros _].
  apply leads_bind; [apply leads_emit; [apply HQ; reflexivity|auto]|intros _].
  apply leads_bind; [apply leads_modify; auto|intros _].
  destruct (d3d.Failed _); [apply leads_ret; auto|].
  apply leads_bind; [apply leads_modify; auto|intros _].
  apply leads_ret; auto.
Qed.

Lemma only_pointer_refl d : only_pointer d d.
Proof. unfold only_pointer. destruct d; reflexivity. Qed.

Lemma only_pointer_trans d1 d2 d3 :
  only_pointer d1 d2 -> only_pointer d2 d3 -> only_pointer d1 d3.
Proof.
  unfold only_pointer. intros H1 H2. rewrite H2, H1.
  destruct d1; reflexivity.
Qed.

(** updatePointer assigns nothing but the pointer state, and its events
    are the fetch of the shape and the two allocations. *)
Lemma updatePointer_only_pointer o info :
  keeps only_pointer is_pointer_event (updatePointer o info).
Proof.
  unfold updatePointer, decodeShape.
  destruct (r_GetFramePointerShape o) as [[hr written] shape].
  repeat (keeps_step;
          try exact only_pointer_refl; try exact only_pointer_trans;
          try (intros d0; unfold only_pointer; destruct d0; reflexivity)).
Qed.

Lemma updatePointer_leads (P I : OutputDuplicator -> Prop) (Q : event -> bool) o info :
  (forall d, P d -> I d) ->
  (forall p d, I d -> I (set_pointerInfo p d)) ->
  (forall e, is_pointer_event e = true -> Q e = true) ->
  leads P I Q (updatePointer o info).
Proof.
  intros HP HI HQ d r d' t Hd H.
  apply updatePointer_only_pointer in H. destruct H as [Ho Hq].
  split.
  - rewrite Ho. apply HI, HP, Hd.
  - rewrite forallb_forall in *. intros e He. apply HQ, Hq, He.
Qed.

(** X1. With UpdatePointerInfo off, Snapshot leaves the pointer state as
    it is and makes none of the calls and allocations of updatePointer,
    whatever the frame says about the mouse. *)
Theorem snapshot_ignores_pointer (o : Provider) (timeoutMs : Z)
  (d d' : OutputDuplicator) (r : result Snapshot_ok) (tr : list event) :
  UpdatePointerInfo d = false ->
  Snapshot o timeoutMs d = Some (r, d', tr) ->
  pointerInfo d' = pointerInfo d /\ forallb no_pointer_event tr = true.
Proof.
  intros Hu H.
  pose (I := fun x => pointerInfo x = pointerInfo d /\ UpdatePointerInfo x = false).
  assert (HI : I d) by (split; [reflexivity|exact Hu]).
  destruct (Snapshot_invariant o I no_pointer_event) with (timeoutMs := timeoutMs)
    (d := d) (r := r) (d' := d') (t := tr) as [[Hp _] Hq]; try assumption.
  - intros _ x Hx. exact Hx.
  - intros v x Hx. exact Hx.
  - intros v x Hx. exact Hx.
  - intros v x Hx. exact Hx.
  - intros v x Hx. exact Hx.
  - intros x Hx. exact Hx.
  - intros info x r0 x' t0 [[_ Hf] Ht]. congruence.
  - apply initializeStage_leads; try (intros v x Hx; exact Hx).
    + intros x [Hx _]. exact Hx.
    + intros e He. destruct e; try discriminate; reflexivity.
  - intros e He _. unfold no_pointer_event. now rewrite He.
  - split; assumption.
Qed.

Lemma snapshot_ignores_pointer_witness :
  pointerInfo (afterSnapshot mouseFrameProvider (newDup false))
  = pointerInfo (newDup false)
  /\ forallb no_pointer_event (traceOfSnapshot mouseFrameProvider (newDup false)) = true.
Proof.
  eapply (snapshot_ignores_pointer mouseFrameProvider 0 (newDup false));
    [reflexivity | vm_compute; reflexivity].
Defined.

(** X2. Snapshot never assigns the four interface pointers it was built
    with nor the two options, and it never clears needsSwizzle: once set,
    by the constructor or by a frame without metadata, the flag stays. *)
Theorem snapshot_keeps_configuration (o : Provider) (timeoutMs : Z)
  (d d' : OutputDuplicator) (r : result Snapshot_ok) (tr : list event) :
  Snapshot o timeoutMs d = Some (r, d', tr) ->
  device d' = device d /\ deviceCtx d' = deviceCtx d
  /\ outputDuplication d' = outputDuplication d /\ dxgiOutput d' = dxgiOutput d
  /\ DrawPointer d' = DrawPointer d /\ UpdatePointerInfo d' = UpdatePointerInfo d
  /\ (needsSwizzle d = true -> needsSwizzle d' = true).
Proof.
  intros H.
  pose (I := fun x =>
    device x = device d /\ deviceCtx x = deviceCtx d
    /\ outputDuplication x = outputDuplication d /\ dxgiOutput x = dxgiOutput d
    /\ DrawPointer x = DrawPointer d /\ UpdatePointerInfo x = UpdatePointerInfo d
    /\ (needsSwizzle d = true -> needsSwizzle x = true)).
  assert (HI : I d) by (unfold I; tauto).
  destruct (Snapshot_invariant o I any_event) with (timeoutMs := timeoutMs)
    (d := d) (r := r) (d' := d') (t := tr) as [Hp _]; try assumption;
    try (intros v x Hx; exact Hx).
  - intros x (H1 & H2 & H3 & H4 & H5 & H6 & H7). unfold I. cbn. tauto.
  - intros info. apply updatePointer_leads; [tauto| |reflexivity].
    intros p x Hx. exact Hx.
  - apply initializeStage_leads; try (intros v x Hx; exact Hx); [tauto|reflexivity].
  - reflexivity.
Qed.

Lemma snapshot_keeps_configuration_witness :
  let d := newDup true in
  let d' := afterSnapshot dirtyProvider d in
  device d' = device d /\ deviceCtx d' = deviceCtx d
  /\ outputDuplication d' = outputDuplication d /\ dxgiOutput d' = dxgiOutput d
  /\ DrawPointer d' = DrawPointer d /\ UpdatePointerInfo d' = UpdatePointerInfo d
  /\ (needsSwizzle d = true -> needsSwizzle d' = true).
Proof.
  eapply (snapshot_keeps_configuration dirtyProvider 0 (newDup true)).
  vm_compute. reflexivity.
Defined.

(** X3. Once the staging texture exists, Snapshot never makes another:
    the texture and its surface stay, none of the calls of
    initializeStage is made, and unless the fast path is tried the size
    stays too, whatever the dimensions of the frames that follow. *)
Theorem staging_texture_made_once (o : Provider) (timeoutMs : Z)
  (d d' : OutputDuplicator) (r : result Snapshot_ok) (tr : list event)
  (h : handle) :
  stagedTex d = Some h ->
  Snapshot o timeoutMs d = Some (r, d', tr) ->
  stagedTex d' = Some h /\ surface d' = surface d
  /\ forallb no_stage_event tr = true
  /\ (dxgi.DesktopImageInSystemMemory (snd (r_GetDesc o)) = 0 -> size d' = size d).
Proof.
  intros Hs H.
  pose (I := fun x =>
    stagedTex x = Some h /\ surface x = surface d
    /\ (dxgi.DesktopImageInSystemMemory (snd (r_GetDesc o)) = 0 -> size x = size d)).
  assert (HI : I d) by (unfold I; tauto).
  destruct (Snapshot_invariant o I no_stage_event) with (timeoutMs := timeoutMs)
    (d := d) (r := r) (d' := d') (t := tr) as [(H1 & H2 & H3) Hq]; try assumption;
    try (intros v x Hx; exact Hx).
  - intros Hm x (H1 & H2 & _). unfold I. cbn. repeat split; trivial. tauto.
  - intros x Hx. exact Hx.
  - intros info. apply updatePointer_leads; [tauto| |].
    + intros p x Hx. exact Hx.
    + intros e He. destruct e; try discriminate; reflexivity.
  - intros x r0 x' t0 [(H1 & _) H2]. congruence.
  - intros e _ He. unfold no_stage_event. now rewrite He.
  - auto.
Qed.

Lemma staging_texture_made_once_witness :
  let d' := afterSnapshot dirtyProvider stagedDup in
  stagedTex d' = Some 5%nat /\ surface d' = surface stagedDup
  /\ forallb no_stage_event (traceOfSnapshot dirtyProvider stagedDup) = true
  /\ (dxgi.DesktopImageInSystemMemory (snd (r_GetDesc dirtyProvider)) = 0 ->
      size d' = size stagedDup).
Proof.
  eapply (staging_texture_made_once dirtyProvider 0 stagedDup);
    [reflexivity | vm_compute; reflexivity].
Defined.

(* ================================================================== *)
(** ** The decoders keep the length of the output buffer *)

Lemma loop_keeps {St} (P : St -> Prop) (body : Z -> St -> option St) :
  (forall i s s', body i s = Some s' -> P s -> P s') ->
  forall k i s s', Go.loop k i body s = Some s' -> P s -> P s'.
Proof.
  intros Hb. induction k as [|k IH]; intros i s s'; cbn [Go.loop].
  - intros H. injection H as <-. auto.
  - destruct (body i s) as [s1|] eqn:E; [|discriminate].
    intros H Hs. exact (IH _ _ _ H (Hb _ _ _ E Hs)).
Qed.

Lemma store_length {A} (l : list A) i v l' :
  store l i v = Some l' -> length l' = length l.
Proof.
  unfold store, Go.index. destruct (i <? 0); [discriminate|].
  destruct (nth_error l (Z.to_nat i)) eqn:E; [|discriminate].
  intros H. injection H as <-.
  assert (Z.to_nat i < length l)%nat by (apply nth_error_Some; congruence).
  rewrite length_app, length_firstn. cbn [length]. rewrite length_skipn. lia.
Qed.

Lemma store32_length out i v out' :
  store32 out i v = Some out' -> length out' = length out.
Proof.
  unfold store32, Go.index. destruct (Z.ltb_spec i 0); [discriminate|].
  destruct (nth_error out (Z.to_nat i)) eqn:E; [|discriminate].
  unfold Go.len. destruct (Z.leb_spec (i + 4) (Z.of_nat (length out))); [|discriminate].
  intros H1.
  pose proof (f_equal (fun r => match r with Some x => x | None => out end) H1) as H2.
  cbv beta iota in H2. rewrite <- H2.
  apply (length_splice out (bytes32 v) (Z.to_nat i)). cbn. lia.
Qed.

Lemma decodeMonochrome_length inb out shape out' :
  decodeMonochrome inb out shape = Some out' -> length out' = length out.
Proof.
  unfold decodeMonochrome. destruct (Go.from _ _) as [xorMap|]; [|discriminate].
  unfold Go.for_lt. intros H.
  apply (loop_keeps (fun s => length s = length out)) in H; trivial.
  intros j s s' Hj Hs.
  apply (loop_keeps (fun s => length s = length out)) in Hj; trivial.
  intros i s0 s1 Hi Hs0. unfold monoBody in Hi.
  destruct (Go.index inb _); [|discriminate].
  destruct (Go.index xorMap _); [|discriminate].
  apply store32_length in Hi. congruence.
Qed.

Lemma swapBR_length out out' : swapBR out = Some out' -> length out' = length out.
Proof.
  unfold swapBR, Go.for_lt. intros H.
  apply (loop_keeps (fun s => length s = length out)) in H; trivial.
  intros k s s' Hk Hs.
  destruct (Go.index s (4 * k + 2)); [|discriminate].
  destruct (Go.index s (4 * k)); [|discriminate].
  destruct (store s (4 * k) _) as [s1|] eqn:E1; [|discriminate].
  apply store_length in E1, Hk. congruence.
Qed.

Lemma range_length {A} (l : list A) lo hi seg :
  Go.range l lo hi = Some seg ->
  0 <= lo <= hi /\ hi <= Go.len l /\ length seg = Z.to_nat (hi - lo).
Proof.
  unfold Go.range, Go.len.
  destruct (Z.leb_spec 0 lo), (Z.leb_spec lo hi),
    (Z.leb_spec hi (Z.of_nat (length l))); try discriminate.
  cbn. intros H2. injection H2 as <-.
  rewrite length_firstn, length_skipn. lia.
Qed.

Lemma decodeColor_length inb out shape out' :
  decodeColor inb out shape = Some out' -> length out' = length out.
Proof.
  unfold decodeColor.
  destruct (Go.for_lt _ _ _) as [out1|] eqn:E; [|discriminate].
  intros H. apply swapBR_length in H. rewrite H. clear H.
  unfold Go.for_lt in E.
  apply (loop_keeps (fun s => length s = length out)) in E; trivial.
  intros j s s' Hj Hs.
  destruct (Go.range s _ _) as [tout|] eqn:Eo; [|discriminate].
  destruct (Go.range inb _ _) as [tin|]; [|discriminate].
  injection Hj as <-. apply range_length in Eo.
  destruct Eo as (H1 & H2 & H3). unfold Go.len in H2.
  rewrite !length_app, copy_length, length_firstn, length_skipn, H3. lia.
Qed.

(* ================================================================== *)
(** ** The pointer state stays well formed *)

Lemma NewRGBA_wf r img : image.NewRGBA r = Some img -> wf_image img.
Proof.
  unfold image.NewRGBA.
  destruct (Z.ltb_spec (image.Dx r) 0); [discriminate|].
  destruct (Z.ltb_spec (image.Dy r) 0); [discriminate|].
  destruct (Z.ltb_spec Go.maxInt (4 * image.Dx r * image.Dy r)); [discriminate|].
  cbn -[Z.mul]. intros H2.
  replace img with (image.mkRGBA (repeat 0 (Z.to_nat (4 * image.Dx r * image.Dy r)))
                      (4 * image.Dx r) r) by congruence.
  unfold wf_image. cbn -[Z.mul]. rewrite len_repeat. nia.
Qed.

Lemma with_Pix_wf img pix :
  wf_image img -> (length (image.Pix img) <= length pix)%nat ->
  wf_image (image.with_Pix img pix).
Proof.
  unfold wf_image, Go.len. cbn. intros (H1 & H2 & H3) H. repeat split; lia.
Qed.

Lemma pointer_ok_moved p v b :
  pointer_ok p -> pointer_ok (set_pos v (set_visible b p)).
Proof. intros H. exact H. Qed.

Lemma decodeShape_pointer_ok shape d r d' t img :
  decodeShape shape d = Some (r, d', t) ->
  full (PointerInfo.shapeInBuffer (pointerInfo d)) ->
  PointerInfo.shapeOutBuffer (pointerInfo d) = Some img -> wf_image img ->
  pointer_ok (pointerInfo d').
Proof.
  intros H Hf Hs Hw. revert H.
  unfold decodeShape, modify_pointer, set_outPix. run. rewrite Hs.
  destruct (dxgi.Type_ shape =? _);
    [|destruct (dxgi.Type_ shape =? _); [|destruct (dxgi.Type_ shape =? _)]].
  all: run_all.
  all: intros H; injection H as <- <- <-.
  all: split; [exact Hf|]; cbn; rewrite ?Hs; trivial.
  all: apply with_Pix_wf; [exact Hw|].
  - apply decodeMonochrome_length in El. lia.
  - apply decodeColor_length in El. lia.
  - apply decodeColor_length in El. lia.
Qed.

(** Whenever updatePointer returns, with or without an error, it leaves
    a well-formed pointer state. *)
Lemma updatePointer_pointer_ok o info d r d' t :
  updatePointer o info d = Some (r, d', t) ->
  pointer_ok (pointerInfo d) -> pointer_ok (pointerInfo d').
Proof.
  intros H [Hf Hs]. revert H. unfold updatePointer, modify_pointer.
  destruct (dxgi.LastMouseUpdateTime info =? 0).
  { intros H. injection H as <- <- <-. split; assumption. }
  run.
  destruct (dxgi.PointerShapeBufferSize info =? 0).
  { intros H. injection H as <- <- <-. split; assumption. }
  destruct (r_GetFramePointerShape o) as [[hr written] shape].
  run. cbn [pointerInfo set_pointerInfo PointerInfo.shapeInBuffer set_pos set_visible].
  set (inb := if Go.slice_len (PointerInfo.shapeInBuffer (pointerInfo d))
                 <? dxgi.PointerShapeBufferSize info
              then Go.make 0 (dxgi.PointerShapeBufferSize info)
              else PointerInfo.shapeInBuffer (pointerInfo d)).
  assert (Hin : full (Go.stored inb written)).
  { apply stored_full. unfold inb. destruct (_ <? _); [apply make_full|exact Hf]. }
  destruct (Go.slice_len (PointerInfo.shapeInBuffer (pointerInfo d))
            <? dxgi.PointerShapeBufferSize info); run_all.
  all: destruct (hr =? 0); cbn [negb];
    [|cbn; intros H; injection H as <- <- <-; split; [exact Hin|exact Hs]].
  all: run_all.
  all: match goal with
       | |- context [decodeShape ?s ?d0] =>
           destruct (decodeShape s d0) as [[[r1 d1] t1]|] eqn:E; [|discriminate]
       end.
  all: cbn; intros H; injection H as <- <- <-.
  all: match goal with
       | El : image.NewRGBA (image.Rect _ _ ?w ?h) = Some ?im |- _ =>
           apply NewRGBA_wf in El;
           eapply decodeShape_pointer_ok in E; [exact E|exact Hin|reflexivity|];
           destruct (Z.ltb_spec (Go.len (image.Pix im)) (w * Z.quot h 2 * 4));
           [|exact El];
           apply with_Pix_wf; [exact El|];
           rewrite repeat_length; unfold Go.len in *; lia
       end.
Qed.

(* ================================================================== *)
(** ** DrawCursor *)

Lemma inCursor_underCursor dup x y :
  inCursor dup x y = true <-> underCursor dup x y.
Proof.
  unfold inCursor, underCursor. rewrite !andb_true_iff.
  rewrite !Z.geb_le, !Z.ltb_lt. lia.
Qed.

Lemma sampleArea_bounds dup img img' :
  image.Bounds img' = image.Bounds img -> sampleArea dup img' = sampleArea dup img.
Proof. intros H. unfold sampleArea. now rewrite H. Qed.

Lemma ringPoints_bounds dup img img' :
  image.Bounds img' = image.Bounds img -> ringPoints dup img' = ringPoints dup img.
Proof.
  intros H. unfold ringPoints, ringRow. rewrite (sampleArea_bounds dup img img' H).
  reflexivity.
Qed.

Lemma ringPoints_outside dup img p :
  In p (ringPoints dup img) -> inCursor dup (fst p) (snd p) = false.
Proof.
  unfold ringPoints, ringRow.
  destruct (sampleArea dup img) as [[[sx sy] ex] ey].
  rewrite in_flat_map. intros (y & _ & Hp).
  rewrite in_map_iff in Hp. destruct Hp as (x & <- & Hx).
  apply filter_In in Hx. destruct Hx as [_ Hx]. cbn [fst snd].
  now apply negb_true_iff in Hx.
Qed.

(** The classification reads the image only outside the cursor. *)
Lemma lightRing_outside dup img img' :
  image.Bounds img' = image.Bounds img ->
  (forall x y, inCursor dup x y = false -> colorAt img' x y = colorAt img x y) ->
  lightRing dup img' = lightRing dup img.
Proof.
  intros Hb Hc. unfold lightRing. rewrite (ringPoints_bounds dup img img' Hb).
  replace (map (fun p => luma (colorAt img' (fst p) (snd p))) (ringPoints dup img))
    with (map (fun p => luma (colorAt img (fst p) (snd p))) (ringPoints dup img));
    [reflexivity|].
  apply map_ext_in. intros p Hp. now rewrite (Hc _ _ (ringPoints_outside dup img p Hp)).
Qed.

Lemma At_outside p x y :
  image.PointIn x y (image.Bounds p) = false ->
  image.At p x y = Some (color.mkRGBA 0 0 0 0).
Proof. intros H. unfold image.At. now rewrite H. Qed.

(** What DrawCursor does to a well-formed image, with or without a
    decoded shape. *)
Lemma DrawCursor_spec dup img :
  pointer_ok (pointerInfo dup) -> wf_image img ->
  exists img',
    DrawCursor dup img = Some img'
    /\ wf_image img'
    /\ image.Bounds img' = image.Bounds img
    /\ (forall x y, underCursor dup x y ->
          image.PointIn x y (image.Bounds img) = true ->
          image.At img' x y =
          match PointerInfo.shapeOutBuffer (pointerInfo dup) with
          | Some shape =>
              match composite (lightRing dup img)
                      (colorAt shape (x - dxgi.X (PointerInfo.pos (pointerInfo dup)))
                                     (y - dxgi.Y (PointerInfo.pos (pointerInfo dup)))) with
              | Some c => Some c
              | None => image.At img x y
              end
          | None => image.At img x y
          end)
    /\ (forall x y, ~ underCursor dup x y -> image.At img' x y = image.At img x y).
Proof.
  intros [_ Hp] Hwf. unfold DrawCursor, drawPointer.
  rewrite (analyze_lightRing dup img Hwf).
  destruct (PointerInfo.shapeOutBuffer (pointerInfo dup)) as [shape|] eqn:Es.
  - destruct (draw_loops dup (lightRing dup img) shape img Es Hp Hwf)
      as (img' & E & Hw' & Hb & Hat).
    exists img'. split; [exact E|]. split; [exact Hw'|]. split; [exact Hb|]. split.
    + intros x y Hu Hin. now apply Hat.
    + intros x y Hu.
      destruct (image.PointIn x y (image.Bounds img)) eqn:Hin.
      * now apply Hat.
      * rewrite !At_outside; trivial. now rewrite Hb.
  - rewrite Hp. cbn. exists img. auto.
Qed.

Lemma forallb_any_event t : forallb any_event t = true.
Proof. induction t; cbn; auto. Qed.

(** X4. Whenever Snapshot returns, with a frame or with an error, it
    leaves a pointer state on which DrawCursor cannot panic.  Started
    from a pointer state whose raw buffer fills its backing array and
    whose decoded shape is a well-formed image (its rows lie within its
    pixel buffer), or is absent with a stored size of (0, 0) as in a new
    duplicator, Snapshot leaves such a state again; the stored size need
    not be that of the shape.  On such a state DrawCursor returns, for
    every well-formed image, a well-formed image of the same bounds that
    differs from the given one at most at the points of the box of the
    stored size at the cursor position. *)
Theorem drawCursor_after_snapshot (o : Provider) (timeoutMs : Z)
  (d d' : OutputDuplicator) (r : result Snapshot_ok) (tr : list event)
  (img : image.RGBA) :
  pointer_ok (pointerInfo d) -> wf_image img ->
  Snapshot o timeoutMs d = Some (r, d', tr) ->
  pointer_ok (pointerInfo d')
  /\ exists img',
       DrawCursor d' img = Some img'
       /\ wf_image img'
       /\ image.Bounds img' = image.Bounds img
       /\ forall x y, ~ underCursor d' x y -> image.At img' x y = image.At img x y.
Proof.
  intros Hp Hwf H.
  assert (Hp' : pointer_ok (pointerInfo d')).
  { destruct (Snapshot_invariant o (fun x => pointer_ok (pointerInfo x)) any_event)
      with (timeoutMs := timeoutMs) (d := d) (r := r) (d' := d') (t := tr)
      as [Hp' _]; try assumption; try (intros v x Hx; exact Hx).
    - intros x Hx. exact Hx.
    - intros info x r0 x' t0 [Hx _] H0. split; [|apply forallb_any_event].
      exact (updatePointer_pointer_ok _ _ _ _ _ _ H0 Hx).
    - apply initializeStage_leads; try (intros v x Hx; exact Hx); [tauto|reflexivity].
    - reflexivity. }
  split; [exact Hp'|].
  destruct (DrawCursor_spec d' img Hp' Hwf) as (img' & E & Hw & Hb & _ & Ho).
  exists img'. auto.
Qed.

Lemma drawCursor_after_snapshot_witness :
  pointer_ok (pointerInfo (afterSnapshot colorShapeProvider pointerDup))
  /\ exists img',
       DrawCursor (afterSnapshot colorShapeProvider pointerDup) greenRow = Some img'
       /\ wf_image img'
       /\ image.Bounds img' = image.Bounds greenRow
       /\ forall x y, ~ underCursor (afterSnapshot colorShapeProvider pointerDup) x y ->
                      image.At img' x y = image.At greenRow x y.
Proof.
  eapply (drawCursor_after_snapshot colorShapeProvider 0 pointerDup).
  - split; reflexivity.
  - unfold wf_image. cbn. lia.
  - vm_compute. reflexivity.
Defined.

(** X5. DrawCursor is idempotent: drawing the cursor a second time on
    the image it has just drawn on changes no pixel.  The background is
    classified from points outside the cursor, which the first drawing
    left alone. *)
Theorem drawCursor_idempotent (dup : OutputDuplicator) (img img1 : image.RGBA) :
  pointer_ok (pointerInfo dup) -> wf_image img ->
  DrawCursor dup img = Some img1 ->
  exists img2,
    DrawCursor dup img1 = Some img2
    /\ forall x y, image.At img2 x y = image.At img1 x y.
Proof.
  intros Hp Hwf H.
  destruct (DrawCursor_spec dup img Hp Hwf) as (img1' & E1 & Hw1 & Hb1 & Hu1 & Ho1).
  rewrite H in E1. injection E1 as <-.
  destruct (DrawCursor_spec dup img1 Hp Hw1) as (img2 & E2 & Hw2 & Hb2 & Hu2 & Ho2).
  exists img2. split; [exact E2|]. intros x y.
  assert (HL : lightRing dup img1 = lightRing dup img).
  { apply lightRing_outside; [exact Hb1|]. intros x0 y0 Hc. unfold colorAt.
    rewrite Ho1; [reflexivity|]. rewrite <- inCursor_underCursor. congruence. }
  destruct (inCursor dup x y) eqn:Ec.
  - apply inCursor_underCursor in Ec.
    destruct (image.PointIn x y (image.Bounds img)) eqn:Hin.
    + rewrite Hu2 by (trivial; now rewrite Hb1). rewrite (Hu1 x y Ec Hin), HL.
      destruct (PointerInfo.shapeOutBuffer (pointerInfo dup)); [|reflexivity].
      destruct (composite _ _); reflexivity.
    + rewrite !At_outside; trivial; congruence.
  - apply Ho2. rewrite <- inCursor_underCursor. congruence.
Qed.

Lemma drawCursor_idempotent_witness :
  exists img2,
    DrawCursor markerDup greenRowDrawn = Some img2
    /\ forall x y, image.At img2 x y = image.At greenRowDrawn x y.
Proof.
  apply (drawCursor_idempotent markerDup greenRow).
  - split; [reflexivity|]. unfold wf_image. cbn. lia.
  - unfold wf_image. cbn. lia.
  - vm_compute. reflexivity.
Defined.

(* ================================================================== *)
(** ** The colour decoder *)

Lemma store_spec {A} (l : list A) (i : Z) (v : A) :
  0 <= i < Go.len l ->
  exists l',
    store l i v = Some l'
    /\ length l' = length l
    /\ Go.index l' i = Some v
    /\ forall k, k <> i -> Go.index l' k = Go.index l k.
Proof.
  intros Hi. destruct (index_some l i Hi) as (a & Ea).
  unfold store. rewrite Ea. eexists. split; [reflexivity|].
  unfold Go.len in Hi.
  assert (HL : length (firstn (Z.to_nat i) l ++ v :: skipn (Z.to_nat i + 1) l) = length l).
  { rewrite length_app, length_firstn. cbn [length]. rewrite length_skipn. lia. }
  split; [exact HL|].
  assert (HN : forall k, nth_error (firstn (Z.to_nat i) l ++ v :: skipn (Z.to_nat i + 1) l) k
                         = if (k =? Z.to_nat i)%nat then Some v else nth_error l k).
  { intros k.
    pose proof (nth_error_splice l [v] (Z.to_nat i) k) as H. cbn [length app] in H.
    rewrite H by lia.
    destruct (Nat.eqb_spec k (Z.to_nat i)) as [->|Hne].
    - destruct (Nat.leb_spec (Z.to_nat i) (Z.to_nat i)),
        (Nat.ltb_spec (Z.to_nat i) (Z.to_nat i + 1)); try lia.
      cbn [andb]. now rewrite Nat.sub_diag.
    - destruct (Nat.leb_spec (Z.to_nat i) k), (Nat.ltb_spec k (Z.to_nat i + 1));
        try lia; reflexivity. }
  split.
  - unfold Go.index. destruct (Z.ltb_spec i 0); [lia|]. rewrite HN.
    now rewrite Nat.eqb_refl.
  - intros k Hk. unfold Go.index. destruct (Z.ltb_spec k 0); [reflexivity|].
    rewrite HN. destruct (Nat.eqb_spec (Z.to_nat k) (Z.to_nat i)); [lia|reflexivity].
Qed.

(** The swap loop exchanges bytes 0 and 2 of each of the [n] pixels of a
    buffer of [4 * n] bytes. *)
Lemma swapBR_pixels out n :
  0 <= n -> Go.len out = 4 * n ->
  exists out',
    swapBR out = Some out'
    /\ length out' = length out
    /\ forall m, 0 <= m < n ->
         Go.index out' (4 * m) = Go.index out (4 * m + 2)
         /\ Go.index out' (4 * m + 1) = Go.index out (4 * m + 1)
         /\ Go.index out' (4 * m + 2) = Go.index out (4 * m)
         /\ Go.index out' (4 * m + 3) = Go.index out (4 * m + 3).
Proof.
  intros Hn HL. unfold swapBR.
  replace (Z.quot (Go.len out + 3) 4) with n.
  2:{ rewrite HL, Z.quot_div_nonneg by lia.
      replace (4 * n + 3) with (3 + n * 4) by lia.
      rewrite Z.div_add by lia. reflexivity. }
  destruct (for_lt_total
              (fun k (s : list Z) =>
                 length s = length out
                 /\ (forall m, 0 <= m < k ->
                       Go.index s (4 * m) = Go.index out (4 * m + 2)
                       /\ Go.index s (4 * m + 1) = Go.index out (4 * m + 1)
                       /\ Go.index s (4 * m + 2) = Go.index out (4 * m)
                       /\ Go.index s (4 * m + 3) = Go.index out (4 * m + 3))
                 /\ (forall j, 4 * k <= j -> Go.index s j = Go.index out j))
              (fun k out =>
                 let i := 4 * k in
                 match Go.index out (i + 2), Go.index out i with
                 | Some c, Some a =>
                     match store out i c with
                     | Some out1 => store out1 (i + 2) a
                     | None => None
                     end
                 | _, _ => None
                 end) n out Hn) as (out' & E & HL' & HP & _).
  { split; [reflexivity|]. split; [intros m Hm; lia|auto]. }
  { intros k s Hk (HLs & HPs & HRs). cbv zeta.
    assert (Hlen : Go.len s = 4 * n) by (unfold Go.len in *; lia).
    destruct (index_some s (4 * k + 2)) as (c & Ec); [lia|].
    destruct (index_some s (4 * k)) as (a & Ea); [lia|].
    rewrite Ec, Ea.
    destruct (store_spec s (4 * k) c) as (s1 & E1 & L1 & I1 & O1); [lia|].
    rewrite E1.
    destruct (store_spec s1 (4 * k + 2) a) as (s2 & E2 & L2 & I2 & O2);
      [unfold Go.len in *; lia|].
    exists s2. split; [exact E2|]. split; [lia|]. split.
    - intros m Hm. assert (Hc : m < k \/ m = k) by lia. destruct Hc as [Hlt| ->].
      + rewrite !O2, !O1 by lia. apply HPs. lia.
      + rewrite (O2 (4 * k)), I1 by lia.
        rewrite (O2 (4 * k + 1)), (O1 (4 * k + 1)) by lia.
        rewrite I2.
        rewrite (O2 (4 * k + 3)), (O1 (4 * k + 3)) by lia.
        rewrite <- !HRs by lia. auto.
    - intros j Hj. rewrite O2, O1 by lia. apply HRs. lia. }
  exists out'. split; [exact E|]. split; [exact HL'|exact HP].
Qed.

(** The row loop of the colour decoder copies [h] rows of [4 * w] bytes,
    row [j] from offset [j * pitch] of the raw bytes. *)
Lemma colorRows_rows (inb out : list Z) (w h pitch : Z) :
  0 <= w -> 0 <= h -> 0 <= pitch ->
  Go.len out = 4 * w * h ->
  (forall j, 0 <= j < h -> j * pitch + 4 * w <= Go.len inb) ->
  exists out1,
    Go.for_lt h
      (fun j out =>
         match Go.range out (j * w * 4) ((j + 1) * w * 4),
               Go.range inb (j * pitch) (j * pitch + w * 4) with
         | Some tout, Some tin =>
             Some (firstn (Z.to_nat (j * w * 4)) out
                     ++ Go.copy tout tin
                     ++ skipn (Z.to_nat ((j + 1) * w * 4)) out)
         | _, _ => None
         end) out = Some out1
    /\ length out1 = length out
    /\ forall j c, 0 <= j < h -> 0 <= c < 4 * w ->
         Go.index out1 (j * (4 * w) + c) = Go.index inb (j * pitch + c).
Proof.
  intros Hw Hh Hp HL Hin.
  destruct (for_lt_total
              (fun j (s : list Z) =>
                 length s = length out
                 /\ forall j' c, 0 <= j' < j -> 0 <= c < 4 * w ->
                      Go.index s (j' * (4 * w) + c) = Go.index inb (j' * pitch + c))
              (fun j out =>
                 match Go.range out (j * w * 4) ((j + 1) * w * 4),
                       Go.range inb (j * pitch) (j * pitch + w * 4) with
                 | Some tout, Some tin =>
                     Some (firstn (Z.to_nat (j * w * 4)) out
                             ++ Go.copy tout tin
                             ++ skipn (Z.to_nat ((j + 1) * w * 4)) out)
                 | _, _ => None
                 end) h out Hh) as (out1 & E & HL1 & HP).
  { split; [reflexivity|]. intros; lia. }
  { intros j s Hj (HLs & HPs).
    assert (H1 : (j + 1) * (4 * w) <= h * (4 * w)) by (apply Z.mul_le_mono_nonneg_r; lia).
    assert (H2 : 0 <= j * (4 * w)) by (apply Z.mul_nonneg_nonneg; lia).
    assert (H3 : 0 <= j * pitch) by (apply Z.mul_nonneg_nonneg; lia).
    assert (Hlen : Go.len s = 4 * w * h) by (unfold Go.len in *; lia).
    replace ((j + 1) * w * 4) with (j * w * 4 + w * 4) by lia.
    destruct (range_row s (j * w * 4) (w * 4)) as (tout & Eo & Lo & _); try lia.
    destruct (range_row inb (j * pitch) (w * 4)) as (tin & Ei & Li & Ii); try lia.
    { specialize (Hin j Hj). lia. }
    rewrite Eo, Ei. eexists. split; [reflexivity|].
    assert (Ecopy : Go.copy tout tin = tin).
    { unfold Go.copy, Go.len in *.
      rewrite firstn_all2 by lia. rewrite skipn_all2 by lia. apply app_nil_r. }
    rewrite Ecopy.
    replace (Z.to_nat (j * w * 4 + w * 4)) with (Z.to_nat (j * w * 4) + length tin)%nat
      by (unfold Go.len in *; lia).
    split.
    { rewrite length_splice; [exact HLs|]. unfold Go.len in *. lia. }
    intros j' c Hj' Hc.
    assert (H5 : 0 <= j' * (4 * w)) by (apply Z.mul_nonneg_nonneg; lia).
    rewrite index_splice; unfold Go.len in *; try lia.
    assert (Hcase : j' = j \/ j' < j) by lia. destruct Hcase as [->|Hlt].
    - destruct (Z.leb_spec (j * w * 4) (j * (4 * w) + c)),
        (Z.ltb_spec (j * (4 * w) + c) (j * w * 4 + Z.of_nat (length tin)));
        try lia. cbn [andb].
      replace (j * (4 * w) + c - j * w * 4) with c by lia.
      apply Ii. lia.
    - assert ((j' + 1) * (4 * w) <= j * (4 * w))
        by (apply Z.mul_le_mono_nonneg_r; lia).
      destruct (Z.leb_spec (j * w * 4) (j' * (4 * w) + c)); [lia|].
      cbn [andb]. apply HPs; lia. }
  exists out1. split; [exact E|]. split; [exact HL1|exact HP].
Qed.

Lemma range4_of_index {A} (l : list A) (i : Z) (a0 a1 a2 a3 : A) :
  0 <= i ->
  Go.index l i = Some a0 -> Go.index l (i + 1) = Some a1 ->
  Go.index l (i + 2) = Some a2 -> Go.index l (i + 3) = Some a3 ->
  Go.range l i (i + 4) = Some [a0; a1; a2; a3].
Proof.
  intros Hi E0 E1 E2 E3. rewrite range4 by exact Hi.
  unfold Go.index in *.
  destruct (Z.ltb_spec i 0), (Z.ltb_spec (i + 1) 0), (Z.ltb_spec (i + 2) 0),
    (Z.ltb_spec (i + 3) 0); try lia.
  assert (Z.to_nat (i + 3) < length l)%nat by (apply nth_error_Some; congruence).
  unfold Go.len. destruct (Z.leb_spec (i + 4) (Z.of_nat (length l))); [|lia].
  f_equal. apply nth_error_ext. intros k.
  rewrite nth_error_firstn, nth_error_skipn.
  replace (Z.to_nat (i + 1)) with (Z.to_nat i + 1)%nat in E1 by lia.
  replace (Z.to_nat (i + 2)) with (Z.to_nat i + 2)%nat in E2 by lia.
  replace (Z.to_nat (i + 3)) with (Z.to_nat i + 3)%nat in E3 by lia.
  destruct k as [|[|[|[|k]]]]; cbn [Nat.ltb Nat.leb nth_error];
    rewrite ?Nat.add_0_r; try assumption.
  now destruct k.
Qed.

(** The colour decoder, on raw rows that lie within the raw bytes: pixel
    (i, j) of the output holds the four bytes found at
    [j * pitch + 4 * i] of the input, the first and the third
    exchanged. *)
Lemma decodeColor_pixels inb out shape :
  let w := dxgi.Width shape in
  let h := dxgi.Height shape in
  let pitch := dxgi.ShapePitch shape in
  0 <= w -> 0 <= h -> 0 <= pitch ->
  Go.len out = 4 * w * h ->
  (forall j, 0 <= j < h -> j * pitch + 4 * w <= Go.len inb) ->
  exists out',
    decodeColor inb out shape = Some out'
    /\ length out' = length out
    /\ forall i j, 0 <= i < w -> 0 <= j < h ->
         exists b g r a,
           Go.range inb (j * pitch + 4 * i) (j * pitch + 4 * i + 4) = Some [b; g; r; a]
           /\ Go.range out' ((j * w + i) * 4) ((j * w + i) * 4 + 4) = Some [r; g; b; a].
Proof.
  intros w h pitch Hw Hh Hp HL Hin. unfold decodeColor. fold w h pitch.
  destruct (colorRows_rows inb out w h pitch Hw Hh Hp HL Hin) as (out1 & E1 & L1 & R1).
  rewrite E1.
  assert (Hwh : 0 <= w * h) by (apply Z.mul_nonneg_nonneg; lia).
  destruct (swapBR_pixels out1 (w * h) Hwh) as (out' & E2 & L2 & S2).
  { unfold Go.len in *. lia. }
  exists out'. split; [exact E2|]. split; [congruence|].
  intros i j Hi Hj.
  assert (H1 : (j + 1) * w <= h * w) by (apply Z.mul_le_mono_nonneg_r; lia).
  assert (H2 : 0 <= j * w) by (apply Z.mul_nonneg_nonneg; lia).
  assert (H3 : 0 <= j * pitch) by (apply Z.mul_nonneg_nonneg; lia).
  specialize (Hin j Hj).
  destruct (index_some inb (j * pitch + 4 * i)) as (b & Eb); [lia|].
  destruct (index_some inb (j * pitch + 4 * i + 1)) as (g & Eg); [lia|].
  destruct (index_some inb (j * pitch + 4 * i + 2)) as (r & Er); [lia|].
  destruct (index_some inb (j * pitch + 4 * i + 3)) as (a & Ea); [lia|].
  exists b, g, r, a. split.
  { apply range4_of_index; trivial. lia. }
  destruct (S2 (j * w + i)) as (Q0 & Q1 & Q2 & Q3); [lia|].
  apply range4_of_index; [lia| | | |].
  - replace ((j * w + i) * 4) with (4 * (j * w + i)) by lia. rewrite Q0.
    replace (4 * (j * w + i) + 2) with (j * (4 * w) + (4 * i + 2)) by lia.
    rewrite R1 by lia. rewrite <- Er. f_equal. lia.
  - replace ((j * w + i) * 4 + 1) with (4 * (j * w + i) + 1) by lia. rewrite Q1.
    replace (4 * (j * w + i) + 1) with (j * (4 * w) + (4 * i + 1)) by lia.
    rewrite R1 by lia. rewrite <- Eg. f_equal. lia.
  - replace ((j * w + i) * 4 + 2) with (4 * (j * w + i) + 2) by lia. rewrite Q2.
    replace (4 * (j * w + i)) with (j * (4 * w) + 4 * i) by lia.
    rewrite R1 by lia. rewrite <- Eb. f_equal.
  - replace ((j * w + i) * 4 + 3) with (4 * (j * w + i) + 3) by lia. rewrite Q3.
    replace (4 * (j * w + i) + 3) with (j * (4 * w) + (4 * i + 3)) by lia.
    rewrite R1 by lia. rewrite <- Ea. f_equal. lia.
Qed.

(** X6. For a colour or masked-colour shape whose rows lie within the
    raw bytes, updatePointer returns, the stored size is the reported
    width and height, and pixel (i, j) of the decoded shape is made of the
    four bytes found at [j * Pitch + 4 * i] of the raw bytes, read as
    blue, green, red, alpha: the rows are taken at the pitch of the
    provider and the first and the third byte change places. *)
Theorem color_shape_decoded (o : Provider) (info : dxgi.DXGI_OUTDUPL_FRAME_INFO)
  (d : OutputDuplicator) (h : handle) (written : list Go.byte)
  (shape : dxgi.DXGI_OUTDUPL_POINTER_SHAPE_INFO) :
  dxgi.LastMouseUpdateTime info <> 0 ->
  dxgi.PointerShapeBufferSize info <> 0 ->
  outputDuplication d = Some h ->
  r_GetFramePointerShape o = (0, written, shape) ->
  dxgi.Type_ shape = dxgi.DXGI_OUTDUPL_POINTER_SHAPE_TYPE_COLOR
  \/ dxgi.Type_ shape = dxgi.DXGI_OUTDUPL_POINTER_SHAPE_TYPE_MASKED_COLOR ->
  0 <= dxgi.Width shape -> 0 <= dxgi.Height shape ->
  4 * dxgi.Width shape * dxgi.Height shape <= Go.maxInt ->
  0 <= dxgi.ShapePitch shape ->
  let width := dxgi.Width shape in
  let height := dxgi.Height shape in
  let pitch := dxgi.ShapePitch shape in
  let inb := Go.sarr (fetchedShapeIn info written (pointerInfo d)) in
  (0 < height -> (height - 1) * pitch + 4 * width <= Go.len inb) ->
  exists d' t img,
    updatePointer o info d = Some (Ok tt, d', t)
    /\ PointerInfo.shapeOutBuffer (pointerInfo d') = Some img
    /\ PointerInfo.size (pointerInfo d') = dxgi.mkPOINT (Go.int32 width) (Go.int32 height)
    /\ forall i j, 0 <= i < width -> 0 <= j < height ->
         exists b g r a,
           Go.range inb (j * pitch + 4 * i) (j * pitch + 4 * i + 4) = Some [b; g; r; a]
           /\ image.At img i j = Some (color.mkRGBA r g b a).
Proof.
  intros Hl Hs Ho Hr Ht Hw Hh Hm Hp width height pitch inb Hin.
  destruct (decodeColor_pixels inb
              (repeat 0 (Z.to_nat (4 * dxgi.Width shape * dxgi.Height shape))) shape)
    as (pix & E & HL & HP); try assumption.
  { rewrite len_repeat, Z2Nat.id by nia. reflexivity. }
  { intros j Hj. unfold height, pitch, width in Hin.
    assert (j * dxgi.ShapePitch shape <= (dxgi.Height shape - 1) * dxgi.ShapePitch shape)
      by (apply Z.mul_le_mono_nonneg_r; lia).
    specialize (Hin ltac:(lia)). lia. }
  rewrite (updatePointer_fetch o info d h written shape) by assumption.
  unfold decodeShape, modify_pointer, set_outPix. run.
  cbn [pointerInfo set_pointerInfo PointerInfo.shapeInBuffer PointerInfo.shapeOutBuffer
         fetched newShapeOut image.Pix set_ptrsize].
  fold inb.
  destruct Ht as [Ht|Ht]; rewrite Ht;
    cbn [Z.eqb Pos.eqb dxgi.DXGI_OUTDUPL_POINTER_SHAPE_TYPE_MONOCHROME
           dxgi.DXGI_OUTDUPL_POINTER_SHAPE_TYPE_COLOR
           dxgi.DXGI_OUTDUPL_POINTER_SHAPE_TYPE_MASKED_COLOR].
  all: run; cbn [pointerInfo set_pointerInfo PointerInfo.shapeInBuffer
                   PointerInfo.shapeOutBuffer fetched newShapeOut image.Pix set_ptrsize].
  all: rewrite (run_lift _ _ _ pix E); run; cbn.
  all: eexists; eexists; eexists; (split; [reflexivity|]).
  all: cbn [pointerInfo set_pointerInfo PointerInfo.shapeOutBuffer PointerInfo.size].
  all: split; [reflexivity|]; split; [reflexivity|].
  all: intros i j Hi Hj; destruct (HP i j Hi Hj) as (b & g & r & a & Ei & Eo).
  all: exists b, g, r, a; split; [exact Ei|].
  all: apply (At_shapeOut shape pix i j (color.mkRGBA r g b a)); [exact Hi|exact Hj|exact Eo].
Qed.

Lemma color_shape_decoded_witness :
  exists d' t img,
    updatePointer colorShapeProvider (shapeFrame 1 16) pointerDup = Some (Ok tt, d', t)
    /\ PointerInfo.shapeOutBuffer (pointerInfo d') = Some img
    /\ PointerInfo.size (pointerInfo d') = dxgi.mkPOINT 1 1
    /\ image.At img 0 0 = Some (color.mkRGBA 30 20 10 255).
Proof.
  destruct (color_shape_decoded colorShapeProvider (shapeFrame 1 16) pointerDup 3%nat
              [10; 20; 30; 255] (dxgi.mkSHAPE_INFO 2 1 1 4))
    as (d' & t & img & E & Eo & Es & HP);
    try reflexivity; try discriminate; try (left; reflexivity); try (cbn; lia).
  exists d', t, img. split; [exact E|]. split; [exact Eo|]. split; [exact Es|].
  destruct (HP 0 0) as (b & g & r & a & Ei & Ea); [cbn; lia|cbn; lia|].
  vm_compute in Ei. injection Ei as <- <- <- <-. exact Ea.
Defined.

(* ================================================================== *)
(** ** GetImage: when the row copy panics *)

Lemma copy_at_length {A} (l src l' : list A) lo :
  Go.copy_at l lo src = Some l' -> length l' = length l.
Proof.
  unfold Go.copy_at, Go.from, Go.len.
  destruct (Z.leb_spec 0 lo), (Z.leb_spec lo (Z.of_nat (length l))); try discriminate.
  cbn [andb]. intros H1. injection H1 as <-.
  rewrite length_app, copy_length, length_firstn, length_skipn. lia.
Qed.

Lemma copy_at_some {A} (l src : list A) lo :
  (exists l', Go.copy_at l lo src = Some l') <-> 0 <= lo <= Go.len l.
Proof.
  unfold Go.copy_at, Go.from.
  destruct (Z.leb_spec 0 lo), (Z.leb_spec lo (Go.len l)); cbn [andb]; split;
    try lia; try (intros [l' H1]; discriminate); eauto.
Qed.

Lemma range_some {A} (l : list A) lo hi :
  (exists seg, Go.range l lo hi = Some seg) <-> 0 <= lo <= hi /\ hi <= Go.len l.
Proof.
  unfold Go.range.
  destruct (Z.leb_spec 0 lo), (Z.leb_spec lo hi), (Z.leb_spec hi (Go.len l));
    cbn [andb]; split; try lia; try (intros [l' H2]; discriminate); eauto.
Qed.

(** The copy loop returns exactly when its last round finds its source
    row within the data and its destination offset within the image
    buffer. *)
Lemma rowLoop_returns data cw dw :
  0 <= cw -> 0 <= dw ->
  forall (k : nat) (i : Z) (pix : list Z) (a b : Z),
    0 <= a -> 0 <= b ->
    ((exists s, Go.loop k i (rowStep data cw dw) (pix, a, b) = Some s)
     <-> (k = 0%nat
          \/ (b + (Z.of_nat k - 1) * dw + cw <= Go.len data
              /\ a + (Z.of_nat k - 1) * cw <= Go.len pix))).
Proof.
  intros Hcw Hdw. induction k as [|k IH]; intros i pix a b Ha Hb.
  - cbn. split; eauto.
  - cbn [Go.loop]. unfold rowStep at 1.
    destruct (Go.range data b (b + cw)) as [row|] eqn:Er.
    + assert (Hr : 0 <= b <= b + cw /\ b + cw <= Go.len data)
        by (apply range_some; eauto).
      destruct (Go.copy_at pix a row) as [pix'|] eqn:Ec.
      * assert (Hc : 0 <= a <= Go.len pix) by (apply (copy_at_some pix row); eauto).
        apply copy_at_length in Ec.
        rewrite (IH (i + 1) pix' (a + cw) (b + dw)) by lia.
        unfold Go.len in *. rewrite Ec. split.
        -- intros [->|[H1 H2]]; right; [cbn; lia|].
           split; lia.
        -- intros [C|[H1 H2]]; [discriminate|].
           destruct k; [now left|right]. split; lia.
      * split; [intros [s C]; discriminate|].
        intros [C|[H1 H2]]; [discriminate|]. exfalso.
        assert (Hn : ~ (0 <= a <= Go.len pix)).
        { intros C. apply (copy_at_some pix row) in C. destruct C as [l' C]. congruence. }
        apply Hn. split; [lia|].
        assert (0 <= (Z.of_nat (S k) - 1) * cw) by (apply Z.mul_nonneg_nonneg; lia).
        lia.
    + split; [intros [s C]; discriminate|].
      intros [C|[H1 H2]]; [discriminate|]. exfalso.
      assert (Hn : ~ (0 <= b <= b + cw /\ b + cw <= Go.len data)).
      { intros C. apply range_some in C. destruct C as [l' C]. congruence. }
      apply Hn.
      assert (0 <= (Z.of_nat (S k) - 1) * dw) by (apply Z.mul_nonneg_nonneg; lia).
      lia.
Qed.

(** X7. The row copy of GetImage, for a mapped frame of at least one row
    whose memory holds Pitch times height bytes: it returns exactly when a
    row fits the pitch and the image buffer reaches the start of the last
    row.  A buffer that ends within the last row is accepted (copy cuts
    that row short); one that ends before it makes GetImage panic on the
    slice expression. *)
Theorem extractRows_returns (pix : list Go.byte) (mappedRect : dxgi.DXGI_MAPPED_RECT)
  (size : dxgi.POINT) :
  let w := dxgi.X size in
  let h := dxgi.Y size in
  let pitch := dxgi.Pitch mappedRect in
  0 <= w -> 0 < h -> 0 <= pitch ->
  pitch * h <= Go.len (dxgi.PBits mappedRect) ->
  ((exists pix1, extractRows pix mappedRect size = Some pix1 /\ length pix1 = length pix)
   <-> 4 * w <= pitch /\ 4 * w * (h - 1) <= Go.len pix).
Proof.
  intros w h pitch Hw Hh Hp Hmem.
  unfold extractRows. fold w h pitch. unfold unsafe_Slice.
  assert (Hph : 0 <= pitch * h) by (apply Z.mul_nonneg_nonneg; lia).
  destruct (Z.ltb_spec (pitch * h) 0), (Z.ltb_spec (Go.len (dxgi.PBits mappedRect)) (pitch * h));
    try lia. cbn [orb].
  set (data := firstn (Z.to_nat (pitch * h)) (dxgi.PBits mappedRect)).
  assert (Hdata : Go.len data = pitch * h).
  { unfold data, Go.len in *. rewrite length_firstn. lia. }
  unfold Go.for_lt.
  pose proof (rowLoop_returns data (w * 4) pitch ltac:(lia) Hp (Z.to_nat h) 0 pix 0 0
                ltac:(lia) ltac:(lia)) as HR.
  rewrite Z2Nat.id in HR by lia. rewrite Hdata in HR.
  assert (Hcond : (Z.to_nat h = 0%nat
                   \/ 0 + (h - 1) * pitch + w * 4 <= pitch * h
                      /\ 0 + (h - 1) * (w * 4) <= Go.len pix)
                  <-> 4 * w <= pitch /\ 4 * w * (h - 1) <= Go.len pix).
  { split.
    - intros [C|[H1 H2]]; [lia|]. split; lia.
    - intros [H1 H2]. right. split; lia. }
  rewrite <- Hcond, <- HR. split.
  - intros (pix1 & E & _).
    destruct (Go.loop _ _ _ _) as [s|]; [eauto|discriminate].
  - intros [[[p a] b] E]. exists p. rewrite E. split; [reflexivity|].
    apply (loop_keeps (fun s : list Z * Z * Z => length (fst (fst s)) = length pix)) in E;
      [exact E| |reflexivity].
    intros i [[p0 a0] b0] [[p1 a1] b1] Hb Hl. unfold rowStep in Hb. cbn [fst] in *.
    destruct (Go.range data b0 _); [|discriminate].
    destruct (Go.copy_at p0 a0 _) eqn:Ec; [|discriminate].
    injection Hb as <- <- <-. apply copy_at_length in Ec. congruence.
Qed.

Lemma extractRows_returns_witness :
  exists pix1,
    extractRows (repeat 0 10) (dxgi.mkMAPPED_RECT 12 (map Z.of_nat (seq 0 24)))
      (dxgi.mkPOINT 2 2) = Some pix1
    /\ length pix1 = length (repeat 0 10).
Proof.
  apply (extractRows_returns (repeat 0 10)
           (dxgi.mkMAPPED_RECT 12 (map Z.of_nat (seq 0 24))) (dxgi.mkPOINT 2 2));
    cbn; lia.
Defined.

(* ================================================================== *)
(** ** The desktop resource of a frame *)

Ltac quiet_step :=
  match goal with
  | |- leads _ _ _ (bind _ _) => apply leads_bind; [ | intros ? ]
  | |- leads _ _ _ (defer _ _) => apply leads_defer
  | |- leads _ _ _ (ret _) => apply leads_ret; auto
  | |- leads _ _ _ (fail _) => apply leads_fail; auto
  | |- leads _ _ _ (get _) => apply leads_get; auto
  | |- leads _ _ _ (deref _) => apply leads_deref; auto
  | |- leads _ _ _ (lift _) => apply leads_lift; auto
  | |- leads _ _ _ (emit _) => apply leads_emit; [reflexivity | auto]
  | |- leads _ _ _ (modify _) => apply leads_modify; auto
  | |- leads _ _ _ (if ?b then _ else _) => destruct b
  | |- leads _ _ _ (match ?x with _ => _ end) => destruct x
  end.

Lemma any_state_I d : any_state d.
Proof. exact I. Qed.

#[local] Hint Resolve any_state_I : core.

Lemma updatePointer_no_desktop o info :
  leads any_state any_state no_desktop_event (updatePointer o info).
Proof.
  apply updatePointer_leads; auto.
  intros e He. destruct e; try discriminate; reflexivity.
Qed.

Lemma initializeStage_no_desktop o :
  leads any_state any_state no_desktop_event (initializeStage o).
Proof.
  apply initializeStage_leads; auto.
  intros e He. destruct e; try discriminate; reflexivity.
Qed.

Lemma copyFrame_no_desktop o info :
  leads any_state any_state no_desktop_event (copyFrame o info).
Proof.
  apply copyFrame_leads; auto.
  intros e He. destruct e; try discriminate; reflexivity.
Qed.

Lemma mapDesktop_no_desktop o desc :
  leads any_state any_state no_desktop_event (mapDesktop o desc).
Proof.
  unfold mapDesktop. destruct (r_MapDesktopSurface o) as [hr m].
  repeat quiet_step.
Qed.

Lemma quiet_filter t :
  forallb no_desktop_event t = true -> filter is_desktop_event t = [].
Proof. apply filter_none. Qed.

(** What the work on a frame does with the texture interface: nothing
    when it ends before the query, the query alone when it fails, the
    query and one release after everything else when it succeeds. *)
Lemma withFrame_desktop o info d r d' t :
  withFrame o info d = Some (r, d', t) ->
  filter is_desktop_event t = []
  \/ (d3d.Failed (d3d.HRESULT (r_DesktopQueryInterface o)) = true
      /\ filter is_desktop_event t = [EvDesktopQueryInterface])
  \/ (d3d.Failed (d3d.HRESULT (r_DesktopQueryInterface o)) = false
      /\ filter is_desktop_event t = [EvDesktopQueryInterface; EvDesktop2dRelease]).
Proof.
  unfold withFrame. rewrite run_get. intros H.
  assert (K0 : leads any_state any_state no_desktop_event
                 (if UpdatePointerInfo d then updatePointer o info else ret tt)).
  { destruct (UpdatePointerInfo d); [apply updatePointer_no_desktop|apply leads_ret; auto]. }
  apply bind_inv in H.
  destruct H as [(e & H & ->) | (a & d1 & t1 & t2 & H1 & H & ->)].
  { left. apply quiet_filter. exact (proj2 (K0 _ _ _ _ I H)). }
  pose proof (proj2 (K0 _ _ _ _ I H1)) as Q1.
  rewrite filter_app, (quiet_filter _ Q1). cbn [app].
  destruct (dxgi.AccumulatedFrames info =? 0).
  { injection H as <- <- <-. left. reflexivity. }
  rewrite run_emit in H.
  destruct (d3d.Failed (d3d.HRESULT (r_DesktopQueryInterface o))).
  { cbn in H. injection H as <- <- <-. right. left. auto. }
  destruct (defer _ _ d1) as [[[r2 d2] t3]|] eqn:E; [|discriminate].
  injection H as <- <- <-.
  apply defer_inv in E. destruct E as (d3 & t4 & u & t5 & E & EC & ->).
  injection EC as <- <- <-.
  right. right. split; [reflexivity|].
  revert E.
  match goal with |- ?m d1 = _ -> _ =>
    assert (K : leads any_state any_state no_desktop_event m)
  end.
  { destruct (r_SurfaceMap o) as [hr m].
    apply leads_bind; [apply leads_get; auto|intros staged].
    apply leads_bind; [|intros _].
    { destruct staged; [apply leads_ret; auto|].
      apply leads_bind; [apply initializeStage_no_desktop|intros hr2].
      destruct (d3d.Failed _); [apply leads_fail|apply leads_ret]; auto. }
    apply leads_bind; [apply copyFrame_no_desktop|intros _].
    repeat quiet_step. }
  intros E. pose proof (proj2 (K _ _ _ _ I E)) as Q4.
  cbn [filter is_desktop_event]. rewrite filter_app, (quiet_filter _ Q4).
  reflexivity.
Qed.

Lemma acquireFrame_desktop o timeoutMs d r d' tr :
  acquireFrame o timeoutMs d = Some (r, d', tr) ->
  let hrF := fst (r_AcquireNextFrame o) in
  let hrQ := r_DesktopQueryInterface o in
  let acquire := EvAcquireNextFrame (Go.uint32 timeoutMs) hrF in
  (d3d.Failed (d3d.HRESULT hrF) = true /\ filter is_desktop_event tr = [acquire])
  \/ (d3d.Failed (d3d.HRESULT hrF) = false
      /\ (filter is_desktop_event tr = [acquire; EvDesktopRelease]
          \/ (d3d.Failed (d3d.HRESULT hrQ) = true
              /\ filter is_desktop_event tr
                 = [acquire; EvDesktopQueryInterface; EvDesktopRelease])
          \/ (d3d.Failed (d3d.HRESULT hrQ) = false
              /\ filter is_desktop_event tr
                 = [acquire; EvDesktopQueryInterface; EvDesktop2dRelease;
                    EvDesktopRelease]))).
Proof.
  unfold acquireFrame. intros E.
  apply bind_inv in E. destruct E as [(e & E & _) | (u & d1 & t1 & t3 & E1 & E & ->)].
  { apply ReleaseFrame_inv in E. destruct E as (E & _). discriminate. }
  apply ReleaseFrame_inv in E1. destruct E1 as (_ & -> & ->).
  revert E. run_case. destruct (r_AcquireNextFrame o) as [hrF info].
  run. cbn [fst snd]. cbv zeta.
  assert (Q0 : filter is_desktop_event (if acquiredFrame d then [EvReleaseFrame] else []) = [])
    by (destruct (acquiredFrame d); reflexivity).
  rewrite filter_app, Q0. cbn [app].
  destruct (d3d.Failed (d3d.HRESULT hrF)).
  { left. destruct (d3d.HRESULT hrF =? _); cbn in E; injection E as <- <- <-; auto. }
  right. split; [reflexivity|].
  destruct (defer _ _ _) as [[[r3 d3] t4]|] eqn:ED; [|discriminate].
  injection E as <- <- <-.
  apply defer_inv in ED. destruct ED as (d4 & t5 & u2 & t6 & ED & ER & ->).
  apply defer_inv in ED. destruct ED as (d5 & t7 & u3 & t8 & EW & EE & ->).
  injection EE as <- <- <-.
  apply ReleaseFrame_inv in ER. destruct ER as (_ & -> & ->).
  assert (Q1 : filter is_desktop_event (if acquiredFrame d5 then [EvReleaseFrame] else []) = [])
    by (destruct (acquiredFrame d5); reflexivity).
  cbn [filter is_desktop_event].
  rewrite !filter_app, Q1, app_nil_r. cbn [filter is_desktop_event].
  apply withFrame_desktop in EW.
  destruct EW as [-> | [(F & ->) | (F & ->)]]; cbn [app]; auto.
Qed.

(** X8. Snapshot releases what it obtains for a frame, once and in the
    reverse order: of the four events about the frame's desktop resource
    (its handing out by AcquireNextFrame, the query for its texture
    interface, the release of that interface, the release of the resource)
    a trace holds none when no frame was asked for, the failed acquisition
    alone, or the successful acquisition closed by the release of the
    resource, with the query in between when it was made and the release
    of the texture interface after it exactly when the query succeeded. *)
Theorem snapshot_releases_desktop (o : Provider) (timeoutMs : Z)
  (d d' : OutputDuplicator) (r : result Snapshot_ok) (tr : list event) :
  Snapshot o timeoutMs d = Some (r, d', tr) ->
  let hrF := fst (r_AcquireNextFrame o) in
  let hrQ := r_DesktopQueryInterface o in
  let acquire := EvAcquireNextFrame (Go.uint32 timeoutMs) hrF in
  filter is_desktop_event tr = []
  \/ (d3d.Failed (d3d.HRESULT hrF) = true /\ filter is_desktop_event tr = [acquire])
  \/ (d3d.Failed (d3d.HRESULT hrF) = false
      /\ (filter is_desktop_event tr = [acquire; EvDesktopRelease]
          \/ (d3d.Failed (d3d.HRESULT hrQ) = true
              /\ filter is_desktop_event tr
                 = [acquire; EvDesktopQueryInterface; EvDesktopRelease])
          \/ (d3d.Failed (d3d.HRESULT hrQ) = false
              /\ filter is_desktop_event tr
                 = [acquire; EvDesktopQueryInterface; EvDesktop2dRelease;
                    EvDesktopRelease]))).
Proof.
  unfold Snapshot. run_case. run. intros H. cbv zeta.
  destruct (r_GetDesc o) as [hrD desc].
  destruct (d3d.Failed (d3d.HRESULT hrD)).
  { cbn in H. injection H as <- <- <-. left. reflexivity. }
  destruct (bind _ _ d) as [[[r2 d2] t2]|] eqn:E; [|discriminate].
  injection H as <- <- <-. cbn [filter is_desktop_event].
  apply bind_inv in E. destruct E as [(e & E & _) | (fast & d1 & t1 & t3 & E1 & E & ->)].
  { left. apply quiet_filter. exact (proj2 (mapDesktop_no_desktop o desc _ _ _ _ I E)). }
  pose proof (proj2 (mapDesktop_no_desktop o desc _ _ _ _ I E1)) as Q1.
  rewrite filter_app, (quiet_filter _ Q1). cbn [app].
  destruct fast.
  - rewrite run_get in E. injection E as <- <- <-. left. reflexivity.
  - right. exact (acquireFrame_desktop o timeoutMs _ _ _ _ E).
Qed.

Lemma snapshot_releases_desktop_witness :
  filter is_desktop_event (traceOfSnapshot dirtyProvider (newDup false))
  = [EvAcquireNextFrame 0 0; EvDesktopQueryInterface; EvDesktop2dRelease;
     EvDesktopRelease].
Proof.
  assert (E : Snapshot dirtyProvider 0 (newDup false)
              = Some (resultOfSnapshot dirtyProvider (newDup false),
                      afterSnapshot dirtyProvider (newDup false),
                      traceOfSnapshot dirtyProvider (newDup false)))
    by (vm_compute; reflexivity).
  destruct (snapshot_releases_desktop dirtyProvider 0 (newDup false) _ _ _ E)
    as [C | [[C _] | [_ [C | [[C _] | [_ C]]]]]];
    try (vm_compute in C; discriminate C).
  exact C.
Defined.

(* ================================================================== *)
(** ** What the errors of Snapshot report *)

Lemma fails_with_bind_yields (E : error -> Prop) {A B} (V : A -> Prop)
  (m : M A) (f : A -> M B) :
  fails_with E m -> yields V m -> (forall a, V a -> fails_with E (f a)) ->
  fails_with E (x <- m ;; f x).
Proof.
  intros Hm Hv Hf d r d' t e H Hr. apply bind_inv in H.
  destruct H as [(e' & H & ->) | (a & d1 & t1 & t2 & H1 & H2 & ->)].
  - injection Hr as <-. exact (Hm _ _ _ _ _ H eq_refl).
  - exact (Hf a (Hv _ _ _ _ H1) _ _ _ _ _ H2 Hr).
Qed.

(** The status initializeStage returns, when it is a failing one, is
    that of one of its three calls. *)
Lemma initializeStage_yields o :
  yields (fun hr => d3d.Failed (d3d.HRESULT hr) = true ->
                    hr = fst (r_TextureGetDesc o) \/ hr = fst (r_CreateTexture2D o)
                    \/ hr = fst (r_StagedTexQueryInterface o))
    (initializeStage o).
Proof.
  intros d a d' t. unfold initializeStage.
  destruct (r_TextureGetDesc o) as [hr [w h]].
  destruct (r_CreateTexture2D o) as [hr2 tex].
  destruct (r_StagedTexQueryInterface o) as [hr3 srf]. cbn [fst].
  run.
  destruct (d3d.Failed (d3d.HRESULT hr)).
  { cbn. intros H. injection H as <- <- <-. auto. }
  run_case. run.
  destruct (d3d.Failed (d3d.HRESULT hr2)).
  { cbn. intros H. injection H as <- <- <-. auto. }
  run_case. run.
  destruct (d3d.Failed (d3d.HRESULT hr3)).
  { cbn. intros H. injection H as <- <- <-. auto. }
  cbn. intros H. injection H as <- <- <-. discriminate.
Qed.

(** A rect loop that ends on a failing status ends on an answer of the
    provider that is not the more-data signal. *)
Lemma fetchRects_status {A} (zero : A) (evMake evCall : Z -> event) answers :
  forall buf required b hr t,
    fetchRects zero evMake evCall answers buf required = Some (b, Some hr, t) ->
    d3d.Failed (d3d.HRESULT hr) = true
    /\ d3d.HRESULT hr <> d3d.DXGI_ERROR_MORE_DATA
    /\ exists req written, In (hr, req, written) answers.
Proof.
  induction answers as [|[[hr0 req] written] rest IH];
    intros buf required b hr t; cbn [fetchRects]; [discriminate|].
  destruct (d3d.Failed (d3d.HRESULT hr0)) eqn:EF.
  - destruct (d3d.HRESULT hr0 =? d3d.DXGI_ERROR_MORE_DATA) eqn:EM.
    + destruct (fetchRects zero evMake evCall rest _ _) as [[[b2 st2] t2]|] eqn:E;
        [|discriminate].
      intros H. injection H as Hb Hs Ht. subst b st2 t.
      destruct (IH _ _ _ _ _ E) as (H1 & H2 & req' & w' & Hin).
      split; [exact H1|]. split; [exact H2|]. exists req', w'. now right.
    + intros H. injection H as Hb Hs Ht. subst b hr t. apply Z.eqb_neq in EM.
      split; [exact EF|]. split; [exact EM|]. exists req, written. now left.
  - destruct (Go.upto _ _); [|discriminate]. intros H. discriminate H.
Qed.

Lemma updatePointer_reports o info :
  fails_with (reported o) (updatePointer o info).
Proof.
  intros d r d' t e H ->. apply updatePointer_result in H.
  unfold pointerUpdateError in H.
  destruct (dxgi.LastMouseUpdateTime info =? 0); [discriminate|].
  destruct (dxgi.PointerShapeBufferSize info =? 0); [discriminate|].
  destruct (r_GetFramePointerShape o) as [[hr written] shape] eqn:Eg.
  destruct (hr =? 0) eqn:Eh; cbn [negb] in H.
  - destruct (dxgi.Type_ shape =? dxgi.DXGI_OUTDUPL_POINTER_SHAPE_TYPE_MONOCHROME) eqn:E1;
      [discriminate|].
    destruct (dxgi.Type_ shape =? dxgi.DXGI_OUTDUPL_POINTER_SHAPE_TYPE_COLOR) eqn:E2;
      [discriminate|].
    destruct (dxgi.Type_ shape =? dxgi.DXGI_OUTDUPL_POINTER_SHAPE_TYPE_MASKED_COLOR) eqn:E3;
      [discriminate|].
    cbn [orb] in H. injection H as ->. cbn [reported]. rewrite Eg. cbn [snd].
    apply Z.eqb_neq in E1, E2, E3. auto.
  - injection H as ->. cbn [reported]. rewrite Eg. cbn [fst]. now apply Z.eqb_neq in Eh.
Qed.

Lemma copyFrame_reports o info : fails_with (reported o) (copyFrame o info).
Proof.
  unfold copyFrame, fetchMoveRects, fetchDirtyRects.
  repeat first [ apply emit_all_never_fails | fails_step ].
  - intros d r d' t e.
    destruct (fetchRects _ _ _ _ _ _) as [[[b [hr|]] t']|] eqn:E; try discriminate;
      intros H; injection H as <- <- <-; intros H; [|discriminate].
    injection H as <-. exact (fetchRects_status _ _ _ _ _ _ _ _ _ E).
  - intros d r d' t e.
    destruct (fetchRects _ _ _ _ _ _) as [[[b [hr|]] t']|] eqn:E; try discriminate;
      intros H; injection H as <- <- <-; intros H; [|discriminate].
    injection H as <-. exact (fetchRects_status _ _ _ _ _ _ _ _ _ E).
Qed.

Lemma withFrame_reports o :
  d3d.Failed (d3d.HRESULT (fst (r_AcquireNextFrame o))) = false ->
  fails_with (reported o) (withFrame o (snd (r_AcquireNextFrame o))).
Proof.
  intros HF. unfold withFrame.
  apply fails_with_bind; [apply fails_with_get|intros upd].
  apply fails_with_bind; [|intros _].
  { destruct upd; [apply updatePointer_reports|apply fails_with_ret]. }
  destruct (dxgi.AccumulatedFrames (snd (r_AcquireNextFrame o)) =? 0) eqn:Ea.
  { apply fails_with_fail. right. apply Z.eqb_eq in Ea. auto. }
  apply fails_with_bind; [apply fails_with_emit|intros _].
  destruct (d3d.Failed (d3d.HRESULT (r_DesktopQueryInterface o))) eqn:EQ.
  { apply fails_with_fail. split; [reflexivity|exact EQ]. }
  apply fails_with_defer.
  apply fails_with_bind; [apply fails_with_get|intros staged].
  apply fails_with_bind; [|intros _].
  { destruct staged; [apply fails_with_ret|].
    apply (fails_with_bind_yields _ _ _ _ (initializeStage_never_fails _ o)
             (initializeStage_yields o)).
    intros hr Hhr. destruct (d3d.Failed (d3d.HRESULT hr)) eqn:Eh;
      [|apply fails_with_ret].
    apply fails_with_fail. split; [exact Eh|auto]. }
  apply fails_with_bind; [apply copyFrame_reports|intros _].
  apply fails_with_bind; [apply fails_with_deref|intros _].
  apply fails_with_bind; [apply fails_with_emit|intros _].
  destruct (r_SurfaceMap o) as [hr m] eqn:Em.
  apply fails_with_bind; [destruct m; [apply fails_with_modify|apply fails_with_ret]|intros _].
  destruct (d3d.Failed (d3d.HRESULT hr)) eqn:Eh.
  - apply fails_with_fail. cbn [reported]. rewrite Em. split; [reflexivity|exact Eh].
  - repeat fails_step.
Qed.

(** X9. Every error Snapshot returns reports a failure that the provider
    answered: the error of a call carries the failing status of that
    call (of one of its three calls for initializeStage; for a rect query
    a failing status other than the more-data signal), ErrNoImageYet
    stands for the wait timeout or for a frame without accumulated
    updates, and the two errors of the pointer update for a nonzero status
    of GetFramePointerShape or a shape type that is none of the three
    decoded types. *)
Theorem snapshot_error_reports (o : Provider) (timeoutMs : Z)
  (d d' : OutputDuplicator) (e : error) (tr : list event) :
  Snapshot o timeoutMs d = Some (Fail e, d', tr) -> reported o e.
Proof.
  intros H.
  assert (F : fails_with (reported o) (Snapshot o timeoutMs)).
  { unfold Snapshot, acquireFrame.
    apply fails_with_bind; [apply fails_with_deref|intros _].
    apply fails_with_bind; [apply fails_with_emit|intros _].
    destruct (r_GetDesc o) as [hrD desc] eqn:Ed.
    destruct (d3d.Failed (d3d.HRESULT hrD)) eqn:EF.
    { apply fails_with_fail. cbn [reported]. rewrite Ed. split; [reflexivity|exact EF]. }
    apply fails_with_bind.
    { unfold mapDesktop. destruct (r_MapDesktopSurface o) as [hr m]. repeat fails_step. }
    intros fast. destruct fast; [repeat fails_step|].
    apply fails_with_bind; [unfold ReleaseFrame; repeat fails_step|intros _].
    apply fails_with_bind; [apply fails_with_deref|intros _].
    pose proof (withFrame_reports o) as HW.
    destruct (r_AcquireNextFrame o) as [hrF info] eqn:Ea. cbn [fst snd] in HW.
    apply fails_with_bind; [apply fails_with_emit|intros _].
    apply fails_with_bind; [apply fails_with_modify|intros _].
    destruct (d3d.Failed (d3d.HRESULT hrF)) eqn:EA.
    - destruct (d3d.HRESULT hrF =? d3d.DXGI_ERROR_WAIT_TIMEOUT) eqn:Et.
      + apply fails_with_fail. cbn [reported]. rewrite Ea. left.
        apply Z.eqb_eq in Et. cbn [fst]. auto.
      + apply fails_with_fail. cbn [reported]. rewrite Ea.
        apply Z.eqb_neq in Et. cbn [fst]. auto.
    - apply fails_with_defer, fails_with_defer. apply HW. reflexivity. }
  exact (F _ _ _ _ _ H eq_refl).
Qed.

Lemma snapshot_error_reports_witness :
  reported unknownShapeFrameProvider (ErrUnsupportedType 3).
Proof.
  eapply (snapshot_error_reports unknownShapeFrameProvider 0 pointerDup).
  vm_compute. reflexivity.
Defined.

(* ================================================================== *)
(** ** What a successful Snapshot hands back *)

Lemma mapDesktop_fast o desc d d' t :
  mapDesktop o desc d = Some (Ok true, d', t) ->
  dxgi.DesktopImageInSystemMemory desc <> 0
  /\ d3d.Failed (d3d.HRESULT (fst (r_MapDesktopSurface o))) = false
  /\ size d' = modeSize desc
  /\ acquiredFrame d' = acquiredFrame d
  /\ forall m, snd (r_MapDesktopSurface o) = Some m -> mappedRect d' = m.
Proof.
  unfold mapDesktop.
  destruct (dxgi.DesktopImageInSystemMemory desc =? 0) eqn:Em; cbn [negb];
    [discriminate|].
  apply Z.eqb_neq in Em.
  destruct (r_MapDesktopSurface o) as [hr [m|]]; run; cbn [fst snd];
    destruct (d3d.Failed (d3d.HRESULT hr)); cbn [negb]; try discriminate;
    intros H; inversion H; subst; cbn; repeat split; trivial;
    intros m0 E; congruence.
Qed.

Lemma withFrame_success o info d s d' t :
  withFrame o info d = Some (Ok s, d', t) ->
  unmap s = SurfaceUnmap /\ mapped s = mappedRect d' /\ snap_size s = size d'
  /\ dxgi.AccumulatedFrames info <> 0
  /\ d3d.Failed (d3d.HRESULT (r_DesktopQueryInterface o)) = false
  /\ d3d.Failed (d3d.HRESULT (fst (r_SurfaceMap o))) = false
  /\ acquiredFrame d' = acquiredFrame d
  /\ stagedTex d' <> None /\ surface d' <> None
  /\ forall m, snd (r_SurfaceMap o) = Some m -> mappedRect d' = m.
Proof.
  unfold withFrame. rewrite run_get. intros H.
  apply bind_inv in H.
  destruct H as [(e & _ & C) | (a & d1 & t1 & t2 & H1 & H & _)]; [discriminate|].
  assert (K1 : acquiredFrame d1 = acquiredFrame d).
  { destruct (UpdatePointerInfo d).
    - apply updatePointer_only_pointer in H1. destruct H1 as [-> _]. reflexivity.
    - injection H1 as <- <- <-. reflexivity. }
  destruct (dxgi.AccumulatedFrames info =? 0) eqn:Ea; [discriminate|].
  apply Z.eqb_neq in Ea.
  rewrite run_emit in H.
  destruct (d3d.Failed (d3d.HRESULT (r_DesktopQueryInterface o))) eqn:EQ;
    [discriminate|].
  destruct (defer _ _ d1) as [[[r2 d2] t3]|] eqn:E; [|discriminate].
  injection H as -> <- _.
  apply defer_inv in E. destruct E as (d3 & t4 & u & t5 & E & EC & _).
  injection EC as _ <- _.
  rewrite run_get in E.
  apply bind_inv in E.
  destruct E as [(e & _ & C) | (a2 & d4 & t6 & t7 & E1 & E & _)]; [discriminate|].
  assert (K2 : acquiredFrame d4 = acquiredFrame d1 /\ stagedTex d4 <> None).
  { destruct (stagedTex d1) as [h|] eqn:Es.
    - injection E1 as <- <- <-. rewrite Es. split; [reflexivity|discriminate].
    - revert E1. unfold initializeStage.
      destruct (r_TextureGetDesc o) as [hr [w h]].
      destruct (r_CreateTexture2D o) as [hr2 tex].
      destruct (r_StagedTexQueryInterface o) as [hr3 srf].
      run.
      destruct (d3d.Failed (d3d.HRESULT hr)) eqn:F1.
      { run. rewrite F1. cbn. discriminate. }
      run_all.
      destruct (d3d.Failed (d3d.HRESULT hr2)) eqn:F2.
      { run. rewrite F2. cbn. discriminate. }
      run_all.
      destruct (d3d.Failed (d3d.HRESULT hr3)) eqn:F3.
      { run. rewrite F3. cbn. discriminate. }
      run. cbn. intros E1. inversion E1; subst. cbn in *.
      split; [reflexivity|congruence]. }
  destruct K2 as [K2 K3].
  apply bind_inv in E.
  destruct E as [(e & _ & C) | (a3 & d6 & t10 & t11 & E2 & E & _)]; [discriminate|].
  assert (K4 : acquiredFrame d6 = acquiredFrame d4 /\ stagedTex d6 = stagedTex d4).
  { refine (proj1 (copyFrame_leads o
                     (fun x => acquiredFrame x = acquiredFrame d4
                               /\ stagedTex x = stagedTex d4) any_event
                     _ _ _ _ info d4 _ _ _ (conj eq_refl eq_refl) E2)); auto. }
  destruct K4 as [K4 K5].
  revert E. run_case. run.
  destruct (r_SurfaceMap o) as [hr m]. cbn [fst snd].
  destruct (d3d.Failed (d3d.HRESULT hr)) eqn:EM.
  { destruct m; run; discriminate. }
  destruct m as [m|]; run; cbn; intros E; inversion E; subst; cbn;
    repeat split; trivial; try congruence.
Qed.

(** X10. What a successful Snapshot guarantees.  The mapped rect and the
    size it returns are the fields of the duplicator as it leaves them.
    On the fast path the unmap function is UnMapDesktopSurface, the size
    is that of the display mode and the mapping succeeded.  Otherwise the
    unmap function is that of the staging surface: a frame with
    accumulated updates was acquired and is released again (the flag is
    clear), the texture query and the mapping of the staging surface
    succeeded, and the staging texture and its surface exist. *)
Theorem snapshot_success (o : Provider) (timeoutMs : Z)
  (d d' : OutputDuplicator) (s : Snapshot_ok) (tr : list event) :
  Snapshot o timeoutMs d = Some (Ok s, d', tr) ->
  mapped s = mappedRect d' /\ snap_size s = size d'
  /\ d3d.Failed (d3d.HRESULT (fst (r_GetDesc o))) = false
  /\ match unmap s with
     | UnMapDesktopSurface =>
         dxgi.DesktopImageInSystemMemory (snd (r_GetDesc o)) <> 0
         /\ d3d.Failed (d3d.HRESULT (fst (r_MapDesktopSurface o))) = false
         /\ size d' = modeSize (snd (r_GetDesc o))
         /\ acquiredFrame d' = acquiredFrame d
         /\ forall m, snd (r_MapDesktopSurface o) = Some m -> mappedRect d' = m
     | SurfaceUnmap =>
         d3d.Failed (d3d.HRESULT (fst (r_AcquireNextFrame o))) = false
         /\ dxgi.AccumulatedFrames (snd (r_AcquireNextFrame o)) <> 0
         /\ d3d.Failed (d3d.HRESULT (r_DesktopQueryInterface o)) = false
         /\ d3d.Failed (d3d.HRESULT (fst (r_SurfaceMap o))) = false
         /\ acquiredFrame d' = false
         /\ stagedTex d' <> None /\ surface d' <> None
         /\ forall m, snd (r_SurfaceMap o) = Some m -> mappedRect d' = m
     end.
Proof.
  unfold Snapshot. run_case. run.
  destruct (r_GetDesc o) as [hrD desc]. cbn [fst snd].
  destruct (d3d.Failed (d3d.HRESULT hrD)) eqn:ED; [discriminate|].
  destruct (bind _ _ d) as [[[r2 d2] t2]|] eqn:E; [|discriminate].
  intros H. injection H as -> <- _.
  apply bind_inv in E. destruct E as [(e & _ & C) | (fast & d1 & t1 & t3 & E1 & E & _)];
    [discriminate|].
  destruct fast.
  - rewrite run_get in E. inversion E; subst. cbn [mapped snap_size unmap].
    apply mapDesktop_fast in E1. tauto.
  - unfold acquireFrame in E.
    apply bind_inv in E. destruct E as [(e & _ & C) | (u & d5 & t4 & t5 & E2 & E & _)];
      [discriminate|].
    apply ReleaseFrame_inv in E2. destruct E2 as (_ & -> & _).
    revert E. run_case. destruct (r_AcquireNextFrame o) as [hrF info]. run.
    cbn [fst snd].
    destruct (d3d.Failed (d3d.HRESULT hrF)) eqn:EF.
    { destruct (_ =? _); discriminate. }
    destruct (defer _ _ _) as [[[r3 d6] t6]|] eqn:EDf; [|discriminate].
    intros E. injection E as -> <- _.
    apply defer_inv in EDf. destruct EDf as (d7 & t7 & u2 & t8 & EDf & ER & _).
    apply defer_inv in EDf. destruct EDf as (d8 & t9 & u3 & t10 & EW & EE & _).
    injection EE as _ <- _.
    apply ReleaseFrame_inv in ER. destruct ER as (_ & -> & _).
    apply withFrame_success in EW.
    destruct EW as (U & M & S & A & Q & P & _ & T & F & R).
    rewrite U. cbn [mappedRect size acquiredFrame stagedTex surface set_acquiredFrame].
    tauto.
Qed.

Lemma snapshot_success_witness :
  exists s,
    resultOfSnapshot dirtyProvider (newDup false) = Ok s
    /\ unmap s = SurfaceUnmap
    /\ mapped s = mappedRect (afterSnapshot dirtyProvider (newDup false))
    /\ snap_size s = size (afterSnapshot dirtyProvider (newDup false))
    /\ acquiredFrame (afterSnapshot dirtyProvider (newDup false)) = false
    /\ stagedTex (afterSnapshot dirtyProvider (newDup false)) <> None
    /\ surface (afterSnapshot dirtyProvider (newDup false)) <> None.
Proof.
  destruct (resultOfSnapshot dirtyProvider (newDup false)) as [s|e] eqn:R;
    [|vm_compute in R; discriminate R].
  assert (E : Snapshot dirtyProvider 0 (newDup false)
              = Some (resultOfSnapshot dirtyProvider (newDup false),
                      afterSnapshot dirtyProvider (newDup false),
                      traceOfSnapshot dirtyProvider (newDup false)))
    by (vm_compute; reflexivity).
  rewrite R in E.
  pose proof (snapshot_success dirtyProvider 0 (newDup false) _ _ _ E) as H.
  assert (U : unmap s = SurfaceUnmap)
    by (vm_compute in R; injection R as <-; reflexivity).
  exists s. split; [reflexivity|]. split; [exact U|].
  rewrite U in H. tauto.
Defined.

(* ================================================================== *)
(** ** GetImage as a whole *)

(** X11. GetImage is Snapshot, the pixel transfer, the cursor when
    DrawPointer is set, and the unmap: it leaves the duplicator as
    Snapshot left it; when Snapshot fails it returns that error and makes
    no further call, in particular no unmap; when Snapshot succeeds it
    never fails, its one further call is the unmap function Snapshot
    returned, made last, and the image it returns is the given one with
    the transferred pixels, drawn on as by DrawCursor when DrawPointer is
    set. *)
Theorem getImage_snapshot_then_unmap (o : Provider) (img : image.RGBA)
  (timeoutMs : Z) (d d' : OutputDuplicator) (r : result image.RGBA)
  (tr : list event) :
  GetImage o img timeoutMs d = Some (r, d', tr) ->
  exists rs ts,
    Snapshot o timeoutMs d = Some (rs, d', ts)
    /\ match rs with
       | Fail e => r = Fail e /\ tr = ts
       | Ok s =>
           tr = ts ++ [unmapEvent s]
           /\ exists pix img',
                r = Ok img'
                /\ transferPixels d' (image.Pix img) (mapped s) (snap_size s) = Some pix
                /\ if DrawPointer d'
                   then DrawCursor d' (image.with_Pix img pix) = Some img'
                   else img' = image.with_Pix img pix
       end.
Proof.
  unfold GetImage. intros H. apply bind_inv in H.
  destruct H as [(e & H & ->) | (s & d1 & t1 & t2 & H1 & H & ->)].
  { exists (Fail e), tr. auto. }
  exists (Ok s), t1.
  apply defer_inv in H. destruct H as (d2 & t3 & u & t4 & H & HC & ->).
  revert H. run.
  destruct (transferPixels d1 (image.Pix img) (mapped s) (snap_size s)) as [pix|] eqn:Et;
    [|rewrite run_lift_nil; discriminate].
  rewrite (run_lift _ _ _ pix eq_refl).
  fold (unmapEvent s) in HC. injection HC as <- <- <-.
  destruct (DrawPointer d1) eqn:Ep.
  - unfold lift. destruct (drawPointer d1 _) as [img'|] eqn:Ed; [|discriminate].
    intros H. injection H as <- <- <-.
    split; [assumption|]. split; [reflexivity|].
    exists pix, img'. rewrite Ep. auto.
  - intros H. injection H as <- <- <-.
    split; [assumption|]. split; [reflexivity|].
    exists pix, (image.with_Pix img pix). rewrite Ep. auto.
Qed.

Lemma getImage_snapshot_then_unmap_witness :
  exists r d' tr rs ts,
    GetImage dirtyProvider blankImage 0 (newDup false) = Some (r, d', tr)
    /\ Snapshot dirtyProvider 0 (newDup false) = Some (rs, d', ts)
    /\ match rs with
       | Fail e => r = Fail e /\ tr = ts
       | Ok s =>
           tr = ts ++ [unmapEvent s]
           /\ exists pix img',
                r = Ok img'
                /\ transferPixels d' (image.Pix blankImage) (mapped s) (snap_size s)
                   = Some pix
                /\ if DrawPointer d'
                   then DrawCursor d' (image.with_Pix blankImage pix) = Some img'
                   else img' = image.with_Pix blankImage pix
       end.
Proof.
  eexists. eexists. eexists.
  assert (E : GetImage dirtyProvider blankImage 0 (newDup false)
              = Some (Ok (image.with_Pix blankImage (map Z.of_nat (seq 0 32))),
                      afterSnapshot dirtyProvider (newDup false),
                      traceOfSnapshot dirtyProvider (newDup false) ++ [EvSurfaceUnmap]))
    by (vm_compute; reflexivity).
  destruct (getImage_snapshot_then_unmap dirtyProvider blankImage 0 (newDup false)
              _ _ _ E) as (rs & ts & R).
  exists rs, ts. split; [exact E|exact R].
Defined.

(* ================================================================== *)
(** ** After Release *)

(** X12. A released duplicator cannot be used to capture: after Release,
    Snapshot, GetImage and GetBounds panic on the nil interface pointer
    they call through. *)
Theorem use_after_release (o : Provider) (img : image.RGBA) (timeoutMs : Z)
  (answer : Z * dxgi.RECT) (d d' : OutputDuplicator) (r : result unit)
  (t : list event) :
  Release d = Some (r, d', t) ->
  Snapshot o timeoutMs d' = None
  /\ GetImage o img timeoutMs d' = None
  /\ GetBounds answer d' = None.
Proof.
  intros H. apply Release_inv in H. destruct H as (_ & _ & _ & _ & Ho & Hx).
  assert (HS : Snapshot o timeoutMs d' = None).
  { unfold Snapshot. now rewrite run_deref_nil. }
  split; [exact HS|]. split.
  - unfold GetImage, bind. now rewrite HS.
  - unfold GetBounds. now rewrite Hx.
Qed.

Lemma use_after_release_witness :
  let d' := match Release (newDup false) with
            | Some (_, d', _) => d'
            | None => newDup false
            end in
  Snapshot dirtyProvider 0 d' = None
  /\ GetImage dirtyProvider greenRow 0 d' = None
  /\ GetBounds (0, dxgi.mkRECT 0 0 4 2) d' = None.
Proof.
  eapply (use_after_release dirtyProvider greenRow 0 (0, dxgi.mkRECT 0 0 4 2)
            (newDup false)).
  vm_compute. reflexivity.
Defined.

(* ================================================================== *)
(** ** GetBounds *)

(** X13. GetBounds returns the error with the status of
    dxgiOutput.GetDesc when that status is a failure, and else the
    desktop coordinates as a rectangle with ordered corners: coordinates
    given in order are returned as they are, inverted ones change
    places, so that the width and height of the result are never
    negative. *)
Theorem getBounds_orders_corners (hr : Z) (c : dxgi.RECT) (d : OutputDuplicator)
  (h : handle) :
  dxgiOutput d = Some h ->
  (d3d.Failed (d3d.HRESULT hr) = true ->
   GetBounds (hr, c) d = Some (ErrOutputGetDesc hr))
  /\ (d3d.Failed (d3d.HRESULT hr) = false ->
      exists r,
        GetBounds (hr, c) d = Some (Bounds r)
        /\ image.Dx r = Z.abs (dxgi.Right c - dxgi.Left c)
        /\ image.Dy r = Z.abs (dxgi.Bottom c - dxgi.Top c)
        /\ (dxgi.Left c <= dxgi.Right c -> dxgi.Top c <= dxgi.Bottom c ->
            r = image.mkRect (dxgi.Left c) (dxgi.Top c) (dxgi.Right c) (dxgi.Bottom c))).
Proof.
  intros Hd. unfold GetBounds. rewrite Hd. split; intros Hf; rewrite Hf; [reflexivity|].
  eexists. split; [reflexivity|]. unfold image.Dx, image.Dy, image.Rect. cbn.
  repeat split; try lia.
  intros H1 H2. rewrite !Z.min_l, !Z.max_r by lia. reflexivity.
Qed.

Lemma getBounds_orders_corners_witness :
  exists r,
    GetBounds (0, dxgi.mkRECT 1920 0 0 1080) (newDup false) = Some (Bounds r)
    /\ image.Dx r = 1920 /\ image.Dy r = 1080.
Proof.
  destruct (proj2 (getBounds_orders_corners 0 (dxgi.mkRECT 1920 0 0 1080)
                     (newDup false) 4%nat eq_refl) eq_refl)
    as (r & E & Hx & Hy & _).
  exists r. auto.
Defined.

(* ================================================================== *)
(** ** A staging texture without its surface *)

Lemma withFrame_without_surface o info d r d' t h :
  stagedTex d = Some h -> surface d = None ->
  withFrame o info d = Some (r, d', t) -> exists e, r = Fail e.
Proof.
  intros Hs Hf. unfold withFrame. rewrite run_get. intros H.
  apply bind_inv in H.
  destruct H as [(e & H & ->) | (a & d1 & t1 & t2 & H1 & H & ->)]; [eauto|].
  assert (K1 : stagedTex d1 = Some h /\ surface d1 = None).
  { destruct (UpdatePointerInfo d).
    - apply updatePointer_only_pointer in H1. destruct H1 as [-> _]. auto.
    - injection H1 as <- <- <-. auto. }
  destruct K1 as [Hs1 Hf1].
  destruct (dxgi.AccumulatedFrames info =? 0).
  { injection H as <- <- <-. eauto. }
  rewrite run_emit in H.
  destruct (d3d.Failed (d3d.HRESULT (r_DesktopQueryInterface o))).
  { cbn in H. injection H as <- <- <-. eauto. }
  destruct (defer _ _ d1) as [[[r2 d2] t3]|] eqn:E; [|discriminate].
  injection H as <- <- <-.
  apply defer_inv in E. destruct E as (d3 & t4 & u & t5 & E & _ & _).
  rewrite run_get, Hs1, run_ret in E.
  apply bind_inv in E.
  destruct E as [(e & E & ->) | (a3 & d6 & t10 & t11 & E2 & E & _)]; [eauto|].
  exfalso.
  assert (K : surface d6 = None).
  { refine (proj1 (copyFrame_leads o (fun x => surface x = None) any_event
                     _ _ _ _ info d1 _ _ _ Hf1 E2)); auto. }
  rewrite run_deref_nil in E by exact K. discriminate.
Qed.

(** X14. When CreateTexture2D succeeds and the query for the surface of
    the new texture fails, initializeStage returns the failing status
    with the texture stored and no surface.  From then on Snapshot finds
    a staging texture, does not call initializeStage again, and never
    again returns a staged frame: whenever it returns a frame, it is the
    desktop surface of the fast path. *)
Theorem stage_without_surface_sticks (o1 o2 : Provider) (timeoutMs : Z)
  (d d2 : OutputDuplicator) (hrG hrC hrQ w0 h0 : Z) (hd tex : handle)
  (rs : result Snapshot_ok) (tr : list event) :
  device d = Some hd ->
  r_TextureGetDesc o1 = (hrG, (w0, h0)) -> d3d.Failed (d3d.HRESULT hrG) = false ->
  r_CreateTexture2D o1 = (hrC, Some tex) -> d3d.Failed (d3d.HRESULT hrC) = false ->
  r_StagedTexQueryInterface o1 = (hrQ, None) -> d3d.Failed (d3d.HRESULT hrQ) = true ->
  let d1 := set_surface None (set_stagedTex (Some tex) d) in
  initializeStage o1 d
  = Some (Ok hrQ, d1, [EvTextureGetDesc; EvCreateTexture2D; EvStagedTexQueryInterface])
  /\ (Snapshot o2 timeoutMs d1 = Some (rs, d2, tr) ->
      stagedTex d2 = Some tex /\ surface d2 = None
      /\ forallb no_stage_event tr = true
      /\ forall s, rs = Ok s -> unmap s = UnMapDesktopSurface).
Proof.
  intros Hd Eg Fg Ec Fc Eq Fq d1. split.
  { unfold initializeStage. rewrite Eg, Ec, Eq. run. rewrite Fg.
    rewrite (run_deref _ _ _ hd Hd). run. rewrite Fc.
    rewrite (run_deref stagedTex _ (set_stagedTex (Some tex) d) tex eq_refl).
    run. rewrite Fq. reflexivity. }
  intros H.
  pose (I := fun x => stagedTex x = Some tex /\ surface x = None).
  assert (HI : I d1) by (split; reflexivity).
  destruct (Snapshot_invariant o2 I no_stage_event) with (timeoutMs := timeoutMs)
    (d := d1) (r := rs) (d' := d2) (t := tr) as [(H1 & H2) Hq]; try assumption;
    try (intros v x Hx; exact Hx).
  { intros x Hx. exact Hx. }
  { intros info. apply updatePointer_leads; [tauto| |].
    - intros p x Hx. exact Hx.
    - intros e He. destruct e; try discriminate; reflexivity. }
  { intros x r0 x' t0 [(H1 & _) H2]. congruence. }
  { intros e _ He. unfold no_stage_event. now rewrite He. }
  split; [exact H1|]. split; [exact H2|]. split; [exact Hq|].
  intros s ->. revert H. unfold Snapshot. run_case. run.
  destruct (r_GetDesc o2) as [hrD desc].
  destruct (d3d.Failed (d3d.HRESULT hrD)); [discriminate|].
  destruct (bind _ _ d1) as [[[r2 d3] t2]|] eqn:E; [|discriminate].
  intros H. injection H as -> <- <-.
  apply bind_inv in E. destruct E as [(e & _ & C) | (fast & d4 & t1 & t3 & E1 & E & _)];
    [discriminate|].
  destruct fast.
  - rewrite run_get in E. injection E as <- _ _. reflexivity.
  - exfalso.
    assert (K4 : stagedTex d4 = Some tex /\ surface d4 = None).
    { revert E1. unfold mapDesktop.
      destruct (negb _); [|intros E1; inversion E1; subst; auto].
      destruct (r_MapDesktopSurface o2) as [hr [m|]]; run; cbn;
        intros E1; inversion E1; subst; auto. }
    destruct K4 as [K4 K5].
    unfold acquireFrame in E.
    apply bind_inv in E. destruct E as [(e & _ & C) | (u & d5 & t4 & t5 & E2 & E & _)];
      [discriminate|].
    apply ReleaseFrame_inv in E2. destruct E2 as (_ & -> & _).
    revert E. run_case. destruct (r_AcquireNextFrame o2) as [hrF info]. run.
    destruct (d3d.Failed (d3d.HRESULT hrF)).
    { destruct (_ =? _); discriminate. }
    destruct (defer _ _ _) as [[[r3 d6] t6]|] eqn:ED; [|discriminate].
    intros E. injection E as -> _ _.
    apply defer_inv in ED. destruct ED as (d7 & t7 & u2 & t8 & ED & _ & _).
    apply defer_inv in ED. destruct ED as (d8 & t9 & u3 & t10 & EW & _ & _).
    apply (withFrame_without_surface _ _ _ _ _ _ tex) in EW; [|exact K4|exact K5].
    destruct EW as [e C]. discriminate.
Qed.

Lemma stage_without_surface_sticks_witness :
  let d1 := set_surface None (set_stagedTex (Some 5%nat) (newDup false)) in
  initializeStage noSurfaceProvider (newDup false)
  = Some (Ok (Go.int32 0x80004002), d1,
          [EvTextureGetDesc; EvCreateTexture2D; EvStagedTexQueryInterface])
  /\ stagedTex (afterSnapshot fastProvider d1) = Some 5%nat
  /\ surface (afterSnapshot fastProvider d1) = None
  /\ forallb no_stage_event (traceOfSnapshot fastProvider d1) = true
  /\ forall s, resultOfSnapshot fastProvider d1 = Ok s -> unmap s = UnMapDesktopSurface.
Proof.
  pose proof (stage_without_surface_sticks noSurfaceProvider fastProvider 0
                (newDup false)
                (afterSnapshot fastProvider
                   (set_surface None (set_stagedTex (Some 5%nat) (newDup false))))
                0 0 (Go.int32 0x80004002) 4 2 1%nat 5%nat
                (resultOfSnapshot fastProvider
                   (set_surface None (set_stagedTex (Some 5%nat) (newDup false))))
                (traceOfSnapshot fastProvider
                   (set_surface None (set_stagedTex (Some 5%nat) (newDup false))))
                eq_refl eq_refl eq_refl eq_refl eq_refl eq_refl eq_refl) as [H1 H2].
  split; [exact H1|]. exact (H2 eq_refl).
Defined.

(* ================================================================== *)
(** ** Release after Snapshot *)

(** X15. After any Snapshot that returned, Release returns too: the
    duplication interface it may have to release a frame through is still
    there.  It calls Release once on each interface that is not nil,
    after the release of a frame marked as acquired, and leaves the flag
    clear and the four pointers nil. *)
Theorem release_after_snapshot (o : Provider) (timeoutMs : Z)
  (d d1 : OutputDuplicator) (r : result Snapshot_ok) (tr : list event) :
  Snapshot o timeoutMs d = Some (r, d1, tr) ->
  exists d2,
    Release d1 = Some (Ok tt, d2, releaseCalls d1) /\ released d2.
Proof.
  intros H.
  assert (Ho : exists h, outputDuplication d1 = Some h).
  { destruct (outputDuplication d) as [h|] eqn:E.
    - exists h.
      destruct (Snapshot_invariant o (fun x => outputDuplication x = Some h) any_event)
        with (timeoutMs := timeoutMs) (d := d) (r := r) (d' := d1) (t := tr)
        as [Hp _]; try assumption; try (intros v x Hx; exact Hx).
      + intros x Hx. exact Hx.
      + intros info. apply updatePointer_leads; [tauto| |reflexivity].
        intros p x Hx. exact Hx.
      + apply initializeStage_leads; try (intros v x Hx; exact Hx); [tauto|reflexivity].
      + reflexivity.
    - unfold Snapshot in H. rewrite run_deref_nil in H by exact E. discriminate. }
  destruct Ho as [h Ho].
  destruct d1 as [dv dc od dx st sf mr sz pinfo dp up dr mv af ns].
  cbn in Ho. subst od. unfold releaseCalls, released.
  destruct af, st, sf, dx; cbn; eexists; (split; [reflexivity|]); cbn; auto.
Qed.

Lemma release_after_snapshot_witness :
  exists d2,
    Release (afterSnapshot dirtyProvider (newDup false))
    = Some (Ok tt, d2,
            [EvStagedTexRelease; EvSurfaceRelease; EvOutputDuplicationRelease;
             EvDxgiOutputRelease])
    /\ released d2.
Proof.
  eapply (release_after_snapshot dirtyProvider 0 (newDup false)).
  vm_compute. reflexivity.
Defined.

(* ================================================================== *)
(** ** A frame that only moves the pointer *)

(** X16. A frame without accumulated updates still moves the cursor:
    with UpdatePointerInfo set, Snapshot stores the pointer position and
    visibility of the frame before it returns ErrNoImageYet; the decoded
    shape, its size and the raw buffer are left alone, no shape is
    fetched, and the frame and the desktop resource are released. *)
Theorem pointer_only_frame_moves_cursor (o : Provider) (timeoutMs : Z)
  (d : OutputDuplicator) (h : handle) (hrF : Z)
  (info : dxgi.DXGI_OUTDUPL_FRAME_INFO) :
  outputDuplication d = Some h ->
  UpdatePointerInfo d = true ->
  d3d.Failed (d3d.HRESULT (fst (r_GetDesc o))) = false ->
  dxgi.DesktopImageInSystemMemory (snd (r_GetDesc o)) = 0 ->
  r_AcquireNextFrame o = (hrF, info) ->
  d3d.Failed (d3d.HRESULT hrF) = false ->
  dxgi.LastMouseUpdateTime info <> 0 ->
  dxgi.PointerShapeBufferSize info = 0 ->
  dxgi.AccumulatedFrames info = 0 ->
  Snapshot o timeoutMs d =
    Some (Fail ErrNoImageYet,
          set_acquiredFrame false
            (set_pointerInfo
               (set_pos (dxgi.PointerPosition_Position info)
                  (set_visible (negb (dxgi.PointerPosition_Visible info =? 0))
                     (pointerInfo d))) d),
          [EvGetDesc]
            ++ (if acquiredFrame d then [EvReleaseFrame] else [])
            ++ [EvAcquireNextFrame (Go.uint32 timeoutMs) hrF;
                EvDesktopRelease; EvReleaseFrame]).
Proof.
  intros Ho Hu Hd Hmem Ha Hf Hl Hs Hz.
  unfold Snapshot. run.
  destruct (r_GetDesc o) as [hrD desc]. cbn [fst snd] in Hd, Hmem.
  rewrite Hd. unfold mapDesktop. rewrite Hmem. cbn [Z.eqb negb]. run.
  unfold acquireFrame.
  rewrite (run_bind_ok _ _ _ _ _ _ (ReleaseFrame_eq d h Ho)).
  erewrite run_deref by (cbn; exact Ho). rewrite Ha. run. rewrite Hf.
  set (d2 := set_acquiredFrame true (set_acquiredFrame false d)).
  set (p' := set_pos (dxgi.PointerPosition_Position info)
               (set_visible (negb (dxgi.PointerPosition_Visible info =? 0))
                  (pointerInfo d))).
  assert (W : withFrame o info d2 =
              Some (@Fail Snapshot_ok ErrNoImageYet, set_pointerInfo p' d2, [])).
  { unfold withFrame. rewrite run_get.
    change (UpdatePointerInfo d2) with (UpdatePointerInfo d). rewrite Hu.
    unfold updatePointer, modify_pointer.
    apply Z.eqb_neq in Hl. rewrite Hl, Hs, Hz. cbn [Z.eqb]. run.
    cbn. unfold p'. destruct d; reflexivity. }
  unfold defer at 1. unfold defer at 1. rewrite W. cbn [emit].
  erewrite ReleaseFrame_eq by (cbn; exact Ho).
  cbn [acquiredFrame set_pointerInfo d2 set_acquiredFrame].
  replace (set_acquiredFrame false (set_pointerInfo p' d2))
    with (set_acquiredFrame false (set_pointerInfo p' d))
    by (destruct d; reflexivity).
  rewrite <- !app_assoc. reflexivity.
Qed.

Lemma pointer_only_frame_moves_cursor_witness :
  Snapshot
    (provider 0 (dxgi.mkFRAME_INFO 1 0 (dxgi.mkPOINT 7 9) 1 0 0) [] zeroShapeInfo [] [])
    0 pointerDup =
    Some (Fail ErrNoImageYet,
          set_acquiredFrame false
            (set_pointerInfo
               (set_pos (dxgi.mkPOINT 7 9) (set_visible true (pointerInfo pointerDup)))
               pointerDup),
          [EvGetDesc; EvAcquireNextFrame 0 0; EvDesktopRelease; EvReleaseFrame]).
Proof.
  exact (pointer_only_frame_moves_cursor
           (provider 0 (dxgi.mkFRAME_INFO 1 0 (dxgi.mkPOINT 7 9) 1 0 0) []
              zeroShapeInfo [] [])
           0 pointerDup 3%nat 0 (dxgi.mkFRAME_INFO 1 0 (dxgi.mkPOINT 7 9) 1 0 0)
           eq_refl eq_refl eq_refl eq_refl eq_refl eq_refl
           ltac:(discriminate) eq_refl eq_refl).
Defined.

(* ================================================================== *)
(** ** The status of GetFramePointerShape *)

(** X17. updatePointer compares the status of GetFramePointerShape with
    zero, not with the failure bit: any nonzero status, a success code
    such as S_FALSE included, makes it fail with the
    unable-to-obtain-shape error.  By then the position and visibility
    are stored and the raw buffer holds what the provider wrote (in a new
    buffer if the old one was too short); the decoded shape and its size
    are as before. *)
Theorem shape_fetch_status (o : Provider) (info : dxgi.DXGI_OUTDUPL_FRAME_INFO)
  (d : OutputDuplicator) (h : handle) (hr : Z) (written : list Go.byte)
  (shape : dxgi.DXGI_OUTDUPL_POINTER_SHAPE_INFO) :
  dxgi.LastMouseUpdateTime info <> 0 ->
  dxgi.PointerShapeBufferSize info <> 0 ->
  outputDuplication d = Some h ->
  r_GetFramePointerShape o = (hr, written, shape) ->
  hr <> 0 ->
  exists d' t,
    updatePointer o info d = Some (Fail ErrFramePointerShape, d', t)
    /\ PointerInfo.shapeOutBuffer (pointerInfo d')
       = PointerInfo.shapeOutBuffer (pointerInfo d)
    /\ PointerInfo.size (pointerInfo d') = PointerInfo.size (pointerInfo d)
    /\ PointerInfo.pos (pointerInfo d') = dxgi.PointerPosition_Position info
    /\ PointerInfo.visible (pointerInfo d')
       = negb (dxgi.PointerPosition_Visible info =? 0)
    /\ PointerInfo.shapeInBuffer (pointerInfo d')
       = fetchedShapeIn info written (pointerInfo d)
    /\ forallb (fun e => match e with EvNewShapeOutBuffer _ _ => false | _ => true end) t
       = true.
Proof.
  intros Hl Hs Ho Hr Hhr.
  unfold updatePointer, modify_pointer, fetchedShapeIn.
  apply Z.eqb_neq in Hl, Hs, Hhr. rewrite Hl, Hs, Hr. run.
  cbn [pointerInfo set_pointerInfo PointerInfo.shapeInBuffer set_pos set_visible].
  destruct (Go.slice_len (PointerInfo.shapeInBuffer (pointerInfo d))
            <? dxgi.PointerShapeBufferSize info); run.
  all: run_all; rewrite ?Hhr; cbn.
  all: eexists; eexists; split; [reflexivity|]; cbn; repeat split.
Qed.

Lemma shape_fetch_status_witness :
  d3d.Failed (d3d.HRESULT 1) = false
  /\ exists d' t,
       updatePointer sFalseProvider (shapeFrame 1 0) markerDup
       = Some (Fail ErrFramePointerShape, d', t)
       /\ PointerInfo.shapeOutBuffer (pointerInfo d')
          = PointerInfo.shapeOutBuffer (pointerInfo markerDup)
       /\ PointerInfo.size (pointerInfo d') = dxgi.mkPOINT 1 1.
Proof.
  split; [reflexivity|].
  destruct (shape_fetch_status sFalseProvider
              (shapeFrame 1 0) markerDup 3%nat 1 [1; 2; 3; 4] zeroShapeInfo)
    as (d' & t & E & E1 & E2 & _);
    try reflexivity; try discriminate.
  exists d', t. auto.
Defined.

(* ================================================================== *)
(** ** What a rect loop retrieves *)

Lemma elems_length {A} (s : Go.slice A) :
  (Go.slen s <= length (Go.sarr s))%nat -> length (Go.elems s) = Go.slen s.
Proof. intros H. unfold Go.elems. rewrite length_firstn. lia. Qed.

Lemma stored_within {A} (s : Go.slice A) w :
  (Go.slen s <= length (Go.sarr s))%nat ->
  (Go.slen (Go.stored s w) <= length (Go.sarr (Go.stored s w)))%nat.
Proof.
  intros H. unfold Go.stored. cbn [Go.slen Go.sarr].
  rewrite length_app, copy_length, (elems_length s H), length_skipn. lia.
Qed.

Lemma stored_prefix {A} (s : Go.slice A) w (n : nat) :
  (Go.slen s <= length (Go.sarr s))%nat ->
  (length w <= Go.slen s)%nat -> (n <= length w)%nat ->
  firstn n (Go.sarr (Go.stored s w)) = firstn n w.
Proof.
  intros H Hw Hn. unfold Go.stored, Go.copy. cbn [Go.sarr].
  rewrite (elems_length s H). rewrite (@firstn_all2 _ _ w) by lia.
  rewrite <- app_assoc, firstn_app.
  replace (n - length w)%nat with 0%nat by lia. cbn [firstn]. apply app_nil_r.
Qed.

(** X18. A rect loop that ends without error ends on an answer of the
    provider whose status is no failure, after more-data answers only;
    the buffer is then cut to the count of that answer, and it holds the
    first so many of the rects the provider stored, provided the provider
    stored at least that many and no more than the buffer it was handed
    could take. *)
Theorem rect_loop_result {A} (zero : A) (evMake evCall : Z -> event)
  (answers : list (Z * Z * list A)) :
  forall (buf : Go.slice A) (required : Z) (b : Go.slice A) (t : list event),
    (Go.slen buf <= length (Go.sarr buf))%nat ->
    fetchRects zero evMake evCall answers buf required = Some (b, None, t) ->
    exists hr req written L t0,
      In (hr, req, written) answers
      /\ d3d.Failed (d3d.HRESULT hr) = false
      /\ t = t0 ++ [evCall L]
      /\ Go.slice_len b = Go.uint32 req
      /\ (Go.slen b <= length (Go.sarr b))%nat
      /\ (Go.uint32 req <= Go.len written -> Go.len written <= L ->
          Go.elems b = firstn (Z.to_nat (Go.uint32 req)) written).
Proof.
  induction answers as [|[[hr req] written] rest IH];
    intros buf required b t Hwf; cbn [fetchRects]; [discriminate|].
  set (grown := Go.slice_len buf <? required).
  set (buf1 := if grown then Go.make zero required else buf).
  assert (Hwf1 : (Go.slen buf1 <= length (Go.sarr buf1))%nat).
  { unfold buf1. destruct grown; [|exact Hwf]. rewrite (make_full zero required). lia. }
  pose proof (stored_within buf1 written Hwf1) as Hwf2.
  destruct (d3d.Failed (d3d.HRESULT hr)) eqn:EF.
  - destruct (d3d.HRESULT hr =? d3d.DXGI_ERROR_MORE_DATA); [|discriminate].
    destruct (fetchRects zero evMake evCall rest _ _) as [[[b2 st2] t2]|] eqn:E;
      [|discriminate].
    intros H. injection H as Hb Hs Ht. subst b2 st2 t.
    destruct (IH _ _ _ _ Hwf2 E) as (hr' & req' & w' & L & t0 & Hin & Hok & -> & R).
    exists hr', req', w', L,
      (((if grown then [evMake required] else []) ++ [evCall (Go.slice_len buf1)]) ++ t0).
    split; [now right|]. split; [exact Hok|]. split; [now rewrite app_assoc|exact R].
  - unfold Go.upto, Go.slice_cap, Go.len.
    destruct (Z.leb_spec 0 (Go.uint32 req)); [|discriminate].
    destruct (Z.leb_spec (Go.uint32 req)
                (Z.of_nat (length (Go.sarr (Go.stored buf1 written)))));
      [|discriminate].
    cbn [andb]. intros HE. injection HE as Hb Ht. subst b t.
    exists hr, req, written, (Go.slice_len buf1),
      (if grown then [evMake required] else []).
    split; [now left|]. split; [exact EF|]. split; [reflexivity|].
    change (Go.copy (Go.elems buf1) written ++ skipn (Go.slen buf1) (Go.sarr buf1))
      with (Go.sarr (Go.stored buf1 written)).
    unfold Go.slice_len. cbn [Go.slen Go.sarr]. split; [lia|]. split; [lia|].
    intros H3 H4. unfold Go.elems, Go.len, Go.slice_len in *. cbn [Go.slen Go.sarr].
    apply stored_prefix; [exact Hwf1|lia|lia].
Qed.

Lemma rect_loop_result_witness :
  exists b t hr req written L t0,
    fetchRects dxgi.zeroRECT EvMakeDirtyRects EvGetFrameDirtyRects
      (r_GetFrameDirtyRects dirtyProvider) Go.nil_slice 1 = Some (b, None, t)
    /\ In (hr, req, written) (r_GetFrameDirtyRects dirtyProvider)
    /\ d3d.Failed (d3d.HRESULT hr) = false
    /\ t = t0 ++ [EvGetFrameDirtyRects L]
    /\ Go.slice_len b = Go.uint32 req
    /\ (Go.slen b <= length (Go.sarr b))%nat
    /\ (Go.uint32 req <= Go.len written -> Go.len written <= L ->
        Go.elems b = firstn (Z.to_nat (Go.uint32 req)) written).
Proof.
  eexists. eexists.
  assert (E : fetchRects dxgi.zeroRECT EvMakeDirtyRects EvGetFrameDirtyRects
                (r_GetFrameDirtyRects dirtyProvider) Go.nil_slice 1
              = Some (Go.mkSlice [dxgi.mkRECT 0 0 2 1; dxgi.mkRECT 1 1 3 2] 2, None,
                      [EvMakeDirtyRects 1; EvGetFrameDirtyRects 1;
                       EvMakeDirtyRects 2; EvGetFrameDirtyRects 2]))
    by (vm_compute; reflexivity).
  destruct (rect_loop_result dxgi.zeroRECT EvMakeDirtyRects EvGetFrameDirtyRects
              (r_GetFrameDirtyRects dirtyProvider) Go.nil_slice 1 _ _
              (Nat.le_refl 0) E)
    as (hr & req & written & L & t0 & R).
  exists hr, req, written, L, t0. split; [exact E|exact R].
Defined.

(* ================================================================== *)
(** ** The constructor *)

Ltac setup_cases H :=
  repeat (cbn -[d3d.Failed d3d.HRESULT Go.int32 Go.uint32] in H;
          match type of H with
          | context [d3d.Failed (d3d.HRESULT ?hr)] =>
              let E := fresh "E" in destruct (d3d.Failed (d3d.HRESULT hr)) eqn:E
          | context [through ?p] => destruct p
          end);
  cbn -[d3d.Failed d3d.HRESULT Go.int32 Go.uint32] in H.

(** X19. Whenever the constructor returns, it returns a duplicator
    exactly when the provider's answers allow one: the debug interface is
    absent or yields its info queue (its absence is not an error), the
    DXGI device, its adapter, the output and its IDXGIOutput5 are
    obtained, and DuplicateOutput1 or else DuplicateOutput through
    IDXGIOutput1 succeeds.  The duplicator then holds, field by field:
    the device and the context given; as dxgiOutput the IDXGIOutput5,
    which is not nil; as outputDuplication what DuplicateOutput1 stored,
    with needsSwizzle false, when that call succeeded, and what
    DuplicateOutput stored, with needsSwizzle true, when it failed; no
    staging texture, no surface, no frame marked as acquired, both
    options off, and zero values in the mapped rect, the size, the
    pointer state and the two rect buffers. *)
Theorem constructor_builds (f : Factory) (dev ctx : option handle)
  (output format : Z) (r : setupResult) (t : list setupEvent) :
  newIDXGIOutputDuplicationFormat f dev ctx output format = Some (r, t) ->
  match r with
  | Built d =>
      buildable f = true
      /\ device d = dev /\ deviceCtx d = ctx
      /\ dxgiOutput d = snd (f_QueryOutput5 f) /\ dxgiOutput d <> None
      /\ (d3d.Failed (d3d.HRESULT (fst (f_DuplicateOutput1 f))) = false ->
          outputDuplication d = snd (f_DuplicateOutput1 f)
          /\ needsSwizzle d = false)
      /\ (d3d.Failed (d3d.HRESULT (fst (f_DuplicateOutput1 f))) = true ->
          outputDuplication d = snd (f_DuplicateOutput f)
          /\ needsSwizzle d = true)
      /\ stagedTex d = None /\ surface d = None /\ acquiredFrame d = false
      /\ DrawPointer d = false /\ UpdatePointerInfo d = false
      /\ mappedRect d = dxgi.mkMAPPED_RECT 0 []
      /\ size d = dxgi.mkPOINT 0 0
      /\ pointerInfo d
         = PointerInfo.mk (dxgi.mkPOINT 0 0) (dxgi.mkPOINT 0 0) (Go.mkSlice [] 0)
             None false
      /\ movedRects d = Go.mkSlice [] 0 /\ dirtyRects d = Go.mkSlice [] 0
  | NotBuilt e => buildable f = false
  end.
Proof.
  destruct f as [[h1 p1] [h2 p2] [h3 p3] [h4 p4] [h5 p5] [h6 p6] [h7 p7] [h8 p8] [h9 p9]].
  unfold newIDXGIOutputDuplicationFormat, findOutput, duplicate, releasing, sbind, call, sret.
  unfold buildable, succeeded. cbn [fst snd f_QueryDebug f_QueryInfoQueue f_QueryDevice1
    f_GetParent f_EnumOutputs f_QueryOutput5 f_DuplicateOutput1 f_QueryOutput1 f_DuplicateOutput].
  intros H. setup_cases H.
  all: try discriminate.
  all: injection H as <- <-.
  all: repeat match goal with E : d3d.Failed _ = _ |- _ => rewrite E; clear E end.
  all: cbn [negb andb orb snd].
  all: try reflexivity.
  all: repeat match goal with |- _ /\ _ => split end.
  all: try reflexivity; try discriminate.
  all: intros _; split; reflexivity.
Qed.

(** X20. The constructor leaks no interface.  Whenever it returns, every
    interface a call handed out has been released exactly once, save the
    IDXGIOutput5 and the duplication that a built duplicator keeps; when
    no duplicator is built nothing is kept.  Every Release comes after
    the last call. *)
Theorem constructor_releases (f : Factory) (device deviceCtx : option handle)
  (output format : Z) (r : setupResult) (t : list setupEvent) :
  newIDXGIOutputDuplicationFormat f device deviceCtx output format = Some (r, t) ->
  (forall i, obtained i t
             = (released_count i t + (if retained r i then 1 else 0))%nat)
  /\ exists calls releases,
       t = calls ++ releases
       /\ forallb (fun e => negb (is_release e)) calls = true
       /\ forallb is_release releases = true.
Proof.
  destruct f as [[h1 p1] [h2 p2] [h3 p3] [h4 p4] [h5 p5] [h6 p6] [h7 p7] [h8 p8] [h9 p9]].
  unfold newIDXGIOutputDuplicationFormat, findOutput, duplicate, releasing, sbind, call, sret.
  cbn [fst snd f_QueryDebug f_QueryInfoQueue f_QueryDevice1
    f_GetParent f_EnumOutputs f_QueryOutput5 f_DuplicateOutput1 f_QueryOutput1 f_DuplicateOutput].
  intros H. setup_cases H.
  all: try discriminate.
  all: injection H as <- <-.
  all: split;
    [ intros i; unfold obtained, released_count, obtains;
      cbn -[d3d.Failed d3d.HRESULT Go.int32 Go.uint32];
      repeat match goal with E : d3d.Failed _ = _ |- _ => rewrite E; clear E end;
      destruct i; reflexivity
    | ].
  all: match goal with
       | |- exists c r, ?t = _ /\ _ =>
           exists (filter (fun e => negb (is_release e)) t), (filter is_release t)
       end; cbn; repeat split; reflexivity.
Qed.

Lemma constructor_builds_witness :
  exists t,
    NewIDXGIOutputDuplication legacyFactory (Some 1%nat) (Some 2%nat) 0
    = Some (Built (mkDup (Some 1%nat) (Some 2%nat) (Some 16%nat) (Some 14%nat)
                     None None (dxgi.mkMAPPED_RECT 0 []) (dxgi.mkPOINT 0 0)
                     (PointerInfo.mk (dxgi.mkPOINT 0 0) (dxgi.mkPOINT 0 0)
                        (Go.mkSlice [] 0) None false)
                     false false (Go.mkSlice [] 0) (Go.mkSlice [] 0) false true), t)
    /\ buildable legacyFactory = true.
Proof.
  eexists. split; [vm_compute; reflexivity|].
  exact (proj1 (constructor_builds legacyFactory (Some 1%nat) (Some 2%nat) 0
                  DXGI_FORMAT_R8G8B8A8_UNORM (Built _) _ eq_refl)).
Defined.

Lemma constructor_releases_witness :
  exists r t,
    NewIDXGIOutputDuplication legacyFactory (Some 1%nat) (Some 2%nat) 0 = Some (r, t)
    /\ obtained IDXGIOutput1 t = 1%nat /\ released_count IDXGIOutput1 t = 1%nat
    /\ obtained IDXGIOutput5 t = 1%nat /\ released_count IDXGIOutput5 t = 0%nat
    /\ forall i, obtained i t = (released_count i t + (if retained r i then 1 else 0))%nat.
Proof.
  eexists. eexists. split; [vm_compute; reflexivity|].
  repeat (split; [reflexivity|]).
  exact (proj1 (constructor_releases legacyFactory (Some 1%nat) (Some 2%nat) 0
                  DXGI_FORMAT_R8G8B8A8_UNORM _ _ eq_refl)).
Defined.
